(** * UNITER (mmf/models/uniter.py): input assembly, masking and task dispatch

    A shallow embedding of the forward paths of [UniterImageEmbeddings],
    [UniterModelBase], [UniterForClassification] and [UniterForPretraining],
    together with the part of the tensor library they use.

    - Tensors are contiguous, row-major: a shape and a flat list of entries
      of one dtype (long, bool or floating point).
    - Floating-point entries are kept abstract ([FloatOps]); the laws a
      statement needs are hypotheses of that statement.
    - The batch ([processed_sample_list]) is a dictionary from field names to
      references into a store of tensor objects, so that two fields can name
      the same tensor object.
    - Python code that reads or writes the batch, draws random numbers or
      raises is written in a state-and-exception monad; the state survives
      an exception, as the caller's batch does in Python.
    - The transformer stack, the BERT text embeddings, the linear and
      normalisation layers, the heads and the losses are collaborators that
      live outside the module: they are parameters of the model. *)

From stdpp Require Import gmap strings list pretty.
From Stdlib Require Import ZArith QArith.

Open Scope string_scope.
Open Scope list_scope.
Open Scope nat_scope.
Open Scope stdpp_scope.

(** ** Exceptions and results *)

Inductive exn :=
| AssertionError (msg : string)
| ValueError (msg : string)
| KeyError (key : string)
| IndexError
| TypeError
| AttributeError
| RuntimeError
| DanglingRef (l : nat)
| Propagated (origin : string) (e : exn).

Inductive result (A : Type) :=
| Ok (a : A)
| Raise (e : exn).
Arguments Ok {A} a.
Arguments Raise {A} e.

Definition rbind {A B} (r : result A) (k : A → result B) : result B :=
  match r with Ok a => k a | Raise e => Raise e end.

Definition is_ok {A} (r : result A) : bool :=
  match r with Ok _ => true | Raise _ => false end.

(** ** Floating-point entries *)

Class FloatOps (F : Type) := {
  of_Z : Z → F;
  trunc : F → Z;
  fadd : F → F → F;
  fsub : F → F → F;
  fmul : F → F → F;
  flt : F → F → bool;
  fnonzero : F → bool
}.

(** ** Flat lists seen as blocks *)

Section blocks.
Context {A : Type}.

(** [chunks k n l]: the first [n] consecutive blocks of [k] entries of [l]. *)
Fixpoint chunks (k n : nat) (l : list A) : list (list A) :=
  match n with
  | 0 => []
  | S n' => take k l :: chunks k n' (drop k l)
  end.

(** Entries (or blocks) kept by a boolean mask. *)
Fixpoint select {B : Type} (m : list bool) (l : list B) : list B :=
  match m, l with
  | b :: m', x :: l' => if b then x :: select m' l' else select m' l'
  | _, _ => []
  end.

End blocks.

Definition numel (s : list nat) : nat := foldr Nat.mul 1 s.

(** Data of a tensor of shape [src] read at shape [tgt] (same rank), every
    dimension of size one repeated as often as [tgt] asks. *)
Fixpoint expand_data {A : Type} (src tgt : list nat) (l : list A) : list A :=
  match src, tgt with
  | d :: src', D :: tgt' =>
      if (d =? D)%nat
      then concat (map (expand_data src' tgt') (chunks (numel src') d l))
      else concat (replicate D (expand_data src' tgt' l))
  | _, _ => l
  end.

Definition expandable (src tgt : list nat) : bool :=
  bool_decide (length src = length tgt)
  && forallb (λ p, (p.1 =? p.2)%nat || (p.1 =? 1)%nat) (zip src tgt).

(** A shape padded on the left with ones up to rank [n]. *)
Definition pad_shape (n : nat) (s : list nat) : list nat :=
  replicate (n - length s) 1 ++ s.

Fixpoint broadcast_dims (s1 s2 : list nat) : option (list nat) :=
  match s1, s2 with
  | [], [] => Some []
  | d1 :: s1', d2 :: s2' =>
      r ← broadcast_dims s1' s2';
      if (d1 =? d2)%nat then Some (d1 :: r)
      else if (d1 =? 1)%nat then Some (d2 :: r)
      else if (d2 =? 1)%nat then Some (d1 :: r)
      else None
  | _, _ => None
  end.

Definition broadcast_shapes (s1 s2 : list nat) : option (list nat) :=
  let n := length s1 `max` length s2 in
  broadcast_dims (pad_shape n s1) (pad_shape n s2).

(** A Python index [k] into a sequence of length [n]: negative indices count
    from the end. *)
Definition norm_index (n : nat) (k : Z) : option nat :=
  if (0 <=? k)%Z then
    if (k <? Z.of_nat n)%Z then Some (Z.to_nat k) else None
  else
    if (- Z.of_nat n <=? k)%Z then Some (Z.to_nat (Z.of_nat n + k)) else None.

(** ** Tensors *)

Section tensors.
Context {F : Type} {FO : FloatOps F}.

Inductive tdata :=
| DLong (xs : list Z)
| DBool (xs : list bool)
| DFloat (xs : list F).

Record tensor := Tensor { shape : list nat; data : tdata }.

Definition data_length (d : tdata) : nat :=
  match d with
  | DLong xs => length xs
  | DBool xs => length xs
  | DFloat xs => length xs
  end.

(** A tensor object is well formed when it has as many entries as its shape
    says. *)
Definition wf_tensor (t : tensor) : bool :=
  bool_decide (data_length (data t) = numel (shape t)).

Definition lift_data (f : ∀ A : Type, list A → list A) (d : tdata) : tdata :=
  match d with
  | DLong xs => DLong (f _ xs)
  | DBool xs => DBool (f _ xs)
  | DFloat xs => DFloat (f _ xs)
  end.

Definition lift_data2 (f : ∀ A : Type, list A → list A → list A)
    (d1 d2 : tdata) : option tdata :=
  match d1, d2 with
  | DLong xs, DLong ys => Some (DLong (f _ xs ys))
  | DBool xs, DBool ys => Some (DBool (f _ xs ys))
  | DFloat xs, DFloat ys => Some (DFloat (f _ xs ys))
  | _, _ => None
  end.

(** [x.dim()] and [x.size(k)]. *)
Definition dim (t : tensor) : nat := length (shape t).

Definition size (t : tensor) (k : Z) : result nat :=
  match norm_index (dim t) k with
  | Some i => match shape t !! i with Some n => Ok n | None => Raise IndexError end
  | None => Raise IndexError
  end.

(** Casts: [.long()], [.bool()], [.to(dtype=float)]. *)
Definition to_long (t : tensor) : tensor :=
  Tensor (shape t)
    (match data t with
     | DLong xs => DLong xs
     | DBool xs => DLong (map (λ b : bool, if b then 1%Z else 0%Z) xs)
     | DFloat xs => DLong (map trunc xs)
     end).

Definition nonzero_bits (d : tdata) : list bool :=
  match d with
  | DLong xs => map (λ z, negb (z =? 0)%Z) xs
  | DBool xs => xs
  | DFloat xs => map fnonzero xs
  end.

Definition to_bool (t : tensor) : tensor := Tensor (shape t) (DBool (nonzero_bits (data t))).

Definition float_entries (d : tdata) : list F :=
  match d with
  | DLong xs => map of_Z xs
  | DBool xs => map (λ b : bool, if b then of_Z 1 else of_Z 0) xs
  | DFloat xs => xs
  end.

Definition to_float (t : tensor) : tensor := Tensor (shape t) (DFloat (float_entries (data t))).

(** [x.to(other)]: the dtype of [other]. *)
Definition to_like (t other : tensor) : tensor :=
  match data other with
  | DLong _ => to_long t
  | DBool _ => to_bool t
  | DFloat _ => to_float t
  end.

(** [x.ne(0)] and [x.any()]. *)
Definition ne0 (t : tensor) : tensor := to_bool t.

Definition any (t : tensor) : bool := existsb id (nonzero_bits (data t)).

(** Constructors: [torch.zeros], [torch.full(.., dtype=torch.long)],
    [torch.ones_like] of a long tensor. [torch.full] refuses a fill value
    that is no 64-bit signed integer. *)
Definition zeros (s : list nat) : tensor := Tensor s (DFloat (replicate (numel s) (of_Z 0))).

Definition const_long (s : list nat) (v : Z) : tensor :=
  Tensor s (DLong (replicate (numel s) v)).

Definition int64_range (v : Z) : bool := ((- 2 ^ 63 <=? v) && (v <? 2 ^ 63))%Z.

Definition full_long (s : list nat) (v : Z) : result tensor :=
  if int64_range v then Ok (const_long s v) else Raise RuntimeError.

Definition ones_like_long (t : tensor) : tensor := const_long (shape t) 1.

(** [torch.tensor(rows).bool()] for a list of lists of booleans. An empty list
    gives the empty tensor of shape (0,); rows of different lengths are
    refused. *)
Definition tensor_of_bool_rows (rows : list (list bool)) : result tensor :=
  match rows with
  | [] => Ok (Tensor [0] (DBool []))
  | r :: _ =>
      if forallb (λ r', (length r' =? length r)%nat) rows
      then Ok (Tensor [length rows; length r] (DBool (concat rows)))
      else Raise (ValueError "expected sequence of equal length")
  end.

(** [x.unsqueeze(k)]. *)
Definition unsqueeze (t : tensor) (k : Z) : result tensor :=
  match norm_index (S (dim t)) k with
  | Some i => Ok (Tensor (take i (shape t) ++ 1 :: drop i (shape t)) (data t))
  | None => Raise IndexError
  end.

(** [x.expand(tgt)] and [x.expand_as(other)]. *)
Definition expand (t : tensor) (tgt : list nat) : result tensor :=
  let src := pad_shape (length tgt) (shape t) in
  if expandable src tgt
  then Ok (Tensor tgt (lift_data (λ A, expand_data src tgt) (data t)))
  else Raise RuntimeError.

Definition expand_as (t other : tensor) : result tensor := expand t (shape other).

(** [x.contiguous().view(-1, d)]. *)
Definition view_rows (t : tensor) (d : nat) : result tensor :=
  let n := numel (shape t) in
  if (d =? 0)%nat then Raise RuntimeError
  else if (n `mod` d =? 0)%nat then Ok (Tensor [n `div` d; d] (data t))
  else Raise RuntimeError.

(** [torch.cat([a, b], dim=k)]. A tensor of shape (0,) is skipped, as torch
    does; otherwise ranks and all other dimensions must agree, and so must the
    dtypes. *)
Definition cat_data {A : Type} (outer ra rb : nat) (xs ys : list A) : list A :=
  concat (zip_with app (chunks ra outer xs) (chunks rb outer ys)).

Definition cat (a b : tensor) (k : Z) : result tensor :=
  if bool_decide (shape a = [0]) then Ok b
  else if bool_decide (shape b = [0]) then Ok a
  else
    match norm_index (dim a) k with
    | None => Raise IndexError
    | Some i =>
        match shape a !! i, shape b !! i with
        | Some da, Some db =>
            if bool_decide (<[i:=0]> (shape a) = <[i:=0]> (shape b)) then
              match lift_data2 (λ A, cat_data (numel (take i (shape a)))
                                       (numel (drop i (shape a)))
                                       (numel (drop i (shape b))))
                      (data a) (data b) with
              | Some d => Ok (Tensor (<[i:=da + db]> (shape a)) d)
              | None => Raise RuntimeError
              end
            else Raise RuntimeError
        | _, _ => Raise RuntimeError
        end
    end.

(** Indexing by a boolean mask: [x[mask]]. The mask's shape must be a prefix
    of the shape of [x]; the blocks below the masked dimensions are kept where
    the mask is true. [x[mask, ::]] also slices the next dimension, which
    must exist. *)
Definition mask_bits (mask : tensor) : result (list bool) :=
  match data mask with
  | DBool bs => Ok bs
  | _ => Raise IndexError
  end.

Definition index_mask (x mask : tensor) : result tensor :=
  rbind (mask_bits mask) (λ bs,
    let r := dim mask in
    if bool_decide (take r (shape x) = shape mask ∧ (r ≤ dim x)%nat) then
      let inner := drop r (shape x) in
      Ok (Tensor (length (select bs bs) :: inner)
            (lift_data (λ A xs, concat (select bs (chunks (numel inner) (numel (shape mask)) xs)))
               (data x)))
    else Raise IndexError).

Definition index_mask_slice (x mask : tensor) : result tensor :=
  if bool_decide (dim mask < dim x)%nat then index_mask x mask else Raise IndexError.

(** [torch.where(c, x, y)] for a condition [c] that is a single boolean. *)
Definition where_ (c : bool) (x y : tensor) : result tensor :=
  match broadcast_shapes (shape x) (shape y) with
  | Some s => expand (if c then x else y) s
  | None => Raise RuntimeError
  end.

(** [x.new([True])]: a one-entry tensor of the dtype of [x]. *)
Definition new_true (x : tensor) : tensor := to_like (Tensor [1] (DBool [true])) x.

(** [x.masked_fill(mask, 0)]: out of place. *)
Definition fill0 {A : Type} (zero : A) (bs : list bool) (xs : list A) : list A :=
  zip_with (λ (b : bool) x, if b then zero else x) bs xs.

Definition masked_fill0 (x mask : tensor) : result tensor :=
  rbind (mask_bits mask) (λ _,
  rbind (expand mask (shape x)) (λ m,
  rbind (mask_bits m) (λ bs,
    Ok (Tensor (shape x)
          (match data x with
           | DLong xs => DLong (fill0 0%Z bs xs)
           | DBool xs => DBool (fill0 false bs xs)
           | DFloat xs => DFloat (fill0 (of_Z 0) bs xs)
           end))))).

(** [x[:, :, 0]]: entry 0 along the third dimension. *)
Definition select_dim2_0 (x : tensor) : result tensor :=
  match shape x with
  | d0 :: d1 :: S d2 :: rest =>
      let inner := numel rest in
      Ok (Tensor (d0 :: d1 :: rest)
            (lift_data (λ A xs, concat (map (take inner) (chunks (S d2 * inner) (d0 * d1) xs)))
               (data x)))
  | _ => Raise IndexError
  end.

(** [nn.Embedding] lookup: row [i] of the table for every index [i]. *)
Definition embedding_rows (table : list (list F)) (idx : list Z) : result (list (list F)) :=
  foldr (λ (i : Z) acc,
           rbind acc (λ rows,
             if (0 <=? i)%Z then
               match table !! Z.to_nat i with
               | Some row => Ok (row :: rows)
               | None => Raise IndexError
               end
             else Raise IndexError))
        (Ok []) idx.

Definition embedding (weight idx : tensor) : result tensor :=
  match shape weight, data weight, data idx with
  | [n; d], DFloat w, DLong ids =>
      rbind (embedding_rows (chunks d n w) ids) (λ rows,
        Ok (Tensor (shape idx ++ [d]) (DFloat (concat rows))))
  | _, _, _ => Raise RuntimeError
  end.

(** [weight.data[0, :].fill_(0)]: in place on the table, written as the new
    value of the table. *)
Definition fill_row0 (weight : tensor) : result tensor :=
  match shape weight with
  | S _ :: _ :: _ =>
      let r := numel (drop 1 (shape weight)) in
      Ok (Tensor (shape weight)
            (match data weight with
             | DLong xs => DLong (replicate r 0%Z ++ drop r xs)
             | DBool xs => DBool (replicate r false ++ drop r xs)
             | DFloat xs => DFloat (replicate r (of_Z 0) ++ drop r xs)
             end))
  | _ => Raise IndexError
  end.

(** [a + b] with broadcasting, for operands of which one is a floating-point
    tensor: the sum is a floating-point tensor. *)
Definition add_float (a b : tensor) : result tensor :=
  match broadcast_shapes (shape a) (shape b) with
  | Some s =>
      rbind (expand (to_float a) s) (λ a',
      rbind (expand (to_float b) s) (λ b',
        Ok (Tensor s (DFloat (zip_with fadd (float_entries (data a'))
                                            (float_entries (data b')))))))
  | None => Raise RuntimeError
  end.

(** [(1.0 - x) * -10000.0]. *)
Definition additive_mask (x : tensor) : tensor :=
  Tensor (shape x)
    (DFloat (map (λ v, fmul (fsub (of_Z 1) v) (of_Z (-10000))) (float_entries (data x)))).

End tensors.

Arguments tdata F : clear implicits.
Arguments tensor F : clear implicits.

(** ** The batch, the store and the monad *)

(** Python's [random] module: [random.random()] and the index drawn by
    [random.choice(range(n))], each with the generator state that follows. *)
Class PyRandom (F G : Type) := {
  random : G → F * G;
  randbelow : nat → G → nat * G
}.

(** A value held by the batch: [None], a reference to a tensor object, a
    string ([task], [dataset_name]) or a nested dictionary. *)
#[warnings="-register-all"]
Inductive field :=
| FNone
| FTensor (l : nat)
| FStr (s : string)
| FDict (d : gmap string field).

Section monad.
Context {F : Type} {FO : FloatOps F} {G : Type} {RG : PyRandom F G}.

(** What [UniterModelBase.forward] returns: the last layer's output, or all
    layers when hidden states are asked for. *)
Inductive encoded :=
| Last (t : tensor F)
| Layers (ts : list (tensor F)).

(** Ghost record of the calls made: the routines [forward] enters and the
    collaborators it calls, with what they are given. *)
Inductive event :=
| Enter (routine : string)
| CallEncoder (embedding_output attention_mask : tensor F) (output_hidden_states : bool)
| CallHead (name : field) (sequence_output : encoded)
| CallLoss (name : field) (scores : tensor F).

Record state := State {
  batch : gmap string field;
  store : list (tensor F);
  rng : G;
  mask_embedding_weight : tensor F;
  calls : list event
}.

Definition set_batch (f : gmap string field → gmap string field) (st : state) : state :=
  State (f (batch st)) (store st) (rng st) (mask_embedding_weight st) (calls st).
Definition set_store (f : list (tensor F) → list (tensor F)) (st : state) : state :=
  State (batch st) (f (store st)) (rng st) (mask_embedding_weight st) (calls st).
Definition set_rng (g : G) (st : state) : state :=
  State (batch st) (store st) g (mask_embedding_weight st) (calls st).
Definition set_weight (w : tensor F) (st : state) : state :=
  State (batch st) (store st) (rng st) w (calls st).
Definition add_call (e : event) (st : state) : state :=
  State (batch st) (store st) (rng st) (mask_embedding_weight st) (calls st ++ [e]).

Definition M (A : Type) : Type := state → result A * state.

Definition ret {A} (a : A) : M A := λ st, (Ok a, st).

Definition bind {A B} (m : M A) (k : A → M B) : M B :=
  λ st, match m st with
        | (Ok a, st') => k a st'
        | (Raise e, st') => (Raise e, st')
        end.

Definition raise {A} (e : exn) : M A := λ st, (Raise e, st).

(** A tensor operation that may fail. *)
Definition lift {A} (r : result A) : M A := λ st, (r, st).

(** A collaborator's result; what it raises is marked with where it came
    from. *)
Definition call {A} (origin : string) (r : result A) : M A :=
  λ st, (match r with Ok a => Ok a | Raise e => Raise (Propagated origin e) end, st).

Definition log (e : event) : M unit := λ st, (Ok (), add_call e st).

(** [assert c, msg]. *)
Definition assert_ (c : bool) (msg : string) : M unit :=
  if c then ret () else raise (AssertionError msg).

(** [o.attr] for an attribute that may be missing, an argument that may be
    [None] where a tensor is needed. *)
Definition attr {A} (o : option A) : M A :=
  match o with Some a => ret a | None => raise AttributeError end.

Definition require {A} (o : option A) : M A :=
  match o with Some a => ret a | None => raise TypeError end.

(** Dictionary access on the batch: [k in d], [d.get(k)], [d[k]],
    [d[k] = v]. *)
Definition contains (k : string) : M bool :=
  λ st, (Ok (bool_decide (is_Some (batch st !! k))), st).

Definition get (k : string) : M (option field) := λ st, (Ok (batch st !! k), st).

Definition getitem (k : string) : M field :=
  λ st, match batch st !! k with
        | Some v => (Ok v, st)
        | None => (Raise (KeyError k), st)
        end.

Definition setitem (k : string) (v : field) : M unit :=
  λ st, (Ok (), set_batch (<[k:=v]>) st).

(** The store of tensor objects: a reference is an index; a new object goes
    to the end. *)
Definition deref (l : nat) : M (tensor F) :=
  λ st, match store st !! l with
        | Some t => (Ok t, st)
        | None => (Raise (DanglingRef l), st)
        end.

Definition alloc (t : tensor F) : M nat :=
  λ st, (Ok (length (store st)), set_store (λ s, s ++ [t]) st).

(** A batch value used as a tensor: anything else raises [e]. *)
Definition tensor_of (e : exn) (v : field) : M (tensor F) :=
  match v with
  | FTensor l => deref l
  | _ => raise e
  end.

(** A batch value passed as an optional tensor argument. *)
Definition arg_of (v : field) : M (option (tensor F)) :=
  match v with
  | FNone => ret None
  | FTensor l => bind (deref l) (λ t, ret (Some t))
  | _ => raise TypeError
  end.

Definition get_tensor (k : string) : M (tensor F) :=
  bind (getitem k) (tensor_of AttributeError).

Definition set_tensor (k : string) (t : tensor F) : M unit :=
  bind (alloc t) (λ l, setitem k (FTensor l)).

(** The tensor object a field of the batch names, if it names one. *)
Definition tensor_at (st : state) (k : string) : option (tensor F) :=
  match batch st !! k with
  | Some (FTensor l) => store st !! l
  | _ => None
  end.

Definition snapshot : M (gmap string field * list (tensor F)) :=
  λ st, (Ok (batch st, store st), st).

Definition get_weight : M (tensor F) := λ st, (Ok (mask_embedding_weight st), st).
Definition put_weight (w : tensor F) : M unit := λ st, (Ok (), set_weight w st).

(** [random.random()] and [random.choice(range(n))]. *)
Definition py_random : M F :=
  λ st, let (x, g) := random (rng st) in (Ok x, set_rng g st).

Definition py_choice_range (n : nat) : M nat :=
  match n with
  | 0 => raise IndexError
  | _ => λ st, let (i, g) := randbelow n (rng st) in (Ok i, set_rng g st)
  end.

(** [for x in l: body], [[m for _ in range(n)]]. *)
Fixpoint for_ {A} (l : list A) (body : A → M unit) : M unit :=
  match l with
  | [] => ret ()
  | x :: l' => bind (body x) (λ _, for_ l' body)
  end.

Fixpoint repeatM {A} (n : nat) (m : M A) : M (list A) :=
  match n with
  | 0 => ret []
  | S n' => bind m (λ a, bind (repeatM n' m) (λ l, ret (a :: l)))
  end.

(** [modules[key]] on a [ModuleDict], for a literal key and for a key read
    from the batch. *)
Definition module_get {A} (d : gmap string A) (k : string) : M A :=
  match d !! k with
  | Some a => ret a
  | None => raise (KeyError k)
  end.

Definition module_getitem {A} (d : gmap string A) (key : field) : M A :=
  match key with
  | FStr s => module_get d s
  | FDict _ => raise TypeError
  | _ => raise (KeyError "")
  end.

Definition field_is (v : field) (s : string) : bool :=
  match v with
  | FStr s' => bool_decide (s' = s)
  | _ => false
  end.

End monad.

Arguments encoded F : clear implicits.
Arguments event F : clear implicits.
Arguments state F G : clear implicits.
Arguments M F G A : clear implicits.

#[global] Instance M_ret {F G} : MRet (M F G) := λ A, ret.
#[global] Instance M_bind {F G} : MBind (M F G) := λ A B k m, bind m k.

(** ** class UniterImageEmbeddings *)

Module UniterImageEmbeddings.
Section defs.
Context {F : Type} {FO : FloatOps F} {G : Type} {RG : PyRandom F G}.

(** The layers built in [__init__]; [mask_embedding]'s weight is in the
    state, since [forward] writes to it. *)
Record t := {
  img_linear : tensor F → result (tensor F);
  img_layer_norm : tensor F → result (tensor F);
  pos_layer_norm : tensor F → result (tensor F);
  pos_linear : tensor F → result (tensor F);
  final_layer_norm : tensor F → result (tensor F);
  dropout : tensor F → result (tensor F)
}.

Definition forward (self : t) (img_feat img_pos_feat : option (tensor F))
    (type_embeddings : tensor F) (img_masks : option (tensor F)) : M F G (tensor F) :=
  img_feat ←
    match img_masks with
    | Some img_masks =>
        w ← get_weight;
        w ← lift (fill_row0 w);
        put_weight w;;
        mask ← lift (embedding w (to_long img_masks));
        x ← require img_feat;
        s ← lift (add_float x mask);
        mret (Some s)
    | None => mret img_feat
    end;
  x ← require img_feat;
  y ← call "img_linear" (img_linear self x);
  transformed_im ← call "img_layer_norm" (img_layer_norm self y);
  p ← require img_pos_feat;
  q ← call "pos_linear" (pos_linear self p);
  transformed_pos ← call "pos_layer_norm" (pos_layer_norm self q);
  e ← lift (add_float transformed_im transformed_pos);
  embeddings ← lift (add_float e type_embeddings);
  embeddings ← call "final_layer_norm" (final_layer_norm self embeddings);
  call "dropout" (dropout self embeddings).

End defs.
Arguments t F : clear implicits.
End UniterImageEmbeddings.

(** ** class UniterModelBase *)

Module UniterModelBase.
Section defs.
Context {F : Type} {FO : FloatOps F} {G : Type} {RG : PyRandom F G}.

(** [embeddings] is the BERT text embedding layer, called on input ids,
    position ids and token type ids; [encoder] returns the tuple of its
    outputs. *)
Record t := {
  embeddings : tensor F → option (tensor F) → option (tensor F) → result (tensor F);
  token_type_embeddings : tensor F → result (tensor F);
  img_embeddings : UniterImageEmbeddings.t F;
  encoder : tensor F → tensor F → bool → result (list (tensor F))
}.

Definition _compute_txt_embeddings (self : t) (input_ids : tensor F)
    (position_ids token_type_ids : option (tensor F)) : M F G (tensor F) :=
  call "embeddings" (embeddings self input_ids position_ids token_type_ids).

Definition _compute_img_embeddings (self : t) (img_feat img_pos_feat : option (tensor F))
    (img_masks img_type_ids : option (tensor F)) : M F G (tensor F) :=
  img_type_ids ←
    match img_type_ids with
    | None =>
        x ← require img_feat;
        s ← lift (select_dim2_0 x);
        mret (ones_like_long (to_long s))
    | Some ids => mret ids
    end;
  img_type_embeddings ← call "token_type_embeddings" (token_type_embeddings self img_type_ids);
  UniterImageEmbeddings.forward (img_embeddings self)
    img_feat img_pos_feat img_type_embeddings img_masks.

Definition _compute_img_txt_embeddings (self : t) (input_ids : tensor F)
    (position_ids : option (tensor F)) (img_feat img_pos_feat : option (tensor F))
    (gather_index img_masks txt_type_ids img_type_ids : option (tensor F)) : M F G (tensor F) :=
  txt_emb ← _compute_txt_embeddings self input_ids position_ids txt_type_ids;
  img_emb ← _compute_img_embeddings self img_feat img_pos_feat img_masks img_type_ids;
  lift (cat txt_emb img_emb 1).

Definition forward (self : t) (input_ids position_ids img_feat img_pos_feat
    attention_mask gather_index img_masks : option (tensor F))
    (output_hidden_states : bool) (txt_type_ids img_type_ids : option (tensor F))
    : M F G (encoded F) :=
  attention_mask ← attr attention_mask;
  extended_attention_mask ← lift (unsqueeze attention_mask 1);
  extended_attention_mask ← lift (unsqueeze extended_attention_mask 2);
  let extended_attention_mask := to_float extended_attention_mask in
  let extended_attention_mask := additive_mask extended_attention_mask in
  embedding_output ←
    match input_ids with
    | None => _compute_img_embeddings self img_feat img_pos_feat img_masks img_type_ids
    | Some input_ids =>
        match img_feat with
        | None => _compute_txt_embeddings self input_ids position_ids txt_type_ids
        | Some _ =>
            _compute_img_txt_embeddings self input_ids position_ids img_feat img_pos_feat
              gather_index img_masks txt_type_ids img_type_ids
        end
    end;
  log (CallEncoder embedding_output extended_attention_mask output_hidden_states);;
  encoded_layers ← call "encoder"
    (encoder self embedding_output extended_attention_mask output_hidden_states);
  if output_hidden_states then mret (Layers encoded_layers)
  else match last encoded_layers with
       | Some x => mret (Last x)
       | None => raise IndexError
       end.

End defs.
Arguments t F : clear implicits.
End UniterModelBase.

(** ** Heads, losses and [_process_head_outputs] *)

Section heads.
Context {F : Type} {FO : FloatOps F} {G : Type} {RG : PyRandom F G}.

(** What a head returns: scores, or a mapping whose entries are tensors or
    the mapping of losses a loss module returns. *)
Inductive oval :=
| VTensor (x : tensor F)
| VLosses (l : gmap string (tensor F))
| VOther.

Inductive output :=
| OutTensor (x : tensor F)
| OutMapping (m : gmap string oval).

Record head_config := {
  ignore_index : option Z;
  mrc_label_key : option string;
  mrc_mask_key : option string;
  mrfr_target_key : option string;
  mrfr_mask_key : option string;
  ot_inputs_key : option string;
  wra_label_key : option string
}.

(** A head is called on the encoder's output and the batch, which it reads. *)
Record head := {
  config : head_config;
  run : encoded F → gmap string field → list (tensor F) → result output
}.

(** A loss module is called on the batch and [{"scores": logits}]. *)
Definition loss : Type :=
  gmap string field → list (tensor F) → gmap string oval → result (gmap string (tensor F)).

Definition is_mapping_with (k : string) (outputs : output) : bool :=
  match outputs with
  | OutMapping m => bool_decide (is_Some (m !! k))
  | OutTensor _ => false
  end.

Definition _process_head_outputs (dataset_name : field) (losses : gmap string loss)
    (outputs : output) : M F G output :=
  if is_mapping_with "losses" outputs then mret outputs
  else
    logits ←
      match outputs with
      | OutTensor x => mret x
      | OutMapping m =>
          match m !! "scores" with
          | Some (VTensor x) => mret x
          | _ => raise AttributeError
          end
      end;
    d ← lift (size logits (-1));
    logits ← lift (view_rows logits d);
    l ← module_getitem losses dataset_name;
    sample_list ← snapshot;
    log (CallLoss dataset_name logits);;
    output ← call "loss" (l sample_list.1 sample_list.2 {[ "scores" := VTensor logits ]});
    mret (OutMapping (<["losses" := VLosses output]> {[ "scores" := VTensor logits ]})).

End heads.

Arguments oval F : clear implicits.
Arguments output F : clear implicits.
Arguments head F : clear implicits.
Arguments loss F : clear implicits.

(** ** [init_losses]

    The method is the same in both wrappers. [MMFLoss] builds a loss module
    from its configuration; [losses_config] is the [losses] entry of the
    model configuration, if there is one. The result comes with the warnings
    logged. *)

Section init_losses.
Context {F : Type} {C : Type}.

Definition no_loss_msg (task : string) : string :=
  "No loss defined for " +:+ task +:+ ". Head is expected "
  +:+ "to return dict with 'losses'".

Fixpoint init_losses_loop (MMFLoss : C → result (loss F)) (loss_configs : gmap string C)
    (tasks : list string) (losses : gmap string (loss F)) (warnings : list string)
    : result (gmap string (loss F)) * list string :=
  match tasks with
  | [] => (Ok losses, warnings)
  | task :: tasks' =>
      match loss_configs !! task with
      | None =>
          init_losses_loop MMFLoss loss_configs tasks' losses (warnings ++ [no_loss_msg task])
      | Some loss_config =>
          match MMFLoss loss_config with
          | Ok l => init_losses_loop MMFLoss loss_configs tasks' (<[task := l]> losses) warnings
          | Raise e => (Raise (Propagated "MMFLoss" e), warnings)
          end
      end
  end.

Definition init_losses (MMFLoss : C → result (loss F)) (tasks : list string)
    (losses_config : option (gmap string C))
    : result (gmap string (loss F)) * list string :=
  let loss_configs := default ∅ losses_config in
  init_losses_loop MMFLoss loss_configs tasks ∅ [].

End init_losses.

(** ** class UniterForClassification *)

Module UniterForClassification.
Section defs.
Context {F : Type} {FO : FloatOps F} {G : Type} {RG : PyRandom F G}.

Record t := {
  uniter : UniterModelBase.t F;
  heads : gmap string (head F);
  losses : gmap string (loss F)
}.

Definition forward (self : t) : M F G (output F) :=
  input_ids ← getitem "input_ids";
  position_ids ← getitem "position_ids";
  image_feat ← getitem "image_feat";
  img_pos_feat ← getitem "img_pos_feat";
  attention_mask ← getitem "attention_mask";
  image_mask ← getitem "image_mask";
  input_ids ← arg_of input_ids;
  position_ids ← arg_of position_ids;
  image_feat ← arg_of image_feat;
  img_pos_feat ← arg_of img_pos_feat;
  attention_mask ← arg_of attention_mask;
  image_mask ← arg_of image_mask;
  sequence_output ← UniterModelBase.forward (uniter self)
    input_ids position_ids image_feat img_pos_feat attention_mask None image_mask
    false None None;
  dataset_name ← getitem "dataset_name";
  h ← module_getitem (heads self) dataset_name;
  sample_list ← snapshot;
  log (CallHead dataset_name sequence_output);;
  outputs ← call "head" (run h sequence_output sample_list.1 sample_list.2);
  _process_head_outputs dataset_name (losses self) outputs.

End defs.
Arguments t F : clear implicits.
End UniterForClassification.

(** ** class UniterForPretraining *)

Module UniterForPretraining.
Section defs.
Context {F : Type} {FO : FloatOps F} {G : Type} {RG : PyRandom F G}.

(** [mask_probability] is [self.config.get("mask_probability", 0)] before the
    default is applied. *)
Record t := {
  uniter : UniterModelBase.t F;
  heads : gmap string (head F);
  losses : gmap string (loss F);
  mask_probability : option F
}.

Definition is_correct_msg : string :=
  "UNITER pretraining requires mismatched captions for Image-Text-Matching."
  +:+ " Please add 'false_caption': true under dataset_config in your "
  +:+ "yaml configs.".

(** How a shape and a batch value print in a message. *)
Definition show_shape (s : list nat) : string :=
  "torch.Size([" +:+ String.concat ", " (map pretty s) +:+ "])".

Definition show_field (v : field) : string :=
  match v with
  | FNone => "None"
  | FStr s => s
  | FTensor _ => "tensor(...)"
  | FDict _ => "{...}"
  end.

Definition shape_msg (name : string) (s : list nat) (n : nat) : string :=
  "tensor " +:+ name +:+ " has shape " +:+ show_shape s +:+ " but expected "
  +:+ pretty n +:+ " at dim 0.".

Definition tensor_names : list string :=
  [ "input_ids"; "input_mask"; "image_feat"; "img_pos_feat"; "attention_mask";
    "image_mask"; "image_feat_masked"; "lm_label_ids"; "cls_prob" ].

Definition _remove_mismatched_captions (self : t) : M F G unit :=
  c ← contains "is_correct";
  assert_ c "";;
  is_correct ← get_tensor "is_correct";
  let pos_pairs := ne0 is_correct in
  pos_pairs_mask ← lift (where_ (any pos_pairs) pos_pairs (new_true pos_pairs));
  for_ tensor_names (λ name,
    x ← get name;
    match x with
    | None | Some FNone => mret ()
    | Some x =>
        x ← tensor_of AttributeError x;
        if bool_decide (dim x = 1) then
          n ← lift (size x 0);
          m ← lift (size pos_pairs_mask 0);
          assert_ (bool_decide (n = m)) (shape_msg name (shape x) m);;
          x ← lift (index_mask x pos_pairs_mask);
          mret ()
        else
          x ← lift (index_mask_slice x pos_pairs_mask);
          mret ()
    end).

Definition _get_img_mask (self : t) (mask_prob : F) (num_bb : nat) : M F G (list bool) :=
  img_mask ← repeatM num_bb (x ← py_random; mret (flt x mask_prob));
  if negb (existsb id img_mask) then
    i ← py_choice_range num_bb;
    if bool_decide (i < length img_mask) then mret (<[i:=true]> img_mask)
    else raise IndexError
  else mret img_mask.

Definition _add_image_feat_masked (self : t) : M F G unit :=
  let mask_prob := default (of_Z 0) (mask_probability self) in
  x ← getitem "image_feat";
  img_feat_masked ← tensor_of TypeError x;
  num_feat ← lift (size img_feat_masked 1);
  n ← lift (size img_feat_masked 0);
  img_masks ← repeatM n (_get_img_mask self mask_prob num_feat);
  img_masks ← lift (tensor_of_bool_rows img_masks);
  u ← lift (unsqueeze img_masks (-1));
  img_masks_ext ← lift (expand_as u img_feat_masked);
  filled ← lift (masked_fill0 img_feat_masked img_masks_ext);
  set_tensor "image_feat_masked" filled;;
  set_tensor "image_mask" img_masks.

(** [torch.tensor(x)]: a new tensor object with the data of [x]. *)
Definition torch_tensor (v : field) : M F G (tensor F) :=
  match v with
  | FTensor l => deref l
  | FStr _ => raise (ValueError "too many dimensions 'str'")
  | _ => raise RuntimeError
  end.

Definition _process_sample_list_for_pretraining (self : t) : M F G unit :=
  log (Enter "_process_sample_list_for_pretraining");;
  task ← getitem "task";
  (if field_is task "mrc" || field_is task "mrfr" then
     _add_image_feat_masked self;;
     info ← getitem "image_info_0";
     c ← match info with
         | FDict d => module_get d "cls_prob"
         | FTensor _ => raise IndexError
         | _ => raise TypeError
         end;
     c ← torch_tensor c;
     set_tensor "cls_prob" c
   else mret ());;
  if negb (field_is task "itm") && negb (field_is task "wra")
  then _remove_mismatched_captions self
  else mret ().

Definition _preprocess_mlm (self : t) : M F G unit :=
  log (Enter "_preprocess_mlm");;
  c ← contains "lm_label_ids";
  assert_ c "";;
  c ← contains "input_ids_masked";
  assert_ c "";;
  h ← module_get (heads self) "mlm";
  ignore_index ← attr (ignore_index (config h));
  text ← getitem "lm_label_ids";
  image_feat ← get_tensor "image_feat";
  text_labels ← tensor_of AttributeError text;
  image ← lift (full_long (take 2 (shape image_feat)) ignore_index);
  l_image ← alloc image;
  combined ← lift (cat text_labels image (-1));
  l_combined ← alloc combined;
  setitem "mlm_labels"
    (FDict (<["text" := text]>
           (<["image" := FTensor l_image]>
           {[ "combined_labels" := FTensor l_combined ]})));;
  v ← getitem "input_ids_masked";
  setitem "input_ids" v.

Definition _preprocess_itm (self : t) : M F G unit :=
  log (Enter "_preprocess_itm");;
  c ← contains "is_correct";
  assert_ c "";;
  v ← getitem "is_correct";
  setitem "itm_labels" (FDict {[ "is_correct" := v ]}).

(** The combined mask of [_preprocess_mrc] and [_preprocess_mrfr]: false over
    the text, the image mask over the regions. *)
Definition concat_mask_of (image_mask : tensor F) : M F G (tensor F) :=
  bs ← lift (size image_mask 0);
  input_ids ← get_tensor "input_ids";
  sentence_len ← lift (size input_ids 1);
  let padding_for_txt := to_like (zeros [bs; sentence_len]) image_mask in
  lift (cat padding_for_txt image_mask (-1)).

Definition _preprocess_mrc (self : t) : M F G unit :=
  log (Enter "_preprocess_mrc");;
  c ← contains "cls_prob";
  assert_ c "";;
  c ← contains "image_mask";
  assert_ c "";;
  c ← contains "image_feat_masked";
  assert_ c "";;
  h ← module_get (heads self) "mrc";
  mrc_label_key ← attr (mrc_label_key (config h));
  h ← module_get (heads self) "mrc";
  mrc_mask_key ← attr (mrc_mask_key (config h));
  image_mask ← getitem "image_mask";
  cls_prob ← get_tensor "cls_prob";
  image_mask ← tensor_of AttributeError image_mask;
  u ← lift (unsqueeze image_mask (-1));
  img_masks_ext ← lift (expand_as u cls_prob);
  cls_dim ← lift (size cls_prob 2);
  cls_prob ← lift (index_mask cls_prob img_masks_ext);
  cls_prob ← lift (view_rows cls_prob cls_dim);
  set_tensor mrc_label_key cls_prob;;
  concat_mask ← concat_mask_of image_mask;
  set_tensor mrc_mask_key concat_mask;;
  v ← getitem "image_feat_masked";
  setitem "image_feat" v.

Definition _preprocess_mrfr (self : t) : M F G unit :=
  log (Enter "_preprocess_mrfr");;
  c ← contains "image_mask";
  assert_ c "";;
  c ← contains "image_feat_masked";
  assert_ c "";;
  h ← module_get (heads self) "mrfr";
  mrfr_target_key ← attr (mrfr_target_key (config h));
  h ← module_get (heads self) "mrfr";
  mrfr_mask_key ← attr (mrfr_mask_key (config h));
  image_mask ← get_tensor "image_mask";
  image_feat ← get_tensor "image_feat";
  u ← lift (unsqueeze image_mask (-1));
  img_masks_ext ← lift (expand_as u image_feat);
  feat_dim ← lift (size image_feat 2);
  feat_targets ← lift (index_mask image_feat img_masks_ext);
  feat_targets ← lift (view_rows feat_targets feat_dim);
  set_tensor mrfr_target_key feat_targets;;
  concat_mask ← concat_mask_of image_mask;
  set_tensor mrfr_mask_key concat_mask;;
  v ← getitem "image_feat_masked";
  setitem "image_feat" v.

(** [[i.size(0) for i in x]]: one length per row of [x]. *)
Definition row_sizes (x : tensor F) : result (list nat) :=
  match shape x with
  | [] => Raise TypeError
  | 0 :: _ => Ok []
  | _ :: [] => Raise IndexError
  | n :: d :: _ => Ok (replicate n d)
  end.

(** [pad.data[i, l:].fill_(1)] on the two-dimensional [pad] being built. *)
Definition fill_row_from (pad : tensor F) (i l : nat) : tensor F :=
  match shape pad, data pad with
  | [n; m], DFloat xs =>
      Tensor [n; m]
        (DFloat (take (i * m + l `min` m) xs ++ replicate (m - l) (of_Z 1)
                 ++ drop (S i * m) xs))
  | _, _ => pad
  end.

Definition _compute_pad (lens : list nat) : M F G (tensor F) :=
  match lens with
  | [] => raise (ValueError "max() arg is an empty sequence")
  | _ =>
      let max_len := max_list lens in
      let pad := zeros [length lens; max_len] in
      mret (foldl (λ pad il, fill_row_from pad il.1 il.2) pad (imap pair lens))
  end.

Definition _preprocess_wra (self : t) : M F G unit :=
  log (Enter "_preprocess_wra");;
  c ← contains "is_correct";
  assert_ c "";;
  h ← module_get (heads self) "wra";
  ot_inputs_key ← attr (ot_inputs_key (config h));
  h ← module_get (heads self) "wra";
  wra_label_key ← attr (wra_label_key (config h));
  input_ids ← get_tensor "input_ids";
  txt_lens ← lift (row_sizes input_ids);
  image_feat ← get_tensor "image_feat";
  num_bbs ← lift (row_sizes image_feat);
  txt_pad ← _compute_pad txt_lens;
  let txt_pad := to_bool txt_pad in
  img_pad ← _compute_pad num_bbs;
  let img_pad := to_bool img_pad in
  l_txt ← alloc txt_pad;
  l_img ← alloc img_pad;
  setitem ot_inputs_key
    (FDict (<["txt_pad" := FTensor l_txt]> {[ "img_pad" := FTensor l_img ]}));;
  v ← getitem "is_correct";
  setitem wra_label_key v.

Definition forward (self : t) : M F G (output F) :=
  c ← contains "is_correct";
  assert_ c is_correct_msg;;
  _process_sample_list_for_pretraining self;;
  task ← getitem "task";
  (if field_is task "mlm" then _preprocess_mlm self
   else if field_is task "itm" then _preprocess_itm self
   else if field_is task "mrc" then _preprocess_mrc self
   else if field_is task "mrfr" then _preprocess_mrfr self
   else if field_is task "wra" then _preprocess_wra self
   else raise (ValueError ("Task " +:+ show_field task +:+ " is not supported for pretraining!")));;
  input_ids ← getitem "input_ids";
  position_ids ← getitem "position_ids";
  image_feat ← getitem "image_feat";
  img_pos_feat ← getitem "img_pos_feat";
  attention_mask ← getitem "attention_mask";
  image_mask ← getitem "image_mask";
  input_ids ← arg_of input_ids;
  position_ids ← arg_of position_ids;
  image_feat ← arg_of image_feat;
  img_pos_feat ← arg_of img_pos_feat;
  attention_mask ← arg_of attention_mask;
  image_mask ← arg_of image_mask;
  sequence_output ← UniterModelBase.forward (uniter self)
    input_ids position_ids image_feat img_pos_feat attention_mask None image_mask
    false None None;
  dataset_name ← getitem "dataset_name";
  h ← module_getitem (heads self) task;
  sample_list ← snapshot;
  log (CallHead task sequence_output);;
  outputs ← call "head" (run h sequence_output sample_list.1 sample_list.2);
  _process_head_outputs dataset_name (losses self) outputs.

End defs.
Arguments t F : clear implicits.
End UniterForPretraining.

(** * A small concrete instance

    Rational numbers stand for floating-point entries, a counter for the
    random generator, and identity layers for the collaborators. *)

Module Demo.

#[local] Instance Q_float : FloatOps Q := {
  of_Z := inject_Z;
  trunc := λ q, Z.quot (Qnum q) (Z.pos (Qden q));
  fadd := Qplus;
  fsub := Qminus;
  fmul := Qmult;
  flt := λ x y, negb (Qle_bool y x);
  fnonzero := λ x, negb (Qeq_bool x 0)
}.

(** The generator is a counter [g]: [random()] gives [(g mod 4) / 4], and
    [choice(range(n))] gives [g mod n]. *)
#[local] Instance counter_random : PyRandom Q nat := {
  random := λ g, (Qmake (Z.of_nat (g `mod` 4)) 4, S g);
  randbelow := λ n g, (g `mod` n, S g)
}.

Definition layers : UniterImageEmbeddings.t Q :=
  {| UniterImageEmbeddings.img_linear := Ok;
     UniterImageEmbeddings.img_layer_norm := Ok;
     UniterImageEmbeddings.pos_layer_norm := Ok;
     UniterImageEmbeddings.pos_linear := Ok;
     UniterImageEmbeddings.final_layer_norm := Ok;
     UniterImageEmbeddings.dropout := Ok |}.

(** Text and type embeddings of hidden size 2: an id [i] becomes [(i, 0)]. *)
Definition embed_ids (ids : tensor Q) : result (tensor Q) :=
  match data ids with
  | DLong xs =>
      Ok (Tensor (shape ids ++ [2]) (DFloat (concat (map (λ i, [inject_Z i; 0%Q]) xs))))
  | _ => Raise RuntimeError
  end.

Definition base : UniterModelBase.t Q :=
  {| UniterModelBase.embeddings := λ ids _ _, embed_ids ids;
     UniterModelBase.token_type_embeddings := embed_ids;
     UniterModelBase.img_embeddings := layers;
     UniterModelBase.encoder := λ emb _ _, Ok [emb] |}.

Definition head_cfg : head_config :=
  {| ignore_index := Some (-1)%Z;
     mrc_label_key := Some "region_class";
     mrc_mask_key := Some "image_region_mask";
     mrfr_target_key := Some "mrfr_region_target";
     mrfr_mask_key := Some "mrfr_region_mask";
     ot_inputs_key := Some "wra_info";
     wra_label_key := Some "is_correct" |}.

(** A head that returns the encoder's output as scores. *)
Definition scores_head : head Q :=
  {| config := head_cfg;
     run := λ seq _ _, match seq with
                       | Last x => Ok (OutTensor x)
                       | Layers _ => Raise TypeError
                       end |}.

Definition zero_loss : loss Q :=
  λ _ _ _, Ok {[ "test/test/loss" := Tensor [] (DFloat [0%Q]) ]}.

Definition model (p : option Q) : UniterForPretraining.t Q :=
  {| UniterForPretraining.uniter := base;
     UniterForPretraining.heads :=
       list_to_map [("mlm", scores_head); ("itm", scores_head); ("mrc", scores_head);
                    ("mrfr", scores_head); ("wra", scores_head)];
     UniterForPretraining.losses := {[ "test" := zero_loss ]};
     UniterForPretraining.mask_probability := p |}.

(** A batch of two examples, two tokens and two regions of dimension 2; the
    second caption is a mismatched one. *)
Definition tensors : list (tensor Q) :=
  [ Tensor [2; 2] (DLong [1; 2; 3; 4]%Z);                         (* 0 input_ids *)
    Tensor [1; 2] (DLong [0; 1]%Z);                               (* 1 position_ids *)
    Tensor [2; 2; 2] (DFloat [1; 2; 3; 4; 5; 6; 7; 8]%Q);         (* 2 image_feat *)
    Tensor [2; 2; 2] (DFloat [0; 0; 0; 0; 0; 0; 0; 0]%Q);         (* 3 img_pos_feat *)
    Tensor [2; 4] (DLong [1; 1; 1; 0; 1; 1; 1; 1]%Z);             (* 4 attention_mask *)
    Tensor [2; 2] (DLong [0; 0; 0; 0]%Z);                         (* 5 image_mask *)
    Tensor [2] (DLong [1; 0]%Z);                                  (* 6 is_correct *)
    Tensor [2; 2] (DLong [0; 2; 0; 4]%Z);                         (* 7 lm_label_ids *)
    Tensor [2; 2] (DLong [9; 2; 9; 4]%Z);                         (* 8 input_ids_masked *)
    Tensor [2; 2; 1] (DFloat [1; 1; 1; 1]%Q) ].                   (* 9 cls_prob *)

Definition fields (task : string) : gmap string field :=
  list_to_map
    [ ("input_ids", FTensor 0); ("position_ids", FTensor 1); ("image_feat", FTensor 2);
      ("img_pos_feat", FTensor 3); ("attention_mask", FTensor 4); ("image_mask", FTensor 5);
      ("is_correct", FTensor 6); ("lm_label_ids", FTensor 7);
      ("input_ids_masked", FTensor 8);
      ("image_info_0", FDict {[ "cls_prob" := FTensor 9 ]});
      ("task", FStr task); ("dataset_name", FStr "test") ].

Definition weight : tensor Q := Tensor [2; 2] (DFloat [5; 5; 10; 20]%Q).

Definition start (task : string) : state Q nat :=
  State (fields task) tensors 0 weight [].

End Demo.

(** * Reasoning about the monad *)

Section reasoning.
Context {F : Type} {FO : FloatOps F} {G : Type} {RG : PyRandom F G}.
Implicit Types st : state F G.

Lemma bind_ok {A B} (m : M F G A) (k : A → M F G B) st a st' :
  m st = (Ok a, st') → (m ≫= k) st = k a st'.
Proof. intros H. unfold mbind, M_bind, bind. by rewrite H. Qed.

Lemma bind_raise {A B} (m : M F G A) (k : A → M F G B) st e st' :
  m st = (Raise e, st') → (m ≫= k) st = (Raise e, st').
Proof. intros H. unfold mbind, M_bind, bind. by rewrite H. Qed.

(** [sat I E m]: every run of [m] relates the state it starts in to the state
    it ends in by [I], and raises only exceptions in [E]. *)
Definition sat {A} (I : relation (state F G)) (E : exn → Prop) (m : M F G A) : Prop :=
  ∀ st, I st (m st).2 ∧ ∀ e, (m st).1 = Raise e → E e.

Section closure.
Context (I : relation (state F G)) `{!PreOrder I} (E : exn → Prop).

Lemma sat_ret {A} (a : A) : sat I E (mret a).
Proof. intros st. split; [reflexivity | done]. Qed.

Lemma sat_raise {A} e : E e → sat I E (raise (A:=A) e).
Proof. intros He st. split; [reflexivity |]. simpl. by intros ? [= <-]. Qed.

Lemma sat_lift {A} (r : result A) : (∀ e, r = Raise e → E e) → sat I E (lift r).
Proof. intros He st. split; [reflexivity | exact (He)]. Qed.

Lemma sat_call {A} origin (r : result A) :
  (∀ e, E (Propagated origin e)) → sat I E (call origin r).
Proof.
  intros He st. split; [reflexivity |]. simpl. destruct r; [done |]. by intros ? [= <-].
Qed.

Lemma sat_bind {A B} (m : M F G A) (k : A → M F G B) :
  sat I E m → (∀ a, sat I E (k a)) → sat I E (m ≫= k).
Proof.
  intros Hm Hk st. unfold mbind, M_bind, bind.
  destruct (Hm st) as [HI HE]. destruct (m st) as [[a | e] st']; simpl in *.
  - destruct (Hk a st') as [HI' HE']. split; [by etrans | done].
  - split; [done |]. intros e' [= <-]. by apply HE.
Qed.

Lemma sat_assert c msg : E (AssertionError msg) → sat I E (assert_ c msg).
Proof. intros. destruct c; [apply sat_ret | by apply sat_raise]. Qed.

Lemma sat_attr {A} (o : option A) : E AttributeError → sat I E (attr o).
Proof. intros. destruct o; [apply sat_ret | by apply sat_raise]. Qed.

Lemma sat_require {A} (o : option A) : E TypeError → sat I E (require o).
Proof. intros. destruct o; [apply sat_ret | by apply sat_raise]. Qed.

Lemma sat_contains k : sat I E (contains k).
Proof. intros st. split; [reflexivity | done]. Qed.

Lemma sat_get k : sat I E (get k).
Proof. intros st. split; [reflexivity | done]. Qed.

Lemma sat_snapshot : sat I E snapshot.
Proof. intros st. split; [reflexivity | done]. Qed.

Lemma sat_get_weight : sat I E get_weight.
Proof. intros st. split; [reflexivity | done]. Qed.

Lemma sat_getitem k : E (KeyError k) → sat I E (getitem k).
Proof.
  intros He st. unfold getitem. destruct (batch st !! k); simpl.
  - split; [reflexivity | done].
  - split; [reflexivity |]. by intros ? [= <-].
Qed.

Lemma sat_deref l : E (DanglingRef l) → sat I E (deref l).
Proof.
  intros He st. unfold deref. destruct (store st !! l); simpl.
  - split; [reflexivity | done].
  - split; [reflexivity |]. by intros ? [= <-].
Qed.

Lemma sat_tensor_of e v :
  E e → (∀ l, E (DanglingRef l)) → sat I E (tensor_of e v).
Proof. intros. destruct v; simpl; try by apply sat_raise. by apply sat_deref. Qed.

Lemma sat_arg_of v : E TypeError → (∀ l, E (DanglingRef l)) → sat I E (arg_of v).
Proof.
  intros. destruct v; simpl; try by apply sat_raise.
  - apply sat_ret.
  - apply (sat_bind (deref l)); [by apply sat_deref | intros; apply sat_ret].
Qed.

Lemma sat_get_tensor k :
  E (KeyError k) → E AttributeError → (∀ l, E (DanglingRef l)) → sat I E (get_tensor k).
Proof.
  intros. apply (sat_bind (getitem k)); [by apply sat_getitem |].
  intros. by apply sat_tensor_of.
Qed.

Lemma sat_module_get {A} (d : gmap string A) k : E (KeyError k) → sat I E (module_get d k).
Proof. intros. unfold module_get. destruct (d !! k); [apply sat_ret | by apply sat_raise]. Qed.

Lemma sat_module_getitem {A} (d : gmap string A) key :
  (∀ k, E (KeyError k)) → E TypeError → sat I E (module_getitem d key).
Proof.
  intros. destruct key; simpl; try by apply sat_raise. by apply sat_module_get.
Qed.

Lemma sat_setitem k v :
  (∀ st, I st (set_batch (<[k:=v]>) st)) → sat I E (setitem k v).
Proof. intros H st. split; [apply H | done]. Qed.

Lemma sat_alloc x :
  (∀ st, I st (set_store (λ s, s ++ [x]) st)) → sat I E (alloc x).
Proof. intros H st. split; [apply H | done]. Qed.

Lemma sat_set_tensor k x :
  (∀ st, I st (set_store (λ s, s ++ [x]) st)) →
  (∀ st v, I st (set_batch (<[k:=v]>) st)) →
  sat I E (set_tensor k x).
Proof.
  intros. apply (sat_bind (alloc x)); [by apply sat_alloc |].
  intros. by apply sat_setitem.
Qed.

Lemma sat_put_weight w : (∀ st, I st (set_weight w st)) → sat I E (put_weight w).
Proof. intros H st. split; [apply H | done]. Qed.

Lemma sat_log ev : (∀ st, I st (add_call ev st)) → sat I E (log ev).
Proof. intros H st. split; [apply H | done]. Qed.

Lemma sat_py_random : (∀ st g, I st (set_rng g st)) → sat I E py_random.
Proof.
  intros H st. unfold py_random. destruct (random (rng st)) as [x g]. split; [apply H | done].
Qed.

Lemma sat_py_choice_range n :
  E IndexError → (∀ st g, I st (set_rng g st)) → sat I E (py_choice_range n).
Proof.
  intros He H. destruct n; simpl; [by apply sat_raise |].
  intros st. destruct (randbelow (S n) (rng st)) as [i g]. split; [apply H | done].
Qed.

Lemma sat_for {A} (l : list A) (body : A → M F G unit) :
  (∀ x, sat I E (body x)) → sat I E (for_ l body).
Proof.
  intros H. induction l as [| x l IH]; simpl; [apply sat_ret |].
  apply (sat_bind (body x)); [apply H | intros; apply IH].
Qed.

Lemma sat_repeatM {A} n (m : M F G A) : sat I E m → sat I E (repeatM n m).
Proof.
  intros H. induction n as [| n IH]; simpl; [apply sat_ret |].
  apply (sat_bind m); [done |]. intros.
  apply (sat_bind (repeatM n m)); [done |]. intros. apply sat_ret.
Qed.

End closure.

(** What [sat] says about one run. *)
Lemma sat_state {A} I E (m : M F G A) st : sat I E m → I st (m st).2.
Proof. intros H. apply H. Qed.

Lemma sat_exn {A} I E (m : M F G A) st e : sat I E m → (m st).1 = Raise e → E e.
Proof. intros H. apply H. Qed.

End reasoning.

(** * What the tensor operations raise *)

Section tensor_errors.
Context {F : Type} {FO : FloatOps F}.

(** The exceptions of the tensor library, as opposed to the assertions and
    lookups of the model code. *)
Definition tensor_error (e : exn) : Prop :=
  match e with
  | IndexError | RuntimeError | TypeError | ValueError _ => True
  | _ => False
  end.

Definition raises_only {A} (E : exn → Prop) (r : result A) : Prop :=
  ∀ e, r = Raise e → E e.

Lemma raises_only_rbind {A B} E (r : result A) (k : A → result B) :
  raises_only E r → (∀ a, raises_only E (k a)) → raises_only E (rbind r k).
Proof.
  intros Hr Hk e. destruct r as [a | e']; simpl; [apply Hk |].
  intros [= <-]. by apply Hr.
Qed.

Ltac raises :=
  intros; unfold raises_only;
  repeat first
    [ apply raises_only_rbind; [| intros ?]
    | progress (intros; simplify_eq/=)
    | done
    | case_match ].

Lemma size_raises (x : tensor F) k : raises_only tensor_error (size x k).
Proof. unfold size. raises. Qed.

Lemma unsqueeze_raises (x : tensor F) k : raises_only tensor_error (unsqueeze x k).
Proof. unfold unsqueeze. raises. Qed.

Lemma expand_raises (x : tensor F) s : raises_only tensor_error (expand x s).
Proof. unfold expand. raises. Qed.

Lemma expand_as_raises (x y : tensor F) : raises_only tensor_error (expand_as x y).
Proof. apply expand_raises. Qed.

Lemma view_rows_raises (x : tensor F) d : raises_only tensor_error (view_rows x d).
Proof. unfold view_rows. raises. Qed.

Lemma cat_raises (a b : tensor F) k : raises_only tensor_error (cat a b k).
Proof. unfold cat. raises. Qed.

Lemma mask_bits_raises (m : tensor F) : raises_only tensor_error (mask_bits m).
Proof. unfold mask_bits. raises. Qed.

Lemma index_mask_raises (x m : tensor F) : raises_only tensor_error (index_mask x m).
Proof. unfold index_mask. apply raises_only_rbind; [apply mask_bits_raises |]. raises. Qed.

Lemma index_mask_slice_raises (x m : tensor F) :
  raises_only tensor_error (index_mask_slice x m).
Proof. unfold index_mask_slice. case_match; [apply index_mask_raises | raises]. Qed.

Lemma where_raises c (x y : tensor F) : raises_only tensor_error (where_ c x y).
Proof. unfold where_. case_match; [apply expand_raises | raises]. Qed.

Lemma masked_fill0_raises (x m : tensor F) : raises_only tensor_error (masked_fill0 x m).
Proof.
  unfold masked_fill0.
  apply raises_only_rbind; [apply mask_bits_raises | intros ?].
  apply raises_only_rbind; [apply expand_raises | intros ?].
  apply raises_only_rbind; [apply mask_bits_raises | intros ?]. raises.
Qed.

Lemma select_dim2_0_raises (x : tensor F) : raises_only tensor_error (select_dim2_0 x).
Proof. unfold select_dim2_0. raises. Qed.

Lemma embedding_rows_raises (table : list (list F)) idx :
  raises_only tensor_error (embedding_rows table idx).
Proof.
  induction idx as [| i idx IH]; simpl; [raises |].
  apply raises_only_rbind; [done | raises].
Qed.

Lemma embedding_raises (w idx : tensor F) : raises_only tensor_error (embedding w idx).
Proof.
  unfold embedding. repeat case_match; try (raises; fail).
  apply raises_only_rbind; [apply embedding_rows_raises | raises].
Qed.

Lemma fill_row0_raises (w : tensor F) : raises_only tensor_error (fill_row0 w).
Proof. unfold fill_row0. raises. Qed.

Lemma add_float_raises (a b : tensor F) : raises_only tensor_error (add_float a b).
Proof.
  unfold add_float. case_match; [| raises].
  apply raises_only_rbind; [apply expand_raises | intros ?].
  apply raises_only_rbind; [apply expand_raises | raises].
Qed.

Lemma full_long_raises s v : raises_only tensor_error (full_long (F:=F) s v).
Proof. unfold full_long. raises. Qed.

Lemma tensor_of_bool_rows_raises rows :
  raises_only tensor_error (tensor_of_bool_rows (F:=F) rows).
Proof. unfold tensor_of_bool_rows. raises. Qed.

Lemma row_sizes_raises (x : tensor F) :
  raises_only tensor_error (UniterForPretraining.row_sizes x).
Proof. unfold UniterForPretraining.row_sizes. raises. Qed.

End tensor_errors.

Create HintDb raises.

#[global] Hint Resolve size_raises unsqueeze_raises expand_raises expand_as_raises
  view_rows_raises cat_raises mask_bits_raises index_mask_raises index_mask_slice_raises
  where_raises masked_fill0_raises select_dim2_0_raises embedding_raises fill_row0_raises
  add_float_raises full_long_raises tensor_of_bool_rows_raises row_sizes_raises : raises.

(** * Stepping through the model code *)

Section lift_tensor.
Context {F : Type} {FO : FloatOps F} {G : Type} {RG : PyRandom F G}.

Lemma sat_lift_tensor {A} (I : relation (state F G)) `{!PreOrder I} (E : exn → Prop)
    (r : result A) :
  (∀ e, tensor_error e → E e) → raises_only tensor_error r → sat I E (lift r).
Proof. intros HE Hr. apply sat_lift; [done |]. intros e He. apply HE. by apply Hr. Qed.

End lift_tensor.

(** One step of a proof of [sat I E m]: by the shape of [m]. Side conditions
    on [I] and [E] are left to the caller. *)
Ltac sat_unfold :=
  lazymatch goal with
  | |- sat _ _ (UniterImageEmbeddings.forward _ _ _ _ _) =>
      unfold UniterImageEmbeddings.forward
  | |- sat _ _ (UniterModelBase._compute_txt_embeddings _ _ _ _) =>
      unfold UniterModelBase._compute_txt_embeddings
  | |- sat _ _ (UniterModelBase._compute_img_embeddings _ _ _ _ _) =>
      unfold UniterModelBase._compute_img_embeddings
  | |- sat _ _ (UniterModelBase._compute_img_txt_embeddings _ _ _ _ _ _ _ _ _) =>
      unfold UniterModelBase._compute_img_txt_embeddings
  | |- sat _ _ (UniterModelBase.forward _ _ _ _ _ _ _ _ _ _ _) =>
      unfold UniterModelBase.forward
  | |- sat _ _ (_process_head_outputs _ _ _) => unfold _process_head_outputs
  | |- sat _ _ (UniterForPretraining._remove_mismatched_captions _) =>
      unfold UniterForPretraining._remove_mismatched_captions
  | |- sat _ _ (UniterForPretraining._get_img_mask _ _ _) =>
      unfold UniterForPretraining._get_img_mask
  | |- sat _ _ (UniterForPretraining._add_image_feat_masked _) =>
      unfold UniterForPretraining._add_image_feat_masked
  | |- sat _ _ (UniterForPretraining.torch_tensor _) =>
      unfold UniterForPretraining.torch_tensor
  | |- sat _ _ (UniterForPretraining._process_sample_list_for_pretraining _) =>
      unfold UniterForPretraining._process_sample_list_for_pretraining
  | |- sat _ _ (UniterForPretraining._preprocess_mlm _) =>
      unfold UniterForPretraining._preprocess_mlm
  | |- sat _ _ (UniterForPretraining._preprocess_itm _) =>
      unfold UniterForPretraining._preprocess_itm
  | |- sat _ _ (UniterForPretraining.concat_mask_of _) =>
      unfold UniterForPretraining.concat_mask_of
  | |- sat _ _ (UniterForPretraining._preprocess_mrc _) =>
      unfold UniterForPretraining._preprocess_mrc
  | |- sat _ _ (UniterForPretraining._preprocess_mrfr _) =>
      unfold UniterForPretraining._preprocess_mrfr
  | |- sat _ _ (UniterForPretraining._compute_pad _) =>
      unfold UniterForPretraining._compute_pad
  | |- sat _ _ (UniterForPretraining._preprocess_wra _) =>
      unfold UniterForPretraining._preprocess_wra
  end.

Ltac sat_step :=
  lazymatch goal with
  | |- sat _ _ (_ ≫= _) => apply sat_bind; try tc_solve; [| intros ?]
  | |- sat _ _ (mret _) => apply sat_ret; try tc_solve
  | |- sat _ _ (ret _) => apply sat_ret; try tc_solve
  | |- sat _ _ (raise _) => apply sat_raise; try tc_solve
  | |- sat _ _ (lift _) => apply sat_lift_tensor; try tc_solve; [| auto with raises]
  | |- sat _ _ (call _ _) => apply sat_call; try tc_solve
  | |- sat _ _ (assert_ _ _) => apply sat_assert; try tc_solve
  | |- sat _ _ (attr _) => apply sat_attr; try tc_solve
  | |- sat _ _ (require _) => apply sat_require; try tc_solve
  | |- sat _ _ (contains _) => apply sat_contains; try tc_solve
  | |- sat _ _ (get _) => apply sat_get; try tc_solve
  | |- sat _ _ snapshot => apply sat_snapshot; try tc_solve
  | |- sat _ _ get_weight => apply sat_get_weight; try tc_solve
  | |- sat _ _ (getitem _) => apply sat_getitem; try tc_solve
  | |- sat _ _ (deref _) => apply sat_deref; try tc_solve
  | |- sat _ _ (tensor_of _ _) => apply sat_tensor_of; try tc_solve
  | |- sat _ _ (arg_of _) => apply sat_arg_of; try tc_solve
  | |- sat _ _ (get_tensor _) => apply sat_get_tensor; try tc_solve
  | |- sat _ _ (module_get _ _) => apply sat_module_get; try tc_solve
  | |- sat _ _ (module_getitem _ _) => apply sat_module_getitem; try tc_solve
  | |- sat _ _ (setitem _ _) => apply sat_setitem; try tc_solve
  | |- sat _ _ (alloc _) => apply sat_alloc; try tc_solve
  | |- sat _ _ (set_tensor _ _) => apply sat_set_tensor; try tc_solve
  | |- sat _ _ (put_weight _) => apply sat_put_weight; try tc_solve
  | |- sat _ _ (log _) => apply sat_log; try tc_solve
  | |- sat _ _ py_random => apply sat_py_random; try tc_solve
  | |- sat _ _ (py_choice_range _) => apply sat_py_choice_range; try tc_solve
  | |- sat _ _ (for_ _ _) => apply sat_for; try tc_solve; intros ?
  | |- sat _ _ (repeatM _ _) => apply sat_repeatM; try tc_solve
  | |- sat _ _ (match ?x with _ => _ end) => destruct x
  | |- sat _ _ _ => first [ sat_unfold | progress cbv zeta ]
  end.

Ltac sat_auto tac := repeat (sat_step; try (tac; fail)).

(** * C5: the [is_correct] precondition *)

Section c5.
Context {F : Type} {FO : FloatOps F} {G : Type} {RG : PyRandom F G}.

(** Every exception but the assertion on [is_correct]. *)
Definition other_error (e : exn) : Prop :=
  e ≠ AssertionError UniterForPretraining.is_correct_msg.

Lemma is_correct_msg_head :
  ∃ s, UniterForPretraining.is_correct_msg = String (Ascii.ascii_of_nat 85) s.
Proof. eexists. reflexivity. Qed.

Lemma other_error_assert_empty : other_error (AssertionError "").
Proof. unfold other_error. destruct is_correct_msg_head as [s ->]. by intros [= ?]. Qed.

Lemma other_error_shape_msg name s n :
  other_error (AssertionError (UniterForPretraining.shape_msg name s n)).
Proof. unfold other_error. destruct is_correct_msg_head as [s' ->]. by intros [= ?]. Qed.

Lemma other_error_tensor e : tensor_error e → other_error e.
Proof. by destruct e. Qed.

Definition any_states : relation (state F G) := λ _ _, True.

#[global] Instance any_states_preorder : PreOrder any_states.
Proof. by split. Qed.

Ltac other_error_side :=
  first [ apply other_error_assert_empty | apply other_error_shape_msg
        | by apply other_error_tensor | done | by (intros; unfold other_error) ].

(** C5. The pretraining forward raises the assertion on [is_correct], with
    the batch and everything else untouched, exactly when the batch has no
    [is_correct] field: with the field present, no run ends in that
    assertion. *)
Theorem forward_is_correct_assertion (self : UniterForPretraining.t F) (st : state F G) :
  (batch st !! "is_correct" = None →
     UniterForPretraining.forward self st
     = (Raise (AssertionError UniterForPretraining.is_correct_msg), st))
  ∧ (is_Some (batch st !! "is_correct") →
     (UniterForPretraining.forward self st).1
     ≠ Raise (AssertionError UniterForPretraining.is_correct_msg)).
Proof.
  split.
  - intros Hnone. unfold UniterForPretraining.forward.
    erewrite bind_ok; last first.
    { unfold contains. rewrite Hnone. rewrite bool_decide_false; [done |].
      by intros [? ?]. }
    done.
  - intros Hsome. unfold UniterForPretraining.forward.
    erewrite bind_ok; last first.
    { unfold contains. by rewrite bool_decide_true. }
    cbn [assert_]. erewrite bind_ok; last done.
    intros H. eapply (sat_exn any_states other_error) in H; [done |].
    sat_auto other_error_side.
Qed.

End c5.

(** * C6: dispatch on the task *)

Section c6.
Context {F : Type} {FO : FloatOps F} {G : Type} {RG : PyRandom F G}.
Implicit Types st : state F G.

(** The routines entered, in order, according to the record of calls. *)
Definition routines (l : list (event F)) : list string :=
  omap (λ e, match e with Enter r => Some r | _ => None end) l.

(** The task-specific routine of a task, as [forward] selects it. *)
Definition task_routine (task : field) : option string :=
  if field_is task "mlm" then Some "_preprocess_mlm"
  else if field_is task "itm" then Some "_preprocess_itm"
  else if field_is task "mrc" then Some "_preprocess_mrc"
  else if field_is task "mrfr" then Some "_preprocess_mrfr"
  else if field_is task "wra" then Some "_preprocess_wra"
  else None.

Definition any_error (e : exn) : Prop := True.

Definition same_calls_task : relation (state F G) :=
  λ st st', calls st' = calls st ∧ batch st' !! "task" = batch st !! "task".

Definition same_calls : relation (state F G) := λ st st', calls st' = calls st.

Definition same_routines : relation (state F G) :=
  λ st st', routines (calls st') = routines (calls st).

#[global] Instance same_calls_task_preorder : PreOrder same_calls_task.
Proof.
  split; [by intros ? |]. intros ? ? ? [? ?] [? ?]. split; congruence.
Qed.

#[global] Instance same_calls_preorder : PreOrder same_calls.
Proof. split; [by intros ? |]. intros ? ? ?. unfold same_calls. congruence. Qed.

#[global] Instance same_routines_preorder : PreOrder same_routines.
Proof. split; [by intros ? |]. intros ? ? ?. unfold same_routines. congruence. Qed.

Lemma routines_snoc l e :
  routines (l ++ [e]) = routines l ++ match e with Enter r => [r] | _ => [] end.
Proof. unfold routines. rewrite omap_app. by destruct e. Qed.

Ltac frame_side :=
  first
    [ done
    | by (intros; unfold same_calls_task, same_calls, same_routines, any_error; simpl;
          rewrite ?lookup_insert_ne by done; rewrite ?routines_snoc, ?app_nil_r) ].

(** Common preprocessing records its own entry and nothing else, and leaves
    the [task] field as it is. *)
Lemma common_calls_task (self : UniterForPretraining.t F) st :
  let st1 := (UniterForPretraining._process_sample_list_for_pretraining self st).2 in
  calls st1 = calls st ++ [Enter "_process_sample_list_for_pretraining"]
  ∧ batch st1 !! "task" = batch st !! "task".
Proof.
  unfold UniterForPretraining._process_sample_list_for_pretraining.
  erewrite bind_ok; last done.
  match goal with |- context [ ?m (add_call ?e ?s) ] =>
    assert (sat same_calls_task any_error m) as Hsat
  end.
  { sat_auto frame_side. }
  apply (sat_state _ _ _ (add_call (Enter "_process_sample_list_for_pretraining") st)) in Hsat.
  destruct Hsat as [Hc Ht]. simpl. split; [by rewrite Hc | by rewrite Ht].
Qed.

(** Each task-specific routine records its own entry and no other call. *)
Lemma preprocess_calls (self : UniterForPretraining.t F) st :
  calls (UniterForPretraining._preprocess_mlm self st).2
    = calls st ++ [Enter "_preprocess_mlm"]
  ∧ calls (UniterForPretraining._preprocess_itm self st).2
    = calls st ++ [Enter "_preprocess_itm"]
  ∧ calls (UniterForPretraining._preprocess_mrc self st).2
    = calls st ++ [Enter "_preprocess_mrc"]
  ∧ calls (UniterForPretraining._preprocess_mrfr self st).2
    = calls st ++ [Enter "_preprocess_mrfr"]
  ∧ calls (UniterForPretraining._preprocess_wra self st).2
    = calls st ++ [Enter "_preprocess_wra"].
Proof.
  repeat split.
  all: unfold UniterForPretraining._preprocess_mlm, UniterForPretraining._preprocess_itm,
         UniterForPretraining._preprocess_mrc, UniterForPretraining._preprocess_mrfr,
         UniterForPretraining._preprocess_wra.
  all: erewrite bind_ok; last done.
  all: match goal with |- context [ ?m (add_call ?e ?s) ] =>
         assert (sat same_calls any_error m) as Hsat by sat_auto frame_side;
         apply (sat_state _ _ _ (add_call e s)) in Hsat
       end.
  all: by rewrite Hsat.
Qed.

Lemma bind_routines {A B} (m : M F G A) (k : A → M F G B) st r :
  calls (m st).2 = calls st ++ [Enter r] →
  (∀ a, sat same_routines any_error (k a)) →
  routines (calls ((m ≫= k) st).2) = routines (calls st) ++ [r].
Proof.
  intros Hm Hk. unfold mbind, M_bind, bind.
  destruct (m st) as [[a | e] st'] eqn:Hr; simpl in *.
  - rewrite (sat_state _ _ _ st' (Hk a)). by rewrite Hm, routines_snoc.
  - by rewrite Hm, routines_snoc.
Qed.

(** C6. Let the batch carry [is_correct] and a [task] field. If common
    preprocessing raises, [forward] raises the same exception there. If it
    returns and the task is none of mlm, itm, mrc, mrfr, wra, [forward] raises
    the unsupported-task [ValueError] in the state common preprocessing left:
    the record of calls holds the entry of common preprocessing and nothing
    after it, so no encoder pass and no task routine. If it returns and the
    task is one of the five, the routines entered during [forward] are common
    preprocessing and then the routine of that task, and no other. *)
Theorem forward_dispatch (self : UniterForPretraining.t F) st task :
  is_Some (batch st !! "is_correct") →
  batch st !! "task" = Some task →
  ∃ r1 st1,
    UniterForPretraining._process_sample_list_for_pretraining self st = (r1, st1)
    ∧ calls st1 = calls st ++ [Enter "_process_sample_list_for_pretraining"]
    ∧ match r1, task_routine task with
      | Raise e, _ => UniterForPretraining.forward self st = (Raise e, st1)
      | Ok _, None =>
          UniterForPretraining.forward self st
          = (Raise (ValueError ("Task " +:+ UniterForPretraining.show_field task
                                +:+ " is not supported for pretraining!")), st1)
      | Ok _, Some r =>
          routines (calls (UniterForPretraining.forward self st).2)
          = routines (calls st) ++ ["_process_sample_list_for_pretraining"; r]
      end.
Proof.
  intros Hsome Htask.
  destruct (common_calls_task self st) as [Hcalls Hkeep].
  destruct (UniterForPretraining._process_sample_list_for_pretraining self st)
    as [r1 st1] eqn:Hcommon.
  simpl in Hcalls, Hkeep. exists r1, st1. split; [done |]. split; [done |].
  unfold UniterForPretraining.forward.
  erewrite bind_ok; last first.
  { unfold contains. by rewrite bool_decide_true. }
  cbn [assert_]. erewrite bind_ok; last done.
  destruct r1 as [[] | e].
  - erewrite bind_ok; last exact Hcommon.
    erewrite bind_ok; last first.
    { unfold getitem. by rewrite Hkeep, Htask. }
    assert (routines (calls st1)
            = routines (calls st) ++ ["_process_sample_list_for_pretraining"]) as Hr.
    { by rewrite Hcalls, routines_snoc. }
    destruct (preprocess_calls self st1) as (Hmlm & Hitm & Hmrc & Hmrfr & Hwra).
    unfold task_routine.
    repeat match goal with
           | |- context [ if field_is ?t ?s then _ else _ ] =>
               destruct (field_is t s);
               [ erewrite bind_routines; [by rewrite Hr, <- app_assoc | done |];
                 intros; sat_auto frame_side |]
           end.
    reflexivity.
  - erewrite bind_raise; [reflexivity | exact Hcommon].
Qed.

End c6.


(** * The filter of mismatched captions *)

Section c1.
Context {F : Type} {FO : FloatOps F} {G : Type} {RG : PyRandom F G}.
Implicit Types st : state F G.

Definition unchanged : relation (state F G) := λ st st', st' = st.

#[global] Instance unchanged_preorder : PreOrder unchanged.
Proof. split; [by intros ? |]. intros ? ? ?. unfold unchanged. congruence. Qed.

(** Whatever the batch holds and however the call ends,
    [_remove_mismatched_captions] leaves the batch, the store and everything
    else exactly as they were: each filtered tensor is bound to the loop's
    local [x] and dropped. *)
Lemma remove_mismatched_captions_unchanged (self : UniterForPretraining.t F) st :
  (UniterForPretraining._remove_mismatched_captions self st).2 = st.
Proof.
  apply (sat_state unchanged any_error). sat_auto ltac:(done).
Qed.

End c1.

(** * Reading a run backwards and forwards *)

Section runs.
Context {F : Type} {FO : FloatOps F} {G : Type} {RG : PyRandom F G}.
Implicit Types st : state F G.

Lemma bind_inv_ok {A B} (m : M F G A) (k : A → M F G B) st b st2 :
  (m ≫= k) st = (Ok b, st2) →
  ∃ a st1, m st = (Ok a, st1) ∧ k a st1 = (Ok b, st2).
Proof.
  unfold mbind, M_bind, bind. destruct (m st) as [[a | e] st1]; [eauto | done].
Qed.

Lemma ret_inv {A} (a b : A) st st' :
  (mret a : M F G A) st = (Ok b, st') → b = a ∧ st' = st.
Proof. by intros [= -> ->]. Qed.

Lemma lift_inv {A} (r : result A) st a st' :
  lift r st = (Ok a, st') → r = Ok a ∧ st' = st.
Proof. by intros [= -> ->]. Qed.

Lemma call_inv {A} origin (r : result A) st a st' :
  call origin r st = (Ok a, st') → r = Ok a ∧ st' = st.
Proof. unfold call. destruct r; by intros [= <- <-]. Qed.

Lemma assert_inv c msg st u st' :
  assert_ c msg st = (Ok u, st') → c = true ∧ st' = st.
Proof. destruct c; [by intros [= <- <-] | done]. Qed.

Lemma attr_inv {A} (o : option A) st a st' :
  attr o st = (Ok a, st') → o = Some a ∧ st' = st.
Proof. destruct o; [by intros [= <- <-] | done]. Qed.

Lemma require_inv {A} (o : option A) st a st' :
  require o st = (Ok a, st') → o = Some a ∧ st' = st.
Proof. destruct o; [by intros [= <- <-] | done]. Qed.

Lemma contains_inv k st c st' :
  contains k st = (Ok c, st') → c = bool_decide (is_Some (batch st !! k)) ∧ st' = st.
Proof. by intros [= <- <-]. Qed.

Lemma getitem_inv k st v st' :
  getitem k st = (Ok v, st') → batch st !! k = Some v ∧ st' = st.
Proof. unfold getitem. destruct (batch st !! k); [by intros [= <- <-] | done]. Qed.

Lemma get_inv k st o st' : get k st = (Ok o, st') → o = batch st !! k ∧ st' = st.
Proof. by intros [= <- <-]. Qed.

Lemma deref_inv l st x st' :
  deref l st = (Ok x, st') → store st !! l = Some x ∧ st' = st.
Proof. unfold deref. destruct (store st !! l); [by intros [= <- <-] | done]. Qed.

Lemma tensor_of_inv e v st x st' :
  tensor_of e v st = (Ok x, st') → ∃ l, v = FTensor l ∧ store st !! l = Some x ∧ st' = st.
Proof.
  destruct v; try done. simpl. intros [? ?]%deref_inv. eauto.
Qed.

Lemma get_tensor_inv k st x st' :
  get_tensor k st = (Ok x, st') →
  ∃ l, batch st !! k = Some (FTensor l) ∧ store st !! l = Some x ∧ st' = st.
Proof.
  intros (v & st1 & [Hv ->]%getitem_inv & (l & -> & Hl & ->)%tensor_of_inv)%bind_inv_ok.
  eauto.
Qed.

Lemma module_get_inv {A} (d : gmap string A) k st a st' :
  module_get d k st = (Ok a, st') → d !! k = Some a ∧ st' = st.
Proof. unfold module_get. destruct (d !! k); [by intros [= <- <-] | done]. Qed.

Lemma setitem_inv k v st u st' :
  setitem k v st = (Ok u, st') → st' = set_batch (<[k:=v]>) st.
Proof. by intros [= <-]. Qed.

Lemma alloc_inv x st l st' :
  alloc x st = (Ok l, st') → l = length (store st) ∧ st' = set_store (λ s, s ++ [x]) st.
Proof. by intros [= <- <-]. Qed.

(** The state after [d[k] = x] for a new tensor object [x]. *)
Definition put (st : state F G) (k : string) (x : tensor F) : state F G :=
  set_batch (<[k:=FTensor (length (store st))]>) (set_store (λ s, s ++ [x]) st).

Lemma set_tensor_inv k x st u st' : set_tensor k x st = (Ok u, st') → st' = put st k x.
Proof.
  by intros (l & st1 & [-> ->]%alloc_inv & ->%setitem_inv)%bind_inv_ok.
Qed.

Lemma log_inv ev st u st' : log ev st = (Ok u, st') → st' = add_call ev st.
Proof. by intros [= <-]. Qed.

(** The same steps read forwards. *)
Lemma getitem_run k st v : batch st !! k = Some v → getitem k st = (Ok v, st).
Proof. intros H. unfold getitem. by rewrite H. Qed.

Lemma deref_run l st x : store st !! l = Some x → deref l st = (Ok x, st).
Proof. intros H. unfold deref. by rewrite H. Qed.

Lemma get_tensor_run k st l x :
  batch st !! k = Some (FTensor l) → store st !! l = Some x → get_tensor k st = (Ok x, st).
Proof.
  intros Hk Hl. unfold get_tensor, bind. rewrite (getitem_run _ _ _ Hk).
  by apply deref_run.
Qed.

Lemma contains_run k st : contains k st = (Ok (bool_decide (is_Some (batch st !! k))), st).
Proof. done. Qed.

Lemma set_tensor_run k x st : set_tensor k x st = (Ok (), put st k x).
Proof. done. Qed.

(** What [put], [add_call] and [set_rng] do to the fields and the store. *)
Lemma tensor_at_put st k x : tensor_at (put st k x) k = Some x.
Proof.
  unfold tensor_at, put. simpl. rewrite lookup_insert_eq.
  by rewrite lookup_app_r, Nat.sub_diag.
Qed.

Lemma store_put st k x l y : store st !! l = Some y → store (put st k x) !! l = Some y.
Proof. intros H. simpl. by apply lookup_app_l_Some. Qed.

Lemma batch_put_ne st k x k' : k ≠ k' → batch (put st k x) !! k' = batch st !! k'.
Proof. intros H. simpl. by rewrite lookup_insert_ne. Qed.

Lemma tensor_at_put_ne st k x k' y :
  k ≠ k' → tensor_at st k' = Some y → tensor_at (put st k x) k' = Some y.
Proof.
  intros Hne. unfold tensor_at. rewrite batch_put_ne by done.
  destruct (batch st !! k') as [[] |]; try done. apply store_put.
Qed.

Lemma tensor_at_rename st k k' v :
  batch st !! k' = Some v → tensor_at (set_batch (<[k:=v]>) st) k = tensor_at st k'.
Proof. intros Hk. unfold tensor_at. simpl. by rewrite lookup_insert_eq, Hk. Qed.

Lemma tensor_at_setitem_ne st k v k' :
  k ≠ k' → tensor_at (set_batch (<[k:=v]>) st) k' = tensor_at st k'.
Proof. intros H. unfold tensor_at. simpl. by rewrite lookup_insert_ne. Qed.

Lemma tensor_at_add_call st ev k : tensor_at (add_call ev st) k = tensor_at st k.
Proof. done. Qed.

Lemma tensor_at_set_rng st g k : tensor_at (set_rng g st) k = tensor_at st k.
Proof. done. Qed.

End runs.

(** Read what a step that returned says: its result, and the state it left
    (substituted where the step fixes it). *)
Ltac step_fact H :=
  first
    [ apply getitem_inv in H as [H ->]
    | apply get_inv in H as [H ->]
    | apply contains_inv in H as [H ->]
    | apply assert_inv in H as [H ->]
    | apply attr_inv in H as [H ->]
    | apply require_inv in H as [H ->]
    | apply deref_inv in H as [H ->]
    | apply module_get_inv in H as [H ->]
    | apply ret_inv in H as [H ->]
    | apply set_tensor_inv in H as ->
    | apply setitem_inv in H as ->
    | apply log_inv in H as ->
    | apply alloc_inv in H as [H ->]
    | apply call_inv in H as [H ->]
    | apply lift_inv in H as [H ->]
    | idtac ].

(** Take the first step of a run that returned: [x] is what the step gave,
    [Hx] what is known of it. *)
Tactic Notation "step_ok" hyp(H) "as" ident(x) ident(Hx) :=
  let st1 := fresh "st" in
  apply bind_inv_ok in H as (x & st1 & Hx & H);
  step_fact Hx.

(** * C2: the image mask has a true position in every example *)

Section c2.
Context {F : Type} {FO : FloatOps F} {G : Type} {RG : PyRandom F G}.
Implicit Types st : state F G.

Lemma repeatM_ok {A} (P : A → Prop) n (m : M F G A) st l st' :
  (∀ st a st', m st = (Ok a, st') → P a) →
  repeatM n m st = (Ok l, st') → length l = n ∧ Forall P l.
Proof.
  intros HP. revert st l. induction n as [| n IH]; intros st l; simpl.
  - by intros [= <- <-].
  - intros H. step_ok H as a Ha. step_ok H as l' Hl'. apply ret_inv in H as [-> ->].
    apply HP in Ha. apply IH in Hl' as [<- ?]. by split; [| constructor].
Qed.

Lemma repeatM_total {A} n (m : M F G A) :
  (∀ st, ∃ a st', m st = (Ok a, st')) →
  ∀ st, ∃ l st', repeatM n m st = (Ok l, st').
Proof.
  intros Hm. induction n as [| n IH]; intros st; simpl; [by eexists _, _ |].
  destruct (Hm st) as (a & st1 & Ha). destruct (IH st1) as (l & st2 & Hl).
  exists (a :: l), st2. unfold bind. by rewrite Ha, Hl.
Qed.

(** A mask that [_get_img_mask] returns has the length asked for and a true
    position. *)
Lemma get_img_mask_ok (self : UniterForPretraining.t F) p n st mask st' :
  UniterForPretraining._get_img_mask self p n st = (Ok mask, st') →
  length mask = n ∧ true ∈ mask.
Proof.
  unfold UniterForPretraining._get_img_mask. intros H. step_ok H as img_mask Hdraw.
  apply (repeatM_ok (λ _, True)) in Hdraw as [Hlen _]; [| done].
  destruct (existsb id img_mask) eqn:Hany; simpl in H.
  - apply ret_inv in H as [-> ->]. split; [done |].
    apply existsb_exists in Hany as (x & Hin & Hx). destruct x; [| done].
    by apply list_elem_of_In.
  - step_ok H as i Hi. case_bool_decide as Hlt; [| done].
    apply ret_inv in H as [-> ->]. rewrite length_insert. split; [done |].
    apply list_elem_of_lookup. exists i. by apply list_lookup_insert_eq.
Qed.

(** With indices drawn in range and at least one region, [_get_img_mask]
    returns. *)
Lemma get_img_mask_total (self : UniterForPretraining.t F) p n st :
  (∀ k g, 0 < k → (randbelow k g).1 < k) →
  0 < n →
  ∃ mask st', UniterForPretraining._get_img_mask self p n st = (Ok mask, st').
Proof.
  intros Hrand Hn. unfold UniterForPretraining._get_img_mask.
  destruct (repeatM_total n (py_random ≫= λ x, mret (flt x p))) with st as (l & st1 & Hl).
  { intros s. unfold mbind, M_bind, bind, py_random.
    destruct (random (rng s)). by eexists _, _. }
  pose proof Hl as [Hlen _]%(repeatM_ok (λ _, True)); [| done].
  erewrite bind_ok; [| exact Hl].
  destruct (existsb id l); simpl; [by eexists _, _ |].
  destruct n as [| n]; [lia |]. unfold mbind, M_bind, bind, py_choice_range.
  specialize (Hrand (S n) (rng st1)). destruct (randbelow (S n) (rng st1)) as [i g].
  simpl in Hrand. rewrite bool_decide_true by lia. by eexists _, _.
Qed.

(** Drawing the masks touches nothing but the generator. *)
Definition only_rng : relation (state F G) := λ st st', st' = set_rng (rng st') st.

#[global] Instance only_rng_preorder : PreOrder only_rng.
Proof.
  split.
  - by intros [].
  - intros [] [] [] H1 H2. unfold only_rng, set_rng in *. simpl in *. congruence.
Qed.

Lemma get_img_masks_only_rng (self : UniterForPretraining.t F) p n b :
  sat only_rng any_error (repeatM b (UniterForPretraining._get_img_mask self p n)).
Proof. sat_auto ltac:(first [done | by intros []]). Qed.

(** [mask] is a mask drawn for [b] examples of [n] regions: one row per
    example, each with a true position. *)
Definition drawn_mask (b n : nat) (mask : tensor F) : Prop :=
  ∃ rows, length rows = b
          ∧ Forall (λ row, length row = n ∧ true ∈ row) rows
          ∧ tensor_of_bool_rows rows = Ok mask.

(** [filled] is [x] with the positions of [mask] zeroed:
    [x.masked_fill(mask.unsqueeze(-1).expand_as(x), 0)]. *)
Definition masked_copy (x mask filled : tensor F) : Prop :=
  ∃ u mext, unsqueeze mask (-1) = Ok u ∧ expand_as u x = Ok mext
            ∧ masked_fill0 x mext = Ok filled.

(** The state [_add_image_feat_masked] leaves when it returns: two new tensor
    objects at the end of the store, named by [image_feat_masked] and
    [image_mask], and a generator state [g]. *)
Definition with_masked (st : state F G) (g : G) (filled mask : tensor F) : state F G :=
  put (put (set_rng g st) "image_feat_masked" filled) "image_mask" mask.

Lemma add_image_feat_masked_ok (self : UniterForPretraining.t F) st u st1 :
  UniterForPretraining._add_image_feat_masked self st = (Ok u, st1) →
  ∃ l x b n mask filled g,
    batch st !! "image_feat" = Some (FTensor l) ∧ store st !! l = Some x
    ∧ size x 0 = Ok b ∧ size x 1 = Ok n
    ∧ drawn_mask b n mask ∧ masked_copy x mask filled
    ∧ st1 = with_masked st g filled mask.
Proof.
  unfold UniterForPretraining._add_image_feat_masked. intros H.
  step_ok H as v Hfeat.
  step_ok H as x Hx. apply tensor_of_inv in Hx as (l & -> & Hl & ->).
  step_ok H as n Hn.
  step_ok H as b Hb.
  step_ok H as rows Hrows.
  match type of Hrows with repeatM _ (_ _ ?p _) _ = _ =>
    pose proof (sat_state _ _ _ st (get_img_masks_only_rng self p n b)) as Hrng
  end.
  rewrite Hrows in Hrng. simpl in Hrng.
  apply (repeatM_ok (λ row, length row = n ∧ true ∈ row)) in Hrows as [Hlen Hrows];
    [| intros ? ? ?; apply get_img_mask_ok].
  step_ok H as mask Hmask.
  step_ok H as um Hu.
  step_ok H as mext Hext.
  step_ok H as filled Hfill.
  step_ok H as u' Hset.
  apply set_tensor_inv in H as ->.
  exists l, x, b, n, mask, filled, (rng st0).
  split_and!; try done.
  - by exists rows.
  - by exists um, mext.
  - by rewrite Hrng.
Qed.

Lemma tensor_of_bool_rows_ok rows b n :
  length rows = b → 0 < b → Forall (λ row : list bool, length row = n) rows →
  tensor_of_bool_rows (F:=F) rows = Ok (Tensor [b; n] (DBool (concat rows))).
Proof.
  intros Hlen Hb Hrows. unfold tensor_of_bool_rows.
  destruct rows as [| r rows']; [simpl in Hlen; lia |].
  assert (length r = n) as Hr by (by inversion Hrows).
  rewrite (proj2 (forallb_forall _ _)).
  - by rewrite Hlen, Hr.
  - intros r' Hin. apply Nat.eqb_eq. rewrite Hr.
    by apply (proj1 (Forall_forall _ _) Hrows), list_elem_of_In.
Qed.

Lemma expandable_refl s : expandable s s = true.
Proof.
  unfold expandable. rewrite bool_decide_true by done. simpl.
  induction s as [| d s IH]; [done |]. cbn -[Nat.eqb]. by rewrite Nat.eqb_refl.
Qed.

Lemma expandable_last s d : expandable (s ++ [1]) (s ++ [d]) = true.
Proof.
  unfold expandable. rewrite bool_decide_true by (by rewrite !length_app). simpl.
  induction s as [| d' s IH]; cbn -[Nat.eqb].
  - by rewrite orb_true_r.
  - by rewrite Nat.eqb_refl.
Qed.

Lemma pad_shape_same k s : length s = k → pad_shape k s = s.
Proof. intros <-. unfold pad_shape. by rewrite Nat.sub_diag. Qed.

Lemma masked_copy_total (x : tensor F) b n d bits :
  shape x = [b; n; d] →
  ∃ filled, masked_copy x (Tensor [b; n] (DBool bits)) filled.
Proof.
  intros Hx. unfold masked_copy, expand_as, masked_fill0, expand.
  eexists _, (Tensor [b; n; 1] (DBool bits)), _. split; [reflexivity |]. rewrite Hx.
  cbn [shape data].
  rewrite (pad_shape_same _ [b; n; 1]) by done. change [b; n; 1] with ([b; n] ++ [1]) at 1.
  change [b; n; d] with ([b; n] ++ [d]) at 1. rewrite (expandable_last [b; n] d).
  split; [reflexivity |]. cbn [rbind mask_bits data lift_data shape].
  rewrite (pad_shape_same _ [b; n; d]) by done. rewrite expandable_refl. reflexivity.
Qed.

Lemma add_image_feat_masked_total (self : UniterForPretraining.t F) st l x b n d :
  (∀ k g, 0 < k → (randbelow k g).1 < k) →
  batch st !! "image_feat" = Some (FTensor l) → store st !! l = Some x →
  shape x = [b; n; d] → 0 < b → 0 < n →
  ∃ st1, UniterForPretraining._add_image_feat_masked self st = (Ok (), st1).
Proof.
  intros Hrand Hfeat Hl Hx Hb Hn. unfold UniterForPretraining._add_image_feat_masked.
  erewrite bind_ok; [| by apply getitem_run].
  erewrite bind_ok; [| by apply deref_run].
  erewrite bind_ok; [| by unfold lift, size, dim; rewrite Hx].
  erewrite bind_ok; [| by unfold lift, size, dim; rewrite Hx].
  simpl.
  match goal with |- context [ repeatM b ?m ] =>
    destruct (repeatM_total b m) with st as (rows & st1 & Hrows);
      [intros s; by apply get_img_mask_total |]
  end.
  erewrite bind_ok; [| exact Hrows].
  apply (repeatM_ok (λ row, length row = n ∧ true ∈ row)) in Hrows as [Hlen Hall];
    [| intros ? ? ?; apply get_img_mask_ok].
  erewrite bind_ok; last first.
  { unfold lift. erewrite tensor_of_bool_rows_ok; [done | done | done |].
    eapply Forall_impl; [done |]. by intros ? [? ?]. }
  destruct (masked_copy_total x b n d (concat rows) Hx) as (filled & um & mext & Hu & He & Hf).
  erewrite bind_ok; [| by unfold lift; rewrite Hu].
  erewrite bind_ok; [| by unfold lift; rewrite He].
  erewrite bind_ok; [| by unfold lift; rewrite Hf].
  by eexists.
Qed.

(** C2. Let [image_feat] be a tensor of [b] examples with [n] regions each,
    [b] and [n] at least one, and let [random.choice(range(k))] give an index
    below [k]. Then, whatever the mask probability (none configured, zero or
    any other) and whatever the generator gives, [_add_image_feat_masked]
    returns, and the mask it stores under [image_mask] has one row of [n]
    booleans per example, each row with a true position. *)
Theorem add_image_feat_masked_mask (self : UniterForPretraining.t F) st l x b n d :
  (∀ k g, 0 < k → (randbelow k g).1 < k) →
  batch st !! "image_feat" = Some (FTensor l) → store st !! l = Some x →
  shape x = [b; n; d] → 0 < b → 0 < n →
  ∃ rows st1,
    UniterForPretraining._add_image_feat_masked self st = (Ok (), st1)
    ∧ tensor_at st1 "image_mask" = Some (Tensor [b; n] (DBool (concat rows)))
    ∧ length rows = b
    ∧ Forall (λ row, length row = n ∧ true ∈ row) rows.
Proof.
  intros Hrand Hfeat Hl Hx Hb Hn.
  destruct (add_image_feat_masked_total self st l x b n d) as (st1 & Hrun); try done.
  destruct (add_image_feat_masked_ok self st () st1 Hrun)
    as (l' & x' & b' & n' & mask & filled & g & Hfeat' & Hl' & Hb' & Hn' & Hmask & _ & ->).
  assert (x' = x) as -> by congruence.
  assert (b' = b ∧ n' = n) as [-> ->].
  { unfold size, dim in Hb', Hn'. rewrite Hx in Hb', Hn'. simpl in Hb', Hn'.
    split; congruence. }
  destruct Hmask as (rows & Hlen & Hrows & Hmask).
  exists rows, (with_masked st g filled mask). split_and!; try done.
  erewrite tensor_of_bool_rows_ok in Hmask; [| done | done |]; last first.
  { eapply Forall_impl; [done |]. by intros ? [? ?]. }
  injection Hmask as <-. apply tensor_at_put.
Qed.

End c2.

(** * C1, C9 and C10: what preprocessing does to the caller's batch *)

(** The fields preprocessing itself writes: a head's keys must stay clear of
    them for its targets and mask to be readable afterwards. *)
Definition reserved_keys : list string := ["image_feat"; "image_mask"; "image_feat_masked"].

Ltac keys_ne :=
  repeat match goal with
         | H : _ ∉ reserved_keys |- _ => unfold reserved_keys in H
         | H : _ ∉ _ :: _ |- _ => apply not_elem_of_cons in H as [? H]
         | H : _ ∉ [] |- _ => clear H
         end.

Ltac tensor_at_side := first [ done | by apply not_eq_sym ].

Ltac tensor_at_step :=
  first
    [ apply tensor_at_put
    | apply tensor_at_put_ne; [tensor_at_side |]
    | rewrite tensor_at_add_call
    | rewrite tensor_at_set_rng
    | rewrite tensor_at_setitem_ne by tensor_at_side ].

(** A step that only reads leaves the state as it was. *)
Ltac read_only H :=
  lazymatch type of H with
  | ?m ?st = (_, ?st') =>
      let Hsat := fresh "Hsat" in
      assert (sat unchanged any_error m) as Hsat by sat_auto ltac:(done);
      apply (sat_state _ _ _ st) in Hsat;
      rewrite H in Hsat; unfold unchanged in Hsat; simpl in Hsat; subst st'
  end.

Section masked_tasks.
Context {F : Type} {FO : FloatOps F} {G : Type} {RG : PyRandom F G}.
Implicit Types st : state F G.

(** [st'] has the field [k] of [st] unchanged and every tensor object of [st]
    where it was. *)
Definition extends_keeping (k : string) : relation (state F G) :=
  λ st st', batch st' !! k = batch st !! k ∧ store st `prefix_of` store st'.

#[global] Instance extends_keeping_preorder k : PreOrder (extends_keeping k).
Proof.
  split; [by intros ? |]. intros ? ? ? [? ?] [? ?]. split; [congruence | by etrans].
Qed.

Lemma add_image_feat_masked_extends (self : UniterForPretraining.t F) :
  sat (extends_keeping "image_feat") any_error
    (UniterForPretraining._add_image_feat_masked self).
Proof.
  sat_auto ltac:(first
    [ done
    | by (intros; split; simpl;
          [by rewrite ?lookup_insert_ne | first [done | by apply prefix_app_r]]) ]).
Qed.

Lemma extends_keeping_lookup k st st' l x :
  extends_keeping k st st' →
  batch st !! k = Some (FTensor l) → store st !! l = Some x →
  batch st' !! k = Some (FTensor l) ∧ store st' !! l = Some x.
Proof.
  intros [Hb Hs] Hk Hl. split; [congruence |].
  by eapply prefix_lookup_Some.
Qed.

(** Common preprocessing of an mrc or mrfr batch, when it returns: the masked
    copy and the mask of [_add_image_feat_masked], then the classifier
    probabilities under [cls_prob]. *)
Lemma common_masked_ok (self : UniterForPretraining.t F) st task u st2 :
  batch st !! "task" = Some task →
  field_is task "mrc" || field_is task "mrfr" = true →
  UniterForPretraining._process_sample_list_for_pretraining self st = (Ok u, st2) →
  ∃ l x b n mask filled g c,
    batch st !! "image_feat" = Some (FTensor l) ∧ store st !! l = Some x
    ∧ size x 0 = Ok b ∧ size x 1 = Ok n
    ∧ drawn_mask b n mask ∧ masked_copy x mask filled
    ∧ st2 = put (with_masked (add_call (Enter "_process_sample_list_for_pretraining") st)
                   g filled mask) "cls_prob" c.
Proof.
  intros Htask Hkind. unfold UniterForPretraining._process_sample_list_for_pretraining.
  intros H. step_ok H as u0 Hlog.
  step_ok H as task' Htask'. simpl in Htask'. rewrite Htask in Htask'.
  injection Htask' as <-. rewrite Hkind in H.
  step_ok H as u1 Hmasked.
  step_ok Hmasked as u2 Hadd.
  apply add_image_feat_masked_ok in Hadd
    as (l & x & b & n & mask & filled & g & Hfeat & Hl & Hb & Hn & Hmask & Hcopy & ->).
  step_ok Hmasked as info Hinfo.
  step_ok Hmasked as c0 Hc0. read_only Hc0.
  step_ok Hmasked as c Hc. read_only Hc.
  apply set_tensor_inv in Hmasked as ->.
  assert (st2 = put (with_masked (add_call (Enter "_process_sample_list_for_pretraining") st)
                       g filled mask) "cls_prob" c) as ->.
  { destruct (negb (field_is task "itm") && negb (field_is task "wra")).
    - pose proof (remove_mismatched_captions_unchanged self
        (put (with_masked (add_call (Enter "_process_sample_list_for_pretraining") st)
                g filled mask) "cls_prob" c)) as Hsame.
      rewrite H in Hsame. simpl in Hsame. congruence.
    - by apply ret_inv in H as [_ ->]. }
  by exists l, x, b, n, mask, filled, g, c.
Qed.

(** [targets] is what [x[mask.unsqueeze(-1).expand_as(x)].view(-1, x.size(2))]
    gathers from [x]. *)
Definition gathered (x mask targets : tensor F) : Prop :=
  ∃ um mext d t0,
    unsqueeze mask (-1) = Ok um ∧ expand_as um x = Ok mext ∧ size x 2 = Ok d
    ∧ index_mask x mext = Ok t0 ∧ view_rows t0 d = Ok targets.

(** [_preprocess_mrfr], when it returns: targets gathered from the tensor
    [image_feat] names on entry, the combined mask, and only then
    [image_feat] renamed to what [image_feat_masked] names. *)
Lemma preprocess_mrfr_ok (self : UniterForPretraining.t F) st u st' :
  UniterForPretraining._preprocess_mrfr self st = (Ok u, st') →
  ∃ h tk mk mask x targets cm v,
    UniterForPretraining.heads self !! "mrfr" = Some h
    ∧ mrfr_target_key (config h) = Some tk ∧ mrfr_mask_key (config h) = Some mk
    ∧ tensor_at st "image_mask" = Some mask ∧ tensor_at st "image_feat" = Some x
    ∧ gathered x mask targets
    ∧ batch (put (put (add_call (Enter "_preprocess_mrfr") st) tk targets) mk cm)
        !! "image_feat_masked" = Some v
    ∧ st' = set_batch (<["image_feat" := v]>)
              (put (put (add_call (Enter "_preprocess_mrfr") st) tk targets) mk cm).
Proof.
  unfold UniterForPretraining._preprocess_mrfr. intros H.
  step_ok H as u0 Hlog.
  step_ok H as c1 Hc1. step_ok H as u1 Ha1.
  step_ok H as c2 Hc2. step_ok H as u2 Ha2.
  step_ok H as h Hh. step_ok H as tk Htk.
  step_ok H as h' Hh'. step_ok H as mk Hmk.
  assert (h' = h) as -> by congruence.
  step_ok H as mask Hmask. apply get_tensor_inv in Hmask as (lm & Hbm & Hsm & ->).
  step_ok H as x Hx. apply get_tensor_inv in Hx as (lx & Hbx & Hsx & ->).
  step_ok H as um Hum. step_ok H as mext Hext. step_ok H as d Hd.
  step_ok H as t0 Ht0. step_ok H as targets Htargets.
  step_ok H as u3 Hset.
  step_ok H as cm Hcm. read_only Hcm.
  step_ok H as u4 Hset'.
  step_ok H as v Hv. apply setitem_inv in H as ->.
  exists h, tk, mk, mask, x, targets, cm, v. split_and!; try done.
  - unfold tensor_at. simpl in Hbm. by rewrite Hbm.
  - unfold tensor_at. simpl in Hbx. by rewrite Hbx.
  - by exists um, mext, d, t0.
Qed.

(** C9. Let [image_feat] name the tensor object [x]. Whatever
    [_add_image_feat_masked] does and however it ends, [image_feat] still
    names that object and the object still holds [x]. And when, for an mrfr
    batch, common preprocessing and [_preprocess_mrfr] return, the regression
    targets stored under the head's target key are gathered from [x] itself
    at the positions of the drawn mask, the object [x] is still in the store
    unchanged, and [image_feat] now names the same object as
    [image_feat_masked]: the copy of [x] zeroed at the masked positions. *)
Theorem mrfr_targets_from_original (self : UniterForPretraining.t F) st l x :
  batch st !! "image_feat" = Some (FTensor l) → store st !! l = Some x →
  (let sta := (UniterForPretraining._add_image_feat_masked self st).2 in
   batch sta !! "image_feat" = Some (FTensor l) ∧ store sta !! l = Some x)
  ∧ ∀ h tk mk u st3,
      batch st !! "task" = Some (FStr "mrfr") →
      UniterForPretraining.heads self !! "mrfr" = Some h →
      mrfr_target_key (config h) = Some tk → mrfr_mask_key (config h) = Some mk →
      tk ∉ reserved_keys → mk ∉ reserved_keys → tk ≠ mk →
      (UniterForPretraining._process_sample_list_for_pretraining self ≫= λ _,
       UniterForPretraining._preprocess_mrfr self) st = (Ok u, st3) →
      ∃ mask filled targets,
        masked_copy x mask filled ∧ gathered x mask targets
        ∧ store st3 !! l = Some x
        ∧ tensor_at st3 "image_mask" = Some mask
        ∧ tensor_at st3 tk = Some targets
        ∧ tensor_at st3 "image_feat_masked" = Some filled
        ∧ tensor_at st3 "image_feat" = Some filled
        ∧ batch st3 !! "image_feat" = batch st3 !! "image_feat_masked".
Proof.
  intros Hfeat Hl. split.
  { eapply extends_keeping_lookup; [| done | done].
    apply (sat_state _ any_error), add_image_feat_masked_extends. }
  intros h tk mk u st3 Htask Hh Htk Hmk Htk_res Hmk_res Hne H. keys_ne.
  step_ok H as u0 Hcommon.
  apply (common_masked_ok _ _ (FStr "mrfr")) in Hcommon
    as (l' & x' & b & n & mask & filled & g & c & Hfeat' & Hl' & _ & _ & _ & Hcopy & ->);
    [| done | done].
  assert (l' = l) as -> by congruence. assert (x' = x) as -> by congruence.
  apply preprocess_mrfr_ok in H
    as (h' & tk' & mk' & mask' & x' & targets & cm & v & Hh' & Htk' & Hmk' & Hmask' & Hx'
        & Hgath & Hv & ->).
  assert (h' = h) as -> by congruence.
  assert (tk' = tk) as -> by congruence. assert (mk' = mk) as -> by congruence.
  set (st0 := add_call (Enter "_process_sample_list_for_pretraining") st) in *.
  assert (tensor_at (with_masked st0 g filled mask) "image_mask" = Some mask) as Hm
    by apply tensor_at_put.
  assert (tensor_at (with_masked st0 g filled mask) "image_feat_masked" = Some filled) as Hf.
  { unfold with_masked. repeat tensor_at_step. }
  assert (tensor_at (with_masked st0 g filled mask) "image_feat" = Some x) as Hx.
  { unfold with_masked. repeat tensor_at_step. unfold tensor_at. simpl. by rewrite Hfeat. }
  assert (mask' = mask) as ->.
  { erewrite tensor_at_put_ne in Hmask'; [| done | exact Hm]. congruence. }
  assert (x' = x) as ->.
  { erewrite tensor_at_put_ne in Hx'; [| done | exact Hx]. congruence. }
  exists mask, filled, targets. split_and!; try done.
  - simpl. repeat (apply lookup_app_l_Some). done.
  - rewrite tensor_at_setitem_ne by done. by repeat tensor_at_step.
  - rewrite tensor_at_setitem_ne by done. by repeat tensor_at_step.
  - rewrite tensor_at_setitem_ne by done. by repeat tensor_at_step.
  - rewrite (tensor_at_rename _ _ _ _ Hv). by repeat tensor_at_step.
  - simpl in *. rewrite lookup_insert_eq. by rewrite lookup_insert_ne.
Qed.

End masked_tasks.

Section same_batch_store.
Context {F : Type} {G : Type}.

(** The batch and the tensor objects are the same in both states. *)
Definition same_batch_store : relation (state F G) :=
  λ st st', batch st' = batch st ∧ store st' = store st.

#[global] Instance same_batch_store_preorder : PreOrder same_batch_store.
Proof.
  split; [by intros ? |]. intros ? ? ? [? ?] [? ?]. split; congruence.
Qed.

End same_batch_store.

(** What follows preprocessing in [forward] (the encoder, the head, the loss)
    leaves the batch and the store as they are. *)
Ltac tail_frame H :=
  lazymatch type of H with
  | ?m ?st = (_, ?st') =>
      let Hsat := fresh "Hsat" in
      assert (sat same_batch_store any_error m) as Hsat
        by sat_auto ltac:(first [done | by intros; split]);
      apply (sat_state _ _ _ st) in Hsat;
      rewrite H in Hsat; simpl in Hsat; destruct Hsat as [Hbatch Hstore]
  end.

(** Resolve the dispatch on a task that is a known string. *)
Ltac dispatch_task H :=
  unfold field_is in H;
  repeat (rewrite bool_decide_false in H by done);
  rewrite bool_decide_true in H by done.

Section in_place.
Context {F : Type} {FO : FloatOps F} {G : Type} {RG : PyRandom F G}.
Implicit Types st : state F G.

(** [_preprocess_mrc], when it returns: labels under the head's label key, the
    combined mask under its mask key, then [image_feat] renamed to what
    [image_feat_masked] names. *)
Lemma preprocess_mrc_ok (self : UniterForPretraining.t F) st u st' :
  UniterForPretraining._preprocess_mrc self st = (Ok u, st') →
  ∃ h lk mk labels cm v,
    UniterForPretraining.heads self !! "mrc" = Some h
    ∧ mrc_label_key (config h) = Some lk ∧ mrc_mask_key (config h) = Some mk
    ∧ batch (put (put (add_call (Enter "_preprocess_mrc") st) lk labels) mk cm)
        !! "image_feat_masked" = Some v
    ∧ st' = set_batch (<["image_feat" := v]>)
              (put (put (add_call (Enter "_preprocess_mrc") st) lk labels) mk cm).
Proof.
  unfold UniterForPretraining._preprocess_mrc. intros H.
  step_ok H as u0 Hlog.
  step_ok H as c1 Hc1. step_ok H as u1 Ha1.
  step_ok H as c2 Hc2. step_ok H as u2 Ha2.
  step_ok H as c3 Hc3. step_ok H as u3 Ha3.
  step_ok H as h Hh. step_ok H as lk Hlk.
  step_ok H as h' Hh'. step_ok H as mk Hmk.
  assert (h' = h) as -> by congruence.
  step_ok H as vm Hvm.
  step_ok H as cls Hcls. read_only Hcls.
  step_ok H as mask Hmask. read_only Hmask.
  step_ok H as um Hum. step_ok H as mext Hext. step_ok H as d Hd.
  step_ok H as t0 Ht0. step_ok H as labels Hlabels.
  step_ok H as u4 Hset.
  step_ok H as cm Hcm. read_only Hcm.
  step_ok H as u5 Hset'.
  step_ok H as v Hv. apply setitem_inv in H as ->.
  by exists h, lk, mk, labels, cm, v.
Qed.

(** [_preprocess_mlm], when it returns: the labels under [mlm_labels], then
    [input_ids] renamed to what [input_ids_masked] names. *)
Lemma preprocess_mlm_ok (self : UniterForPretraining.t F) st u st' :
  UniterForPretraining._preprocess_mlm self st = (Ok u, st') →
  ∃ v labels, batch st !! "input_ids_masked" = Some v
    ∧ batch st' = <["input_ids" := v]> (<["mlm_labels" := labels]> (batch st))
    ∧ store st `prefix_of` store st'.
Proof.
  unfold UniterForPretraining._preprocess_mlm. intros H.
  step_ok H as u0 Hlog.
  step_ok H as c1 Hc1. step_ok H as u1 Ha1.
  step_ok H as c2 Hc2. step_ok H as u2 Ha2.
  step_ok H as h Hh. step_ok H as ignore Hignore.
  step_ok H as text Htext.
  step_ok H as image_feat Himage. read_only Himage.
  step_ok H as text_labels Hlabels. read_only Hlabels.
  step_ok H as image Hfull.
  step_ok H as l_image Hl_image.
  step_ok H as combined Hcombined.
  step_ok H as l_combined Hl_combined.
  step_ok H as u3 Hset.
  step_ok H as v Hv. apply setitem_inv in H as ->.
  simpl in *. rewrite lookup_insert_ne in Hv by done.
  eexists v, _. split_and!; [done | done |].
  etrans; apply prefix_app_r; done.
Qed.

(** Common preprocessing of a batch that is neither mrc nor mrfr records its
    entry and changes nothing else. *)
Lemma common_unmasked (self : UniterForPretraining.t F) st task r st1 :
  batch st !! "task" = Some task →
  field_is task "mrc" || field_is task "mrfr" = false →
  UniterForPretraining._process_sample_list_for_pretraining self st = (r, st1) →
  st1 = add_call (Enter "_process_sample_list_for_pretraining") st.
Proof.
  intros Htask Hkind. unfold UniterForPretraining._process_sample_list_for_pretraining.
  intros H. erewrite bind_ok in H; [| done].
  erewrite bind_ok in H; [| by apply getitem_run].
  rewrite Hkind in H. erewrite bind_ok in H; [| done].
  destruct (negb (field_is task "itm") && negb (field_is task "wra")).
  - pose proof (remove_mismatched_captions_unchanged self
      (add_call (Enter "_process_sample_list_for_pretraining") st)) as Hsame.
    rewrite H in Hsame. by simpl in Hsame.
  - by injection H as _ <-.
Qed.

(** C1. [_remove_mismatched_captions] leaves the state exactly as it found
    it, whatever [is_correct] holds: no field of the batch is filtered, every
    example stays, mismatched or not. So common preprocessing of a batch that
    is neither mrc nor mrfr (mlm in particular) changes neither the batch nor
    any tensor object. *)
Theorem mismatched_captions_not_removed (self : UniterForPretraining.t F) st :
  (UniterForPretraining._remove_mismatched_captions self st).2 = st
  ∧ (∀ task r st1,
       batch st !! "task" = Some task →
       field_is task "mrc" || field_is task "mrfr" = false →
       UniterForPretraining._process_sample_list_for_pretraining self st = (r, st1) →
       batch st1 = batch st ∧ store st1 = store st).
Proof.
  split; [apply remove_mismatched_captions_unchanged |].
  intros task r st1 Htask Hkind H.
  by apply (common_unmasked _ _ task) in H as ->.
Qed.

(** The fields of the batch after the preprocessing of a masked task: the
    state left by common preprocessing, two tensors stored under keys of the
    head, and [image_feat] renamed to what [image_feat_masked] names. *)
Lemma masked_state_fields (st0 : state F G) g filled mask c ev k1 x1 k2 x2 v :
  k1 ∉ reserved_keys → k2 ∉ reserved_keys →
  ∀ st2, st2 = put (put (add_call ev (put (with_masked st0 g filled mask) "cls_prob" c))
                      k1 x1) k2 x2 →
  batch st2 !! "image_feat_masked" = Some v →
  tensor_at (set_batch (<["image_feat" := v]>) st2) "image_mask" = Some mask
  ∧ tensor_at (set_batch (<["image_feat" := v]>) st2) "image_feat" = Some filled.
Proof.
  intros Hk1 Hk2 st2 Hst2 Hv. keys_ne.
  assert (tensor_at (with_masked st0 g filled mask) "image_mask" = Some mask) as Hm
    by apply tensor_at_put.
  assert (tensor_at (with_masked st0 g filled mask) "image_feat_masked" = Some filled) as Hf.
  { unfold with_masked. repeat tensor_at_step. }
  split.
  - rewrite tensor_at_setitem_ne by done. rewrite Hst2. by repeat tensor_at_step.
  - rewrite (tensor_at_rename _ _ _ _ Hv). rewrite Hst2. by repeat tensor_at_step.
Qed.

(** A field names the same tensor in two states with the same batch and
    store. *)
Lemma tensor_at_same (st st' : state F G) k :
  batch st' = batch st → store st' = store st → tensor_at st' k = tensor_at st k.
Proof. intros Hb Hs. unfold tensor_at. by rewrite Hb, Hs. Qed.

Lemma tensor_at_named (st : state F G) k l x :
  batch st !! k = Some (FTensor l) → store st !! l = Some x → tensor_at st k = Some x.
Proof. intros Hb Hs. unfold tensor_at. by rewrite Hb. Qed.

(** The batch after a masked task: [image_mask] names a freshly drawn mask and
    [image_feat] the copy of the tensor it named on entry, zeroed where the
    mask is true. *)
Definition masked_in_place (st st' : state F G) : Prop :=
  ∃ x b n mask filled,
    tensor_at st "image_feat" = Some x ∧ size x 0 = Ok b ∧ size x 1 = Ok n
    ∧ drawn_mask b n mask ∧ masked_copy x mask filled
    ∧ tensor_at st' "image_mask" = Some mask
    ∧ tensor_at st' "image_feat" = Some filled.

(** C10. When the pretraining forward returns, the state it leaves is the
    caller's batch, changed in place. For an mlm batch, [input_ids] names the
    very object [input_ids_masked] names (and named on entry). For an mrc or
    mrfr batch (the head's keys not being fields preprocessing writes),
    [image_mask] names the mask drawn during the call and [image_feat] the
    masked copy of the features. *)
Theorem forward_mutates_batch (self : UniterForPretraining.t F) st task out st' :
  batch st !! "task" = Some task →
  UniterForPretraining.forward self st = (Ok out, st') →
  (task = FStr "mlm" →
     ∃ v, batch st !! "input_ids_masked" = Some v
          ∧ batch st' !! "input_ids" = Some v
          ∧ batch st' !! "input_ids_masked" = Some v)
  ∧ (∀ h lk mk,
       task = FStr "mrc" → UniterForPretraining.heads self !! "mrc" = Some h →
       mrc_label_key (config h) = Some lk → mrc_mask_key (config h) = Some mk →
       lk ∉ reserved_keys → mk ∉ reserved_keys →
       masked_in_place st st')
  ∧ (∀ h tk mk,
       task = FStr "mrfr" → UniterForPretraining.heads self !! "mrfr" = Some h →
       mrfr_target_key (config h) = Some tk → mrfr_mask_key (config h) = Some mk →
       tk ∉ reserved_keys → mk ∉ reserved_keys →
       masked_in_place st st').
Proof.
  intros Htask H. unfold UniterForPretraining.forward in H.
  step_ok H as c Hc. step_ok H as u0 Hassert.
  step_ok H as u1 Hcommon.
  destruct (common_calls_task self st) as [_ Hkeep]. rewrite Hcommon in Hkeep.
  simpl in Hkeep.
  step_ok H as task' Htask'. rewrite Hkeep, Htask in Htask'. injection Htask' as <-.
  step_ok H as u2 Hpre. tail_frame H.
  split_and!.
  - intros ->. dispatch_task Hpre.
    apply (common_unmasked _ _ (FStr "mlm")) in Hcommon as ->; [| done | done].
    rename Hbatch into Hsame.
    apply preprocess_mlm_ok in Hpre as (v & labels & Hv & Hbatch & _).
    exists v. cbn [batch add_call] in Hv. split; [done |].
    rewrite Hsame, Hbatch. cbn [batch add_call].
    split; [by rewrite lookup_insert_eq |].
    by rewrite !lookup_insert_ne by done.
  - intros h lk mk -> Hh Hlk Hmk Hlk_res Hmk_res. dispatch_task Hpre.
    apply (common_masked_ok _ _ (FStr "mrc")) in Hcommon
      as (l & x & b & n & mask & filled & g & c' & Hfeat & Hl & Hb & Hn & Hmask & Hcopy
          & ->); [| done | done].
    apply preprocess_mrc_ok in Hpre
      as (h' & lk' & mk' & labels & cm & v & Hh' & Hlk' & Hmk' & Hv & ->).
    assert (h' = h) as -> by congruence.
    assert (lk' = lk) as -> by congruence. assert (mk' = mk) as -> by congruence.
    destruct (masked_state_fields _ g filled mask c' _ lk labels mk cm v Hlk_res Hmk_res
                _ eq_refl Hv) as [Hm Hf].
    exists x, b, n, mask, filled.
    split; [exact (tensor_at_named _ _ _ _ Hfeat Hl) |].
    split; [exact Hb |]. split; [exact Hn |]. split; [exact Hmask |].
    split; [exact Hcopy |].
    rewrite !(tensor_at_same _ _ _ Hbatch Hstore). exact (conj Hm Hf).
  - intros h tk mk -> Hh Htk Hmk Htk_res Hmk_res. dispatch_task Hpre.
    apply (common_masked_ok _ _ (FStr "mrfr")) in Hcommon
      as (l & x & b & n & mask & filled & g & c' & Hfeat & Hl & Hb & Hn & Hmask & Hcopy
          & ->); [| done | done].
    apply preprocess_mrfr_ok in Hpre
      as (h' & tk' & mk' & mask' & x' & targets & cm & v & Hh' & Htk' & Hmk' & _ & _ & _
          & Hv & ->).
    assert (h' = h) as -> by congruence.
    assert (tk' = tk) as -> by congruence. assert (mk' = mk) as -> by congruence.
    destruct (masked_state_fields _ g filled mask c' _ tk targets mk cm v Htk_res Hmk_res
                _ eq_refl Hv) as [Hm Hf].
    exists x, b, n, mask, filled.
    split; [exact (tensor_at_named _ _ _ _ Hfeat Hl) |].
    split; [exact Hb |]. split; [exact Hn |]. split; [exact Hmask |].
    split; [exact Hcopy |].
    rewrite !(tensor_at_same _ _ _ Hbatch Hstore). exact (conj Hm Hf).
Qed.

End in_place.

(** * C4: normalising what a head returns *)

Section shapes.

Lemma numel_app (s1 s2 : list nat) : numel (s1 ++ s2) = numel s1 * numel s2.
Proof.
  unfold numel. induction s1 as [| d s1 IH]; simpl; [lia |]. rewrite IH. lia.
Qed.

Lemma numel_snoc (s : list nat) d : numel (s ++ [d]) = numel s * d.
Proof. rewrite numel_app. unfold numel. simpl. lia. Qed.

Lemma norm_index_last n : norm_index (S n) (-1) = Some n.
Proof.
  unfold norm_index. simpl.
  destruct (Z.leb_spec (- Z.of_nat (S n)) (-1)) as [_ | ?]; [| lia].
  f_equal. lia.
Qed.

End shapes.

Section head_outputs.
Context {F : Type} {FO : FloatOps F} {G : Type} {RG : PyRandom F G}.
Implicit Types st : state F G.

Lemma module_getitem_run {A} (d : gmap string A) k a st :
  d !! k = Some a → module_getitem d (FStr k) st = (Ok a, st).
Proof. intros H. unfold module_getitem, module_get. by rewrite H. Qed.

Lemma size_last (x : tensor F) s d : shape x = s ++ [d] → size x (-1) = Ok d.
Proof.
  intros Hs. unfold size, dim. rewrite Hs, length_app. simpl.
  rewrite Nat.add_1_r, norm_index_last.
  by rewrite lookup_app_r, Nat.sub_diag.
Qed.

Lemma view_rows_last (x : tensor F) s d :
  shape x = s ++ [d] → d ≠ 0 → view_rows x d = Ok (Tensor [numel s; d] (data x)).
Proof.
  intros Hs Hd. unfold view_rows. rewrite Hs, numel_snoc.
  destruct (Nat.eqb_spec d 0) as [? | _]; [done |].
  rewrite Nat.Div0.mod_mul, Nat.eqb_refl. by rewrite Nat.div_mul.
Qed.

(** C4. [_process_head_outputs] returns a mapping with a [losses] entry as it
    is, the state untouched. Otherwise, for scores [x] (the output itself, or
    the [scores] entry of the mapping) of shape [s ++ [d]] with [d] not zero,
    the logits are the entries of [x] at shape [[numel s; d]]; the loss
    module registered under the dataset name is called once, on the batch and
    [{"scores": logits}], and the result is the mapping with exactly the
    entries [losses] (what the loss module returned) and [scores] (the
    logits); what the loss module raises is raised. *)
Theorem process_head_outputs_spec (dataset_name : field) (losses : gmap string (loss F))
    (outputs : output F) st :
  (is_mapping_with "losses" outputs = true →
     _process_head_outputs dataset_name losses outputs st = (Ok outputs, st))
  ∧ (∀ x s d name l,
       is_mapping_with "losses" outputs = false →
       outputs = OutTensor x
         ∨ (∃ m, outputs = OutMapping m ∧ m !! "scores" = Some (VTensor x)) →
       shape x = s ++ [d] → d ≠ 0 →
       dataset_name = FStr name → losses !! name = Some l →
       let logits := Tensor [numel s; d] (data x) in
       let scores : gmap string (oval F) := {[ "scores" := VTensor logits ]} in
       _process_head_outputs dataset_name losses outputs st
       = (match l (batch st) (store st) scores with
          | Ok o => Ok (OutMapping (<["losses" := VLosses o]> scores))
          | Raise e => Raise (Propagated "loss" e)
          end,
          add_call (CallLoss dataset_name logits) st)).
Proof.
  split.
  - intros Hl. unfold _process_head_outputs. by rewrite Hl.
  - intros x s d name l Hl Hout Hs Hd -> Hloss logits scores.
    unfold _process_head_outputs. rewrite Hl.
    assert ((match outputs with
             | OutTensor x => mret x
             | OutMapping m =>
                 match m !! "scores" with
                 | Some (VTensor x) => mret x
                 | _ => raise AttributeError
                 end
             end : M F G (tensor F)) st = (Ok x, st)) as Hlogits.
    { destruct Hout as [-> | (m & -> & Hm)]; [done |]. by rewrite Hm. }
    erewrite bind_ok; [| exact Hlogits].
    erewrite bind_ok; [| unfold lift; by rewrite (size_last x s d Hs)].
    erewrite bind_ok; [| unfold lift; by rewrite (view_rows_last x s d Hs Hd)].
    erewrite bind_ok; [| by apply module_getitem_run].
    erewrite bind_ok; [| done].
    erewrite bind_ok; [| done].
    cbn [fst snd]. fold logits. fold scores.
    unfold mbind, M_bind, bind, call. cbn [batch store add_call].
    by destruct (l (batch st) (store st) scores).
Qed.

End head_outputs.

(** * C7 and C3: the joint encoder's forward *)

Section encoder_base.
Context {F : Type} {FO : FloatOps F} {G : Type} {RG : PyRandom F G}.
Implicit Types st : state F G.

(** A run of [m ≫= k], by what the run of [m] gives. *)
Lemma bind_run {A B} (m : M F G A) (k : A → M F G B) st :
  (m ≫= k) st
  = match m st with
    | (Ok a, st1) => k a st1
    | (Raise e, st1) => (Raise e, st1)
    end.
Proof. unfold mbind, M_bind, bind. by destruct (m st) as [[] ?]. Qed.

(** The two [unsqueeze] calls on a mask of at least one dimension. *)
Lemma unsqueeze_1_2 (am : tensor F) a r :
  shape am = a :: r →
  rbind (unsqueeze am 1) (λ x, unsqueeze x 2) = Ok (Tensor (a :: 1 :: 1 :: r) (data am)).
Proof.
  destruct am as [sh d]. cbn [shape data]. intros ->.
  assert (unsqueeze (Tensor (a :: r) d) 1 = Ok (Tensor (a :: 1 :: r) d)) as ->.
  { unfold unsqueeze, dim, norm_index. cbn [shape data length].
    change (0 <=? 1)%Z with true. cbn match.
    by rewrite (proj2 (Z.ltb_lt 1 (Z.of_nat (S (S (length r))))) ltac:(lia)). }
  cbn [rbind]. unfold unsqueeze, dim, norm_index. cbn [shape data length].
  change (0 <=? 2)%Z with true. cbn match.
  by rewrite (proj2 (Z.ltb_lt 2 (Z.of_nat (S (S (S (length r)))))) ltac:(lia)).
Qed.

(** None of the three embedding paths records a call. *)
Lemma embedding_paths_same_calls (self : UniterModelBase.t F)
    input_ids position_ids img_feat img_pos_feat gather_index img_masks txt_type_ids
    img_type_ids :
  sat (G:=G) same_calls any_error
    (UniterModelBase._compute_img_embeddings self img_feat img_pos_feat img_masks
       img_type_ids)
  ∧ sat (G:=G) same_calls any_error
      (UniterModelBase._compute_txt_embeddings self input_ids position_ids txt_type_ids)
  ∧ sat (G:=G) same_calls any_error
      (UniterModelBase._compute_img_txt_embeddings self input_ids position_ids img_feat
         img_pos_feat gather_index img_masks txt_type_ids img_type_ids).
Proof. split_and!; sat_auto ltac:(done). Qed.

(** The biases [(1 - m) * -10000] of a 0/1 mask. *)
Lemma additive_mask_entries (ms : list Z) :
  fmul (fsub (of_Z 1) (of_Z 0)) (of_Z (-10000)) = of_Z (-10000) →
  fmul (fsub (of_Z 1) (of_Z 1)) (of_Z (-10000)) = of_Z 0 →
  Forall (λ m, m = 0 ∨ m = 1)%Z ms →
  map (λ v : F, fmul (fsub (of_Z 1) v) (of_Z (-10000))) (map of_Z ms)
  = map (λ m, if (m =? 0)%Z then of_Z (-10000) else of_Z 0) ms.
Proof.
  intros Hpad Hkeep Hms. rewrite map_map.
  induction Hms as [| m ms [-> | ->] _ IH]; simpl; [done | |]; by rewrite IH, ?Hpad, ?Hkeep.
Qed.

(** [forward] from its call to the encoder on (lines 210 to 217), after an
    embedding step that ended in [r], for the attention mask [mask]: what the
    embedding step raised is raised there; else the encoder is called once,
    on the embeddings and the mask, and its last layer, or all its layers,
    are returned. *)
Definition forward_encode (self : UniterModelBase.t F) (mask : tensor F)
    (output_hidden_states : bool) (r : result (tensor F) * state F G)
    : result (encoded F) * state F G :=
  match r with
  | (Raise e, st1) => (Raise e, st1)
  | (Ok embedding_output, st1) =>
      (match UniterModelBase.encoder self embedding_output mask output_hidden_states with
       | Raise e => Raise (Propagated "encoder" e)
       | Ok layers =>
           if output_hidden_states then Ok (Layers layers)
           else match last layers with
                | Some x => Ok (Last x)
                | None => Raise IndexError
                end
       end,
       add_call (CallEncoder embedding_output mask output_hidden_states) st1)
  end.

(** A run of [forward] on a mask of shape [a :: r]: the embedding step of
    the path the arguments select, then the encoder. *)
Lemma forward_run (self : UniterModelBase.t F)
    input_ids position_ids img_feat img_pos_feat (am : tensor F) gather_index img_masks
    output_hidden_states txt_type_ids img_type_ids st a r :
  shape am = a :: r →
  UniterModelBase.forward self input_ids position_ids img_feat img_pos_feat
    (Some am) gather_index img_masks output_hidden_states txt_type_ids img_type_ids st
  = forward_encode self (additive_mask (to_float (Tensor (a :: 1 :: 1 :: r) (data am))))
      output_hidden_states
      (match input_ids with
       | None =>
           UniterModelBase._compute_img_embeddings self img_feat img_pos_feat img_masks
             img_type_ids
       | Some ids =>
           match img_feat with
           | None =>
               UniterModelBase._compute_txt_embeddings self ids position_ids txt_type_ids
           | Some _ =>
               UniterModelBase._compute_img_txt_embeddings self ids position_ids img_feat
                 img_pos_feat gather_index img_masks txt_type_ids img_type_ids
           end
       end st).
Proof.
  intros Hshape. pose proof (unsqueeze_1_2 am a r Hshape) as Hun.
  destruct (unsqueeze am 1) as [am1 |] eqn:H1; [| done]. cbn [rbind] in Hun.
  unfold UniterModelBase.forward.
  erewrite bind_ok; [| done].
  erewrite bind_ok; [| unfold lift; by rewrite H1].
  erewrite bind_ok; [| unfold lift; by rewrite Hun].
  cbv zeta. rewrite bind_run. unfold forward_encode.
  match goal with |- context [ match ?path st with _ => _ end ] =>
    destruct (path st) as [[emb | e] st1]
  end; [| done].
  erewrite bind_ok; [| done]. rewrite bind_run. unfold call.
  destruct (UniterModelBase.encoder self emb _ output_hidden_states) as [layers | e];
    [| done].
  destruct output_hidden_states; [done |]. by destruct (last layers).
Qed.

(** C7. Let the padding mask have shape [[b; s]] and entries 0 or 1, and let
    the floating-point arithmetic give [(1 - 0) * -10000 = -10000] and
    [(1 - 1) * -10000 = 0]. Whatever arguments select the embedding path, a
    run of the joint encoder's [forward] is the run of that path's embedding
    step, which records no call, followed by the encoder: if the embedding
    step raises, [forward] raises the same there and the encoder is not
    called; if it returns embeddings, the encoder is called once, on them and
    on the attention mask of shape [[b; 1; 1; s]] whose entry is -10000 where
    the padding mask is 0 and 0 where it is 1, and [forward] returns what the
    encoder returned for that mask. *)
Theorem forward_attention_mask (self : UniterModelBase.t F)
    input_ids position_ids img_feat img_pos_feat (am : tensor F) gather_index img_masks
    output_hidden_states txt_type_ids img_type_ids st b s (ms : list Z) :
  fmul (fsub (of_Z 1) (of_Z 0)) (of_Z (-10000)) = of_Z (-10000) →
  fmul (fsub (of_Z 1) (of_Z 1)) (of_Z (-10000)) = of_Z 0 →
  shape am = [b; s] → float_entries (data am) = map of_Z ms →
  Forall (λ m, m = 0 ∨ m = 1)%Z ms →
  let bias := Tensor [b; 1; 1; s]
                (DFloat (map (λ m, if (m =? 0)%Z then of_Z (-10000) else of_Z 0) ms)) in
  let embedding_step :=
    match input_ids with
    | None =>
        UniterModelBase._compute_img_embeddings self img_feat img_pos_feat img_masks
          img_type_ids
    | Some ids =>
        match img_feat with
        | None => UniterModelBase._compute_txt_embeddings self ids position_ids txt_type_ids
        | Some _ =>
            UniterModelBase._compute_img_txt_embeddings self ids position_ids img_feat
              img_pos_feat gather_index img_masks txt_type_ids img_type_ids
        end
    end in
  UniterModelBase.forward self input_ids position_ids img_feat img_pos_feat
    (Some am) gather_index img_masks output_hidden_states txt_type_ids img_type_ids st
  = match embedding_step st with
    | (Raise e, st1) => (Raise e, st1)
    | (Ok embedding_output, st1) =>
        (match UniterModelBase.encoder self embedding_output bias output_hidden_states with
         | Raise e => Raise (Propagated "encoder" e)
         | Ok layers =>
             if output_hidden_states then Ok (Layers layers)
             else match last layers with
                  | Some x => Ok (Last x)
                  | None => Raise IndexError
                  end
         end,
         add_call (CallEncoder embedding_output bias output_hidden_states) st1)
    end
  ∧ calls (embedding_step st).2 = calls st.
Proof.
  intros Hpad Hkeep Hshape Hentries Hms bias embedding_step.
  assert (additive_mask (to_float (Tensor [b; 1; 1; s] (data am))) = bias) as Hbias.
  { unfold additive_mask, to_float, bias. cbn [shape data float_entries].
    by rewrite Hentries, additive_mask_entries. }
  split.
  - rewrite (forward_run self input_ids position_ids img_feat img_pos_feat am gather_index
               img_masks output_hidden_states txt_type_ids img_type_ids st b [s] Hshape).
    by rewrite Hbias.
  - assert (sat (G:=G) same_calls any_error embedding_step) as Hsat.
    { destruct (embedding_paths_same_calls self (default am input_ids) position_ids img_feat
        img_pos_feat gather_index img_masks txt_type_ids img_type_ids) as (? & ? & ?).
      subst embedding_step. destruct input_ids as [ids |]; [destruct img_feat |]; done. }
    pose proof (sat_state _ _ _ st Hsat) as Hcalls.
    by destruct (embedding_step st) as [[emb | e] st1].
Qed.

(** [torch.cat] along dimension 1 of a text block and an image block: per
    example, the text rows followed by the image rows. *)
Lemma cat_sequence (b t n h : nat) (xs ys : list F) :
  cat (Tensor [b; t; h] (DFloat xs)) (Tensor [b; n; h] (DFloat ys)) 1
  = Ok (Tensor [b; t + n; h]
          (DFloat (concat (zip_with app (chunks (t * h) b xs) (chunks (n * h) b ys))))).
Proof.
  unfold cat. cbn [shape data].
  rewrite (bool_decide_false ([b; t; h] = [0])) by done.
  rewrite (bool_decide_false ([b; n; h] = [0])) by done.
  change (norm_index (dim (Tensor [b; t; h] (DFloat xs))) 1) with (Some 1).
  cbn [lookup list_lookup insert list_insert lift_data2].
  rewrite bool_decide_true by done.
  unfold cat_data, numel. cbn [take drop foldr]. by rewrite !Nat.mul_1_r.
Qed.

(** The image type ids of the specification: those supplied; when none are
    supplied, for image features of shape [(b, n, d, ...)] with [d > 0], the
    long tensor of ones of shape [(b, n, ...)]. *)
Definition spec_img_type_ids (img_feat img_type_ids : option (tensor F))
    : option (tensor F) :=
  match img_type_ids with
  | Some ids => Some ids
  | None =>
      match img_feat with
      | Some x =>
          match shape x with
          | b :: n :: S d :: rest => Some (const_long (b :: n :: rest) 1)
          | _ => None
          end
      | None => None
      end
  end.

(** [_compute_img_embeddings] hands the type ids of the specification to the
    token type embeddings, and their result to the image embedding unit. *)
Lemma compute_img_embeddings_run (self : UniterModelBase.t F)
    img_feat img_pos_feat img_masks img_type_ids tids st :
  spec_img_type_ids img_feat img_type_ids = Some tids →
  UniterModelBase._compute_img_embeddings self img_feat img_pos_feat img_masks
    img_type_ids st
  = (type_embeddings ← call "token_type_embeddings"
                         (UniterModelBase.token_type_embeddings self tids);
     UniterImageEmbeddings.forward (UniterModelBase.img_embeddings self) img_feat
       img_pos_feat type_embeddings img_masks) st.
Proof.
  unfold spec_img_type_ids, UniterModelBase._compute_img_embeddings.
  destruct img_type_ids as [ids |]; [by intros [= ->] |].
  destruct img_feat as [x |]; [| done].
  destruct (shape x) as [| b [| n [| [| d] rest]]] eqn:Hx; try done. intros [= <-].
  erewrite (bind_ok _ _ st (const_long (b :: n :: rest) 1) st); [done |].
  erewrite bind_ok; [| done].
  erewrite bind_ok; [| unfold lift, select_dim2_0; by rewrite Hx]. done.
Qed.

(** C3. A run of the joint encoder's [forward], on a mask of shape
    [a :: r], computes embeddings and then calls the encoder on them, as
    [forward_encode] says. The embeddings are: without [input_ids], what the
    image embedding unit returns for the image features, the position
    features, the masks and the token type embeddings of the image type ids;
    with [input_ids] and without [img_feat], what the text embedding layer
    returns for the input ids, the position ids and the text type ids; with
    both, the text embeddings, computed first, and the image embeddings,
    joined by [torch.cat] along dimension 1, the text first, whatever
    [gather_index] is. The image type ids are those supplied or else all
    ones, one for each region ([spec_img_type_ids]). Along dimension 1 the
    joined tensor holds, for each example, the text rows and then the image
    rows. *)
Theorem forward_embedding_path (self : UniterModelBase.t F)
    input_ids position_ids img_feat img_pos_feat (am : tensor F) gather_index img_masks
    output_hidden_states txt_type_ids img_type_ids st a r :
  shape am = a :: r →
  let mask := additive_mask (to_float (Tensor (a :: 1 :: 1 :: r) (data am))) in
  let run := UniterModelBase.forward self input_ids position_ids img_feat img_pos_feat
               (Some am) gather_index img_masks output_hidden_states txt_type_ids
               img_type_ids st in
  let text (ids : tensor F) : M F G (tensor F) :=
    call "embeddings" (UniterModelBase.embeddings self ids position_ids txt_type_ids) in
  let image (tids : tensor F) : M F G (tensor F) :=
    type_embeddings ← call "token_type_embeddings"
                        (UniterModelBase.token_type_embeddings self tids);
    UniterImageEmbeddings.forward (UniterModelBase.img_embeddings self) img_feat
      img_pos_feat type_embeddings img_masks in
  (∀ tids, input_ids = None → spec_img_type_ids img_feat img_type_ids = Some tids →
     run = forward_encode self mask output_hidden_states (image tids st))
  ∧ (∀ ids, input_ids = Some ids → img_feat = None →
       run = forward_encode self mask output_hidden_states (text ids st))
  ∧ (∀ ids tids, input_ids = Some ids → is_Some img_feat →
       spec_img_type_ids img_feat img_type_ids = Some tids →
       run = forward_encode self mask output_hidden_states
               ((txt_emb ← text ids;
                 img_emb ← image tids;
                 lift (cat txt_emb img_emb 1)) st))
  ∧ (∀ b t n h (xs ys : list F),
       cat (Tensor [b; t; h] (DFloat xs)) (Tensor [b; n; h] (DFloat ys)) 1
       = Ok (Tensor [b; t + n; h]
               (DFloat (concat (zip_with app (chunks (t * h) b xs) (chunks (n * h) b ys)))))).
Proof.
  intros Hshape mask run text image.
  pose proof (forward_run self input_ids position_ids img_feat img_pos_feat am
    gather_index img_masks output_hidden_states txt_type_ids img_type_ids st a r Hshape)
    as H.
  fold run mask in H. split_and!.
  - intros tids -> Hids. rewrite H. f_equal.
    exact (compute_img_embeddings_run self img_feat img_pos_feat img_masks img_type_ids
             tids st Hids).
  - by intros ids -> ->.
  - intros ids tids -> [x ->] Hids. rewrite H. f_equal.
    unfold UniterModelBase._compute_img_txt_embeddings.
    rewrite !(bind_run (UniterModelBase._compute_txt_embeddings self ids position_ids
                          txt_type_ids)).
    unfold UniterModelBase._compute_txt_embeddings. fold (text ids).
    destruct (text ids st) as [[txt | e] st1]; [| done].
    rewrite !(bind_run _ _ st1).
    by rewrite (compute_img_embeddings_run self (Some x) img_pos_feat img_masks
                  img_type_ids tids st1 Hids).
  - apply cat_sequence.
Qed.

End encoder_base.

(** * C8: the mask embedding of the image embedding unit *)

Section blocks_lemmas.
Context {A : Type}.
Implicit Types l : list A.

Lemma concat_chunks k n l : length l ≤ n * k → concat (chunks k n l) = l.
Proof.
  revert l. induction n as [| n IH]; intros l Hl; simpl in *.
  - destruct l; [done | simpl in Hl; lia].
  - rewrite IH; [apply take_drop |]. rewrite length_drop. lia.
Qed.

Lemma chunks_length_le k n l : Forall (λ c, length c ≤ k) (chunks k n l).
Proof.
  revert l. induction n as [| n IH]; intros l; simpl; constructor; [| done].
  rewrite length_take. lia.
Qed.

Lemma expand_data_same (s : list nat) l : length l ≤ numel s → expand_data s s l = l.
Proof.
  revert l. induction s as [| d s IH]; intros l Hl; [done |].
  simpl. rewrite Nat.eqb_refl.
  assert (map (expand_data s s) (chunks (numel s) d l) = chunks (numel s) d l) as ->.
  { rewrite <- (map_id (chunks (numel s) d l)) at 2.
    apply Forall_fmap_ext_1. eapply Forall_impl; [apply chunks_length_le |].
    intros c Hc. by apply IH. }
  apply concat_chunks. exact Hl.
Qed.

Lemma broadcast_dims_same (s : list nat) : broadcast_dims s s = Some s.
Proof. induction s as [| d s IH]; [done |]. simpl. by rewrite IH, Nat.eqb_refl. Qed.

Lemma broadcast_shapes_same (s : list nat) : broadcast_shapes s s = Some s.
Proof.
  unfold broadcast_shapes. rewrite Nat.max_id, pad_shape_same by done.
  apply broadcast_dims_same.
Qed.

End blocks_lemmas.

Section image_embeddings.
Context {F : Type} {FO : FloatOps F} {G : Type} {RG : PyRandom F G}.
Implicit Types st : state F G.

(** [expand] to the tensor's own shape gives the tensor. *)
Lemma expand_same (s : list nat) (xs : list F) :
  length xs ≤ numel s → expand (Tensor s (DFloat xs)) s = Ok (Tensor s (DFloat xs)).
Proof.
  intros Hl. unfold expand. cbn [shape data lift_data].
  rewrite pad_shape_same by done. rewrite expandable_refl.
  by rewrite expand_data_same.
Qed.

(** The sum of two floating-point tensors of the same shape. *)
Lemma add_float_same (s : list nat) (xs ys : list F) :
  length xs ≤ numel s → length ys ≤ numel s →
  add_float (Tensor s (DFloat xs)) (Tensor s (DFloat ys))
  = Ok (Tensor s (DFloat (zip_with fadd xs ys))).
Proof.
  intros Hx Hy. unfold add_float. cbn [shape]. rewrite broadcast_shapes_same.
  unfold to_float. cbn [shape data float_entries].
  by rewrite !expand_same.
Qed.

(** The lookup of a 0/1 index in a table of two rows. *)
Lemma embedding_rows_bits (z r1 : list F) (bits : list bool) :
  embedding_rows [z; r1] (map (λ b : bool, if b then 1%Z else 0%Z) bits)
  = Ok (map (λ b : bool, if b then r1 else z) bits).
Proof.
  induction bits as [| bit bits IH]; [done |].
  unfold embedding_rows in *. cbn [map fmap list_fmap foldr]. rewrite IH. by destruct bit.
Qed.

(** A row plus a row of zeros. *)
Lemma zip_with_fadd_zero (row : list F) d :
  (∀ v, fadd v (of_Z 0) = v) → length row ≤ d →
  zip_with fadd row (replicate d (of_Z 0)) = row.
Proof.
  intros Hzero. revert d. induction row as [| v row IH]; intros d Hd; [done |].
  destruct d as [| d]; simpl in *; [lia |]. rewrite Hzero, IH; [done | lia].
Qed.

(** Adding the looked-up rows, block by block. *)
Lemma add_rows (r1 : list F) d (bits : list bool) (xs : list F) :
  (∀ v, fadd v (of_Z 0) = v) → length r1 = d → length xs = length bits * d →
  zip_with fadd xs (concat (map (λ b : bool, if b then r1 else replicate d (of_Z 0)) bits))
  = concat (zip_with (λ (bit : bool) row, if bit then zip_with fadd row r1 else row)
              bits (chunks d (length bits) xs)).
Proof.
  intros Hzero Hr1. revert xs. induction bits as [| bit bits IH]; intros xs Hxs.
  - simpl. by destruct xs.
  - simpl in *. rewrite <- (take_drop d xs) at 1.
    rewrite zip_with_app; last first.
    { rewrite length_take. destruct bit; [| rewrite length_replicate]; lia. }
    rewrite IH by (rewrite length_drop; lia). f_equal.
    destruct bit; [done |]. apply zip_with_fadd_zero; [done |]. rewrite length_take. lia.
Qed.

(** Steps 2 to 4 of the unit: project the region features and the position
    features, normalise each, add them and the type embedding, normalise and
    apply dropout; what a layer raises is marked with the layer. *)
Definition from_layer {A} (origin : string) (r : result A) : result A :=
  match r with Ok a => Ok a | Raise e => Raise (Propagated origin e) end.

Definition features_embedding (self : UniterImageEmbeddings.t F)
    (img_feat img_pos_feat type_embeddings : tensor F) : result (tensor F) :=
  rbind (from_layer "img_linear" (UniterImageEmbeddings.img_linear self img_feat)) (λ y,
  rbind (from_layer "img_layer_norm" (UniterImageEmbeddings.img_layer_norm self y))
    (λ transformed_im,
  rbind (from_layer "pos_linear" (UniterImageEmbeddings.pos_linear self img_pos_feat)) (λ q,
  rbind (from_layer "pos_layer_norm" (UniterImageEmbeddings.pos_layer_norm self q))
    (λ transformed_pos,
  rbind (add_float transformed_im transformed_pos) (λ e,
  rbind (add_float e type_embeddings) (λ embeddings,
  rbind (from_layer "final_layer_norm"
           (UniterImageEmbeddings.final_layer_norm self embeddings)) (λ embeddings,
  from_layer "dropout" (UniterImageEmbeddings.dropout self embeddings)))))))).

Lemma forward_unmasked (self : UniterImageEmbeddings.t F) x p te st :
  UniterImageEmbeddings.forward self (Some x) (Some p) te None st
  = (features_embedding self x p te, st).
Proof.
  unfold UniterImageEmbeddings.forward, features_embedding.
  erewrite bind_ok; [| done]. erewrite bind_ok; [| done].
  rewrite bind_run. unfold call at 1.
  destruct (UniterImageEmbeddings.img_linear self x) as [y |]; [| done]. cbn [from_layer rbind].
  rewrite bind_run. unfold call at 1.
  destruct (UniterImageEmbeddings.img_layer_norm self y) as [im |]; [| done].
  cbn [from_layer rbind]. erewrite bind_ok; [| done].
  rewrite bind_run. unfold call at 1.
  destruct (UniterImageEmbeddings.pos_linear self p) as [q |]; [| done]. cbn [from_layer rbind].
  rewrite bind_run. unfold call at 1.
  destruct (UniterImageEmbeddings.pos_layer_norm self q) as [pos |]; [| done].
  cbn [from_layer rbind]. rewrite bind_run. unfold lift at 1.
  destruct (add_float im pos) as [e |]; [| done]. cbn [rbind].
  rewrite bind_run. unfold lift at 1.
  destruct (add_float e te) as [emb |]; [| done]. cbn [rbind].
  rewrite bind_run. unfold call at 1.
  destruct (UniterImageEmbeddings.final_layer_norm self emb) as [emb' |]; [| done].
  cbn [from_layer rbind]. unfold call, from_layer.
  by destruct (UniterImageEmbeddings.dropout self emb').
Qed.

(** C8. Let the features be a well-formed floating-point tensor of shape
    [[b; n; d]], the mask a boolean tensor of shape [[b; n]], the table of
    [mask_embedding] two rows [r0] and [r1] of [d] entries, and let adding
    zero change no entry. With the mask, [forward] first writes zeros over
    row 0 of the table, and goes on as it does without a mask on the features
    in which row [r1] has been added to the feature vector of every position
    where the mask is true, the others as they were. Without a mask the state
    is untouched and the features go through the layers as they are. *)
Theorem image_embeddings_mask (self : UniterImageEmbeddings.t F)
    img_pos_feat type_embeddings st b n d (xs r0 r1 : list F) (bits : list bool) :
  (∀ v, fadd v (of_Z 0) = v) →
  length xs = b * n * d → length bits = b * n →
  mask_embedding_weight st = Tensor [2; d] (DFloat (r0 ++ r1)) →
  length r0 = d → length r1 = d →
  let zeroed := Tensor [2; d] (DFloat (replicate d (of_Z 0) ++ r1)) in
  let added := concat (zip_with (λ (bit : bool) row, if bit then zip_with fadd row r1 else row)
                         bits (chunks d (b * n) xs)) in
  UniterImageEmbeddings.forward self (Some (Tensor [b; n; d] (DFloat xs))) img_pos_feat
    type_embeddings (Some (Tensor [b; n] (DBool bits))) st
  = UniterImageEmbeddings.forward self (Some (Tensor [b; n; d] (DFloat added))) img_pos_feat
      type_embeddings None (set_weight zeroed st)
  ∧ (∀ x p st0,
       UniterImageEmbeddings.forward self (Some x) (Some p) type_embeddings None st0
       = (features_embedding self x p type_embeddings, st0)).
Proof.
  intros Hzero Hxs Hbits Hw Hr0 Hr1 zeroed added. split; [| intros; apply forward_unmasked].
  unfold UniterImageEmbeddings.forward.
  erewrite (bind_ok _ _ st (Some (Tensor [b; n; d] (DFloat added))) (set_weight zeroed st)).
  { symmetry. by erewrite bind_ok. }
  erewrite bind_ok; [| done].
  erewrite bind_ok; last first.
  { unfold lift, fill_row0. rewrite Hw. cbn [shape data drop numel foldr].
    rewrite Nat.mul_1_r. rewrite drop_app_length' by done. reflexivity. }
  erewrite bind_ok; [| done]. fold zeroed.
  erewrite bind_ok; last first.
  { unfold lift, embedding, zeroed, to_long. cbn [shape data chunks].
    rewrite take_app_length' by (by rewrite length_replicate).
    rewrite drop_app_length' by (by rewrite length_replicate).
    rewrite take_ge by lia. rewrite embedding_rows_bits. reflexivity. }
  erewrite bind_ok; [| done].
  erewrite bind_ok; last first.
  { unfold lift. cbn [app]. rewrite add_float_same.
    - reflexivity.
    - unfold numel. simpl. lia.
    - rewrite length_concat, sum_list_fmap_same with (n := d).
      + rewrite length_map. unfold numel. simpl. nia.
      + apply Forall_map, Forall_forall. intros [] _; simpl; [done |].
        apply length_replicate. }
  unfold mret, M_ret, ret. do 5 f_equal. unfold added. rewrite <- Hbits.
  apply add_rows; [done | done | lia].
Qed.

End image_embeddings.

(** * The theorems on a small batch *)

(** The batch of [Demo]: two examples of two tokens and two regions, the
    second caption a mismatched one; floating-point numbers are rationals and
    the random generator is a counter. *)

Section examples.
#[local] Existing Instance Demo.Q_float.
#[local] Existing Instance Demo.counter_random.

(** The batch of [Demo] without its [is_correct] field. *)
Definition no_is_correct (task : string) : state Q nat :=
  set_batch (delete "is_correct") (Demo.start task).

(** On the mlm batch, whose second caption is mismatched, [input_ids] still
    has both examples after common preprocessing, where the filter by
    [is_correct] keeps the first only. *)
Lemma mismatched_captions_not_removed_witness :
  tensor_at (Demo.start "mlm") "is_correct" = Some (Tensor [2] (DLong [1; 0]%Z))
  ∧ tensor_at
      (UniterForPretraining._process_sample_list_for_pretraining (Demo.model None)
         (Demo.start "mlm")).2 "input_ids"
    = Some (Tensor [2; 2] (DLong [1; 2; 3; 4]%Z))
  ∧ index_mask (F:=Q) (Tensor [2; 2] (DLong [1; 2; 3; 4]%Z))
      (Tensor [2] (DBool [true; false]))
    = Ok (Tensor [1; 2] (DLong [1; 2]%Z)).
Proof.
  split; [vm_compute; reflexivity |]. split; [| vm_compute; reflexivity].
  destruct (proj2 (mismatched_captions_not_removed (Demo.model None) (Demo.start "mlm"))
              (FStr "mlm") _ _ eq_refl eq_refl (surjective_pairing _)) as [Hb Hs].
  unfold tensor_at. rewrite Hb, Hs. vm_compute. reflexivity.
Defined.

(** With mask probability 0 on the mrc batch. *)
Lemma add_image_feat_masked_mask_witness :
  ∃ rows st1,
    UniterForPretraining._add_image_feat_masked (Demo.model (Some 0%Q)) (Demo.start "mrc")
    = (Ok (), st1)
    ∧ tensor_at st1 "image_mask" = Some (Tensor [2; 2] (DBool (concat rows)))
    ∧ length rows = 2
    ∧ Forall (λ row, length row = 2 ∧ true ∈ row) rows.
Proof.
  apply (add_image_feat_masked_mask (Demo.model (Some 0%Q)) (Demo.start "mrc") 2
           (Tensor [2; 2; 2] (DFloat [1; 2; 3; 4; 5; 6; 7; 8]%Q)) 2 2 2).
  - intros k g Hk. simpl. apply Nat.mod_upper_bound. lia.
  - vm_compute. reflexivity.
  - vm_compute. reflexivity.
  - reflexivity.
  - lia.
  - lia.
Defined.

(** Without [is_correct] the mlm batch is refused, nothing recorded; with it,
    that assertion does not fail. *)
Lemma forward_is_correct_assertion_witness :
  UniterForPretraining.forward (Demo.model None) (no_is_correct "mlm")
  = (Raise (AssertionError UniterForPretraining.is_correct_msg), no_is_correct "mlm")
  ∧ (UniterForPretraining.forward (Demo.model None) (Demo.start "mlm")).1
    ≠ Raise (AssertionError UniterForPretraining.is_correct_msg).
Proof.
  split.
  - apply (proj1 (forward_is_correct_assertion (Demo.model None) (no_is_correct "mlm"))).
    vm_compute. reflexivity.
  - apply (proj2 (forward_is_correct_assertion (Demo.model None) (Demo.start "mlm"))).
    vm_compute. eexists. reflexivity.
Defined.

(** A task that is none of the five, and the task itm. *)
Lemma forward_dispatch_witness :
  (∃ r1 st1,
     UniterForPretraining._process_sample_list_for_pretraining (Demo.model None)
       (Demo.start "vqa") = (r1, st1)
     ∧ calls st1 = calls (Demo.start "vqa") ++ [Enter "_process_sample_list_for_pretraining"]
     ∧ match r1, task_routine (FStr "vqa") with
       | Raise e, _ =>
           UniterForPretraining.forward (Demo.model None) (Demo.start "vqa") = (Raise e, st1)
       | Ok _, None =>
           UniterForPretraining.forward (Demo.model None) (Demo.start "vqa")
           = (Raise (ValueError ("Task " +:+ UniterForPretraining.show_field (FStr "vqa")
                                 +:+ " is not supported for pretraining!")), st1)
       | Ok _, Some r =>
           routines (calls (UniterForPretraining.forward (Demo.model None)
                              (Demo.start "vqa")).2)
           = routines (calls (Demo.start "vqa"))
             ++ ["_process_sample_list_for_pretraining"; r]
       end)
  ∧ (∃ r1 st1,
       UniterForPretraining._process_sample_list_for_pretraining (Demo.model None)
         (Demo.start "itm") = (r1, st1)
       ∧ calls st1 = calls (Demo.start "itm") ++ [Enter "_process_sample_list_for_pretraining"]
       ∧ match r1, task_routine (FStr "itm") with
         | Raise e, _ =>
             UniterForPretraining.forward (Demo.model None) (Demo.start "itm") = (Raise e, st1)
         | Ok _, None =>
             UniterForPretraining.forward (Demo.model None) (Demo.start "itm")
             = (Raise (ValueError ("Task " +:+ UniterForPretraining.show_field (FStr "itm")
                                   +:+ " is not supported for pretraining!")), st1)
         | Ok _, Some r =>
             routines (calls (UniterForPretraining.forward (Demo.model None)
                                (Demo.start "itm")).2)
             = routines (calls (Demo.start "itm"))
               ++ ["_process_sample_list_for_pretraining"; r]
         end).
Proof.
  split.
  - apply (forward_dispatch (Demo.model None) (Demo.start "vqa") (FStr "vqa")).
    + vm_compute. eexists. reflexivity.
    + vm_compute. reflexivity.
  - apply (forward_dispatch (Demo.model None) (Demo.start "itm") (FStr "itm")).
    + vm_compute. eexists. reflexivity.
    + vm_compute. reflexivity.
Defined.

(** The arguments of the joint encoder for the batch of [Demo]. *)
Definition demo_ids : tensor Q := Tensor [2; 2] (DLong [1; 2; 3; 4]%Z).
Definition demo_pos : tensor Q := Tensor [1; 2] (DLong [0; 1]%Z).
Definition demo_feat : tensor Q := Tensor [2; 2; 2] (DFloat [1; 2; 3; 4; 5; 6; 7; 8]%Q).
Definition demo_pos_feat : tensor Q := Tensor [2; 2; 2] (DFloat [0; 0; 0; 0; 0; 0; 0; 0]%Q).
Definition demo_attention : tensor Q := Tensor [2; 4] (DLong [1; 1; 1; 0; 1; 1; 1; 1]%Z).

(** The attention mask of the batch of [Demo] as the encoder gets it: the
    fourth position of the first example is padding. *)
Definition demo_bias : tensor Q :=
  Tensor [2; 1; 1; 4] (DFloat [0; 0; 0; (-10000); 0; 0; 0; 0]%Q).

(** The embeddings of the batch of [Demo], whose embedding layers turn the id
    [i] into the row [(i, 0)] and whose other layers change nothing: of the
    regions with type id 1, of the tokens, of both, and of both with the type
    ids 0 supplied. *)
Definition demo_image_embedding : tensor Q :=
  Tensor [2; 2; 2] (DFloat [2; 2; 4; 4; 6; 6; 8; 8]%Q).

Definition demo_text_embedding : tensor Q :=
  Tensor [2; 2; 2] (DFloat [1; 0; 2; 0; 3; 0; 4; 0]%Q).

Definition demo_joint_embedding : tensor Q :=
  Tensor [2; 4; 2] (DFloat [1; 0; 2; 0; 2; 2; 4; 4; 3; 0; 4; 0; 6; 6; 8; 8]%Q).

Definition demo_joint_embedding_type_0 : tensor Q :=
  Tensor [2; 4; 2] (DFloat [1; 0; 2; 0; 1; 2; 3; 4; 3; 0; 4; 0; 5; 6; 7; 8]%Q).

(** The three paths on the batch of [Demo], with the type ids left out, and
    the joint path with the type ids 0 supplied: what the encoder is called
    on, and what [forward] returns. *)
Lemma forward_embedding_path_witness :
  spec_img_type_ids (Some demo_feat) None = Some (Tensor [2; 2] (DLong [1; 1; 1; 1]%Z))
  ∧ UniterModelBase.forward Demo.base None None (Some demo_feat) (Some demo_pos_feat)
      (Some demo_attention) None None false None None (Demo.start "itm")
    = (Ok (Last demo_image_embedding),
       add_call (CallEncoder demo_image_embedding demo_bias false) (Demo.start "itm"))
  ∧ UniterModelBase.forward Demo.base (Some demo_ids) (Some demo_pos) None None
      (Some demo_attention) None None false None None (Demo.start "itm")
    = (Ok (Last demo_text_embedding),
       add_call (CallEncoder demo_text_embedding demo_bias false) (Demo.start "itm"))
  ∧ UniterModelBase.forward Demo.base (Some demo_ids) (Some demo_pos) (Some demo_feat)
      (Some demo_pos_feat) (Some demo_attention) (Some demo_ids) None false None None
      (Demo.start "itm")
    = (Ok (Last demo_joint_embedding),
       add_call (CallEncoder demo_joint_embedding demo_bias false) (Demo.start "itm"))
  ∧ UniterModelBase.forward Demo.base (Some demo_ids) (Some demo_pos) (Some demo_feat)
      (Some demo_pos_feat) (Some demo_attention) None None false None
      (Some (Tensor [2; 2] (DLong [0; 0; 0; 0]%Z))) (Demo.start "itm")
    = (Ok (Last demo_joint_embedding_type_0),
       add_call (CallEncoder demo_joint_embedding_type_0 demo_bias false)
         (Demo.start "itm")).
Proof.
  split; [reflexivity |]. split_and!.
  - pose proof (forward_embedding_path Demo.base None None (Some demo_feat)
                  (Some demo_pos_feat) demo_attention None None false None None
                  (Demo.start "itm") 2 [4] eq_refl) as H.
    cbv zeta in H. destruct H as (H & _).
    etrans; [exact (H (Tensor [2; 2] (DLong [1; 1; 1; 1]%Z)) eq_refl eq_refl) |].
    vm_compute. reflexivity.
  - pose proof (forward_embedding_path Demo.base (Some demo_ids) (Some demo_pos) None None
                  demo_attention None None false None None (Demo.start "itm") 2 [4]
                  eq_refl) as H.
    cbv zeta in H. destruct H as (_ & H & _).
    etrans; [exact (H demo_ids eq_refl eq_refl) |].
    vm_compute. reflexivity.
  - pose proof (forward_embedding_path Demo.base (Some demo_ids) (Some demo_pos)
                  (Some demo_feat) (Some demo_pos_feat) demo_attention (Some demo_ids) None
                  false None None (Demo.start "itm") 2 [4] eq_refl) as H.
    cbv zeta in H. destruct H as (_ & _ & H & _).
    etrans; [exact (H demo_ids (Tensor [2; 2] (DLong [1; 1; 1; 1]%Z)) eq_refl
                      (ex_intro _ demo_feat eq_refl) eq_refl) |].
    vm_compute. reflexivity.
  - pose proof (forward_embedding_path Demo.base (Some demo_ids) (Some demo_pos)
                  (Some demo_feat) (Some demo_pos_feat) demo_attention None None
                  false None (Some (Tensor [2; 2] (DLong [0; 0; 0; 0]%Z)))
                  (Demo.start "itm") 2 [4] eq_refl) as H.
    cbv zeta in H. destruct H as (_ & _ & H & _).
    etrans; [exact (H demo_ids (Tensor [2; 2] (DLong [0; 0; 0; 0]%Z)) eq_refl
                      (ex_intro _ demo_feat eq_refl) eq_refl) |].
    vm_compute. reflexivity.
Defined.

(** A mapping with losses, and scores of shape (2, 2, 2). *)
Lemma process_head_outputs_spec_witness :
  _process_head_outputs (FStr "test") {[ "test" := Demo.zero_loss ]}
    (OutMapping {[ "losses" := VLosses ∅ ]}) (Demo.start "itm")
  = (Ok (OutMapping {[ "losses" := VLosses ∅ ]}), Demo.start "itm")
  ∧ _process_head_outputs (FStr "test") {[ "test" := Demo.zero_loss ]} (OutTensor demo_feat)
      (Demo.start "itm")
    = (Ok (OutMapping
             (<["losses" := VLosses {[ "test/test/loss" := Tensor [] (DFloat [0%Q]) ]}]>
                {[ "scores" := VTensor (Tensor [4; 2] (data demo_feat)) ]})),
       add_call (CallLoss (FStr "test") (Tensor [4; 2] (data demo_feat))) (Demo.start "itm")).
Proof.
  split.
  - apply (proj1 (process_head_outputs_spec (FStr "test") {[ "test" := Demo.zero_loss ]}
                    (OutMapping {[ "losses" := VLosses ∅ ]}) (Demo.start "itm"))).
    vm_compute. reflexivity.
  - apply (proj2 (process_head_outputs_spec (FStr "test") {[ "test" := Demo.zero_loss ]}
                    (OutTensor demo_feat) (Demo.start "itm"))
             demo_feat [2; 2] 2 "test" Demo.zero_loss).
    + reflexivity.
    + left. reflexivity.
    + reflexivity.
    + lia.
    + reflexivity.
    + vm_compute. reflexivity.
Defined.

(** The batch of [Demo] on the joint path: the encoder is called once, on
    the joint embeddings and the mask with -10000 at the padded position.
    Without input ids and image features the embedding step raises, and so
    does [forward], no call recorded. *)
Lemma forward_attention_mask_witness :
  UniterModelBase.forward Demo.base (Some demo_ids) (Some demo_pos) (Some demo_feat)
    (Some demo_pos_feat) (Some demo_attention) None None false None None
    (Demo.start "itm")
  = (Ok (Last demo_joint_embedding),
     add_call (CallEncoder demo_joint_embedding demo_bias false) (Demo.start "itm"))
  ∧ UniterModelBase.forward Demo.base None None None (Some demo_pos_feat)
      (Some demo_attention) None None false None None (Demo.start "itm")
    = (Raise TypeError, Demo.start "itm").
Proof.
  assert (Forall (λ m, m = 0 ∨ m = 1)%Z [1; 1; 1; 0; 1; 1; 1; 1]%Z) as Hms.
  { repeat constructor; lia. }
  split.
  - pose proof (forward_attention_mask Demo.base (Some demo_ids) (Some demo_pos)
                  (Some demo_feat) (Some demo_pos_feat) demo_attention None None false
                  None None (Demo.start "itm") 2 4 [1; 1; 1; 0; 1; 1; 1; 1]%Z
                  eq_refl eq_refl eq_refl eq_refl Hms) as H.
    cbv zeta in H. destruct H as [H _].
    etrans; [exact H |]. vm_compute. reflexivity.
  - pose proof (forward_attention_mask Demo.base None None None (Some demo_pos_feat)
                  demo_attention None None false None None (Demo.start "itm") 2 4
                  [1; 1; 1; 0; 1; 1; 1; 1]%Z eq_refl eq_refl eq_refl eq_refl Hms) as H.
    cbv zeta in H. destruct H as [H _].
    etrans; [exact H |]. vm_compute. reflexivity.
Defined.

(** Adding zero changes no rational. *)
Lemma Qplus_zero (v : Q) : fadd v (of_Z 0) = v.
Proof.
  destruct v as [p q]. unfold fadd, of_Z, Demo.Q_float, Qplus, inject_Z. simpl.
  by rewrite Z.mul_1_r, Z.add_0_r, Pos.mul_1_r.
Qed.

(** The regions of [Demo] with the first and the last position masked; the
    table of [Demo] has the rows (5, 5) and (10, 20). *)
Lemma image_embeddings_mask_witness :
  UniterImageEmbeddings.forward Demo.layers (Some demo_feat) (Some demo_pos_feat)
    (Tensor [2; 2; 2] (DFloat [0; 0; 0; 0; 0; 0; 0; 0]%Q))
    (Some (Tensor [2; 2] (DBool [true; false; false; true]))) (Demo.start "mrc")
  = UniterImageEmbeddings.forward Demo.layers
      (Some (Tensor [2; 2; 2]
               (DFloat [(1 + 10)%Q; (2 + 20)%Q; 3%Q; 4%Q; 5%Q; 6%Q; (7 + 10)%Q; (8 + 20)%Q])))
      (Some demo_pos_feat) (Tensor [2; 2; 2] (DFloat [0; 0; 0; 0; 0; 0; 0; 0]%Q)) None
      (set_weight (Tensor [2; 2] (DFloat [0; 0; 10; 20]%Q)) (Demo.start "mrc"))
  ∧ UniterImageEmbeddings.forward Demo.layers (Some demo_feat) (Some demo_pos_feat)
      (Tensor [2; 2; 2] (DFloat [0; 0; 0; 0; 0; 0; 0; 0]%Q)) None (Demo.start "mrc")
    = (features_embedding Demo.layers demo_feat demo_pos_feat
         (Tensor [2; 2; 2] (DFloat [0; 0; 0; 0; 0; 0; 0; 0]%Q)), Demo.start "mrc").
Proof.
  split.
  - apply (proj1 (image_embeddings_mask Demo.layers (Some demo_pos_feat)
                    (Tensor [2; 2; 2] (DFloat [0; 0; 0; 0; 0; 0; 0; 0]%Q)) (Demo.start "mrc")
                    2 2 2 [1; 2; 3; 4; 5; 6; 7; 8]%Q [5; 5]%Q [10; 20]%Q
                    [true; false; false; true]
                    Qplus_zero eq_refl eq_refl eq_refl eq_refl eq_refl)).
  - apply (proj2 (image_embeddings_mask Demo.layers (Some demo_pos_feat)
                    (Tensor [2; 2; 2] (DFloat [0; 0; 0; 0; 0; 0; 0; 0]%Q)) (Demo.start "mrc")
                    2 2 2 [1; 2; 3; 4; 5; 6; 7; 8]%Q [5; 5]%Q [10; 20]%Q
                    [true; false; false; true]
                    Qplus_zero eq_refl eq_refl eq_refl eq_refl eq_refl)).
Defined.

(** The mrfr batch of [Demo] with mask probability 1/2: the state after
    common preprocessing and [_preprocess_mrfr]. *)
Definition after_mrfr : state Q nat :=
  ((UniterForPretraining._process_sample_list_for_pretraining (Demo.model (Some (1 # 2)%Q))
    ≫= λ _, UniterForPretraining._preprocess_mrfr (Demo.model (Some (1 # 2)%Q)))
     (Demo.start "mrfr")).2.

Lemma mrfr_targets_from_original_witness :
  (let sta := (UniterForPretraining._add_image_feat_masked (Demo.model (Some (1 # 2)%Q))
                 (Demo.start "mrfr")).2 in
   batch sta !! "image_feat" = Some (FTensor 2) ∧ store sta !! 2 = Some demo_feat)
  ∧ ∃ mask filled targets,
      masked_copy demo_feat mask filled ∧ gathered demo_feat mask targets
      ∧ store after_mrfr !! 2 = Some demo_feat
      ∧ tensor_at after_mrfr "image_mask" = Some mask
      ∧ tensor_at after_mrfr "mrfr_region_target" = Some targets
      ∧ tensor_at after_mrfr "image_feat_masked" = Some filled
      ∧ tensor_at after_mrfr "image_feat" = Some filled
      ∧ batch after_mrfr !! "image_feat" = batch after_mrfr !! "image_feat_masked".
Proof.
  assert (batch (Demo.start "mrfr") !! "image_feat" = Some (FTensor 2)) as Hfeat
    by (vm_compute; reflexivity).
  assert (store (Demo.start "mrfr") !! 2 = Some demo_feat) as Hl by reflexivity.
  split.
  - exact (proj1 (mrfr_targets_from_original (Demo.model (Some (1 # 2)%Q))
                    (Demo.start "mrfr") 2 demo_feat Hfeat Hl)).
  - apply (proj2 (mrfr_targets_from_original (Demo.model (Some (1 # 2)%Q))
                    (Demo.start "mrfr") 2 demo_feat Hfeat Hl)
             Demo.scores_head "mrfr_region_target" "mrfr_region_mask" () after_mrfr).
    + vm_compute. reflexivity.
    + vm_compute. reflexivity.
    + reflexivity.
    + reflexivity.
    + unfold reserved_keys. rewrite !elem_of_cons, elem_of_nil. intros [|[|[|[]]]]; done.
    + unfold reserved_keys. rewrite !elem_of_cons, elem_of_nil. intros [|[|[|[]]]]; done.
    + done.
    + vm_compute. reflexivity.
Defined.

(** What [forward] returns on a batch of [Demo], and the state it leaves. *)
Definition demo_output (task : string) : output Q :=
  match (UniterForPretraining.forward (Demo.model (Some (1 # 2)%Q)) (Demo.start task)).1 with
  | Ok out => out
  | Raise _ => OutMapping ∅
  end.

Definition after_forward (task : string) : state Q nat :=
  (UniterForPretraining.forward (Demo.model (Some (1 # 2)%Q)) (Demo.start task)).2.

Lemma forward_mutates_batch_witness :
  (∃ v, batch (Demo.start "mlm") !! "input_ids_masked" = Some v
        ∧ batch (after_forward "mlm") !! "input_ids" = Some v
        ∧ batch (after_forward "mlm") !! "input_ids_masked" = Some v)
  ∧ masked_in_place (Demo.start "mrc") (after_forward "mrc")
  ∧ masked_in_place (Demo.start "mrfr") (after_forward "mrfr").
Proof.
  split_and!.
  - apply (forward_mutates_batch (Demo.model (Some (1 # 2)%Q)) (Demo.start "mlm") (FStr "mlm")
             (demo_output "mlm") (after_forward "mlm")).
    + vm_compute. reflexivity.
    + vm_compute. reflexivity.
    + reflexivity.
  - apply (forward_mutates_batch (Demo.model (Some (1 # 2)%Q)) (Demo.start "mrc") (FStr "mrc")
             (demo_output "mrc") (after_forward "mrc"))
      with (h := Demo.scores_head) (lk := "region_class") (mk := "image_region_mask").
    + vm_compute. reflexivity.
    + vm_compute. reflexivity.
    + reflexivity.
    + vm_compute. reflexivity.
    + reflexivity.
    + reflexivity.
    + unfold reserved_keys. rewrite !elem_of_cons, elem_of_nil. intros [|[|[|[]]]]; done.
    + unfold reserved_keys. rewrite !elem_of_cons, elem_of_nil. intros [|[|[|[]]]]; done.
  - apply (forward_mutates_batch (Demo.model (Some (1 # 2)%Q)) (Demo.start "mrfr")
             (FStr "mrfr") (demo_output "mrfr") (after_forward "mrfr"))
      with (h := Demo.scores_head) (tk := "mrfr_region_target") (mk := "mrfr_region_mask").
    + vm_compute. reflexivity.
    + vm_compute. reflexivity.
    + reflexivity.
    + vm_compute. reflexivity.
    + reflexivity.
    + reflexivity.
    + unfold reserved_keys. rewrite !elem_of_cons, elem_of_nil. intros [|[|[|[]]]]; done.
    + unfold reserved_keys. rewrite !elem_of_cons, elem_of_nil. intros [|[|[|[]]]]; done.
Defined.

End examples.

(** * What the two wrappers return, and what the classification wrapper reads *)

Section wrappers.
Context {F : Type} {FO : FloatOps F} {G : Type} {RG : PyRandom F G}.
Implicit Types st : state F G.

(** Whatever [_process_head_outputs] returns has a [losses] entry. *)
Lemma process_head_outputs_has_losses dataset_name (losses : gmap string (loss F))
    (outputs out : output F) st st' :
  _process_head_outputs dataset_name losses outputs st = (Ok out, st') →
  is_mapping_with "losses" out = true.
Proof.
  unfold _process_head_outputs. destruct (is_mapping_with "losses" outputs) eqn:Hl.
  - by intros [-> _]%ret_inv.
  - intros H. step_ok H as logits Hlogits. step_ok H as d Hd. step_ok H as logits' Hview.
    step_ok H as l Hloss. step_ok H as sample_list Hsnap. step_ok H as u Hlog.
    step_ok H as o Ho. apply ret_inv in H as [-> _].
    unfold is_mapping_with. apply bool_decide_eq_true. by rewrite lookup_insert_eq.
Qed.

Lemma is_mapping_with_inv k (out : output F) :
  is_mapping_with k out = true → ∃ m, out = OutMapping m ∧ is_Some (m !! k).
Proof.
  destruct out as [| m]; [done |]. intros H%bool_decide_eq_true. by exists m.
Qed.

(** X1. When the classification forward returns, what it returns is a mapping
    with a [losses] entry: the head's own, or the one computed by the loss
    module registered for the dataset. *)
Theorem classification_forward_has_losses (self : UniterForClassification.t F) st out st' :
  UniterForClassification.forward self st = (Ok out, st') →
  ∃ m, out = OutMapping m ∧ is_Some (m !! "losses").
Proof.
  unfold UniterForClassification.forward. intros H.
  do 6 (let x := fresh "v" in let Hx := fresh "Hv" in step_ok H as x Hx).
  do 6 (let x := fresh "a" in let Hx := fresh "Ha" in step_ok H as x Hx).
  step_ok H as seq Hseq. step_ok H as name Hname. step_ok H as h Hh.
  step_ok H as sample_list Hsnap. step_ok H as u Hlog. step_ok H as outputs Hout.
  by apply process_head_outputs_has_losses, is_mapping_with_inv in H.
Qed.

(** X2. When the pretraining forward returns, whatever the task, what it returns
    is a mapping with a [losses] entry. *)
Theorem pretraining_forward_has_losses (self : UniterForPretraining.t F) st out st' :
  UniterForPretraining.forward self st = (Ok out, st') →
  ∃ m, out = OutMapping m ∧ is_Some (m !! "losses").
Proof.
  unfold UniterForPretraining.forward. intros H.
  step_ok H as c Hc. step_ok H as u0 Hassert. step_ok H as u1 Hcommon.
  step_ok H as task Htask. step_ok H as u2 Hpre.
  do 6 (let x := fresh "v" in let Hx := fresh "Hv" in step_ok H as x Hx).
  do 6 (let x := fresh "a" in let Hx := fresh "Ha" in step_ok H as x Hx).
  step_ok H as seq Hseq. step_ok H as name Hname. step_ok H as h Hh.
  step_ok H as sample_list Hsnap. step_ok H as u Hlog. step_ok H as outputs Hout.
  by apply process_head_outputs_has_losses, is_mapping_with_inv in H.
Qed.

(** X3. [_process_head_outputs] applied to what it returned gives it back: no
    second reshape, no second call to a loss module, whatever the dataset
    name and the loss modules. *)
Theorem process_head_outputs_idempotent dataset_name (losses : gmap string (loss F))
    (outputs out : output F) st st1 :
  _process_head_outputs dataset_name losses outputs st = (Ok out, st1) →
  ∀ dataset_name' (losses' : gmap string (loss F)) st2,
    _process_head_outputs dataset_name' losses' out st2 = (Ok out, st2).
Proof.
  intros H%process_head_outputs_has_losses dataset_name' losses' st2.
  unfold _process_head_outputs. by rewrite H.
Qed.

(** X4. How [_process_head_outputs] fails on a head output without [losses]; in
    each case the state is left as it was and no loss module is called.
    - A mapping whose [scores] entry is missing or is no tensor:
      [AttributeError] (the mapping, or the entry, has no [contiguous]).
    - Scores without any dimension: [IndexError] from [size(-1)].
    - Scores whose last dimension is 0: [RuntimeError] from [view(-1, 0)].
    - Scores of shape [s ++ [d]], [d] not 0, but no loss module under the
      dataset name: [KeyError] with that name. *)
Theorem process_head_outputs_errors dataset_name (losses : gmap string (loss F))
    (outputs : output F) st :
  is_mapping_with "losses" outputs = false →
  (∀ m, outputs = OutMapping m → (∀ x, m !! "scores" ≠ Some (VTensor x)) →
     _process_head_outputs dataset_name losses outputs st = (Raise AttributeError, st))
  ∧ (∀ x, outputs = OutTensor x ∨ (∃ m, outputs = OutMapping m ∧ m !! "scores" = Some (VTensor x)) →
       (shape x = [] →
          _process_head_outputs dataset_name losses outputs st = (Raise IndexError, st))
       ∧ (∀ s, shape x = s ++ [0] →
            _process_head_outputs dataset_name losses outputs st = (Raise RuntimeError, st))
       ∧ (∀ s d name, shape x = s ++ [d] → d ≠ 0 →
            dataset_name = FStr name → losses !! name = None →
            _process_head_outputs dataset_name losses outputs st
            = (Raise (KeyError name), st))).
Proof.
  intros Hl. unfold _process_head_outputs. rewrite Hl. split.
  - intros m -> Hm. rewrite bind_run.
    destruct (m !! "scores") as [[x | |] |] eqn:Hs; try done. by destruct (Hm x).
  - intros x Hout.
    assert ((match outputs with
             | OutTensor x => mret x
             | OutMapping m =>
                 match m !! "scores" with
                 | Some (VTensor x) => mret x
                 | _ => raise AttributeError
                 end
             end : M F G (tensor F)) st = (Ok x, st)) as Hlogits.
    { destruct Hout as [-> | (m & -> & Hm)]; [done |]. by rewrite Hm. }
    split_and!.
    + intros Hs. erewrite bind_ok; [| exact Hlogits]. rewrite bind_run.
      unfold lift, size, dim. by rewrite Hs.
    + intros s Hs. erewrite bind_ok; [| exact Hlogits].
      erewrite bind_ok; [| unfold lift; by rewrite (size_last x s 0 Hs)].
      rewrite bind_run. by unfold lift, view_rows.
    + intros s d name Hs Hd -> Hname. erewrite bind_ok; [| exact Hlogits].
      erewrite bind_ok; [| unfold lift; by rewrite (size_last x s d Hs)].
      erewrite bind_ok; [| unfold lift; by rewrite (view_rows_last x s d Hs Hd)].
      rewrite bind_run. unfold module_getitem, module_get.
      assert (∀ o : option (loss F), o = None →
                (match o with Some a => ret a | None => raise (KeyError name) end
                   : M F G (loss F)) st = (Raise (KeyError name), st)) as Hnone
        by (by intros ? ->).
      by rewrite (Hnone _ Hname).
Qed.

(** The fields, the tensor objects and the random generator are the same in
    both states. *)
Definition reads_only : relation (state F G) :=
  λ st st', batch st' = batch st ∧ store st' = store st ∧ rng st' = rng st.

#[global] Instance reads_only_preorder : PreOrder reads_only.
Proof.
  split; [by intros ? |]. intros ? ? ? (? & ? & ?) (? & ? & ?). split_and!; congruence.
Qed.

(** X5. The classification forward only reads the batch (heads and loss modules
    being given the batch to read): however it ends, the fields, the tensor
    objects and the random generator are what they were. Only the table of
    [mask_embedding] and the record of calls can differ. *)
Theorem classification_forward_reads_only (self : UniterForClassification.t F) st :
  reads_only st (UniterForClassification.forward self st).2.
Proof.
  apply (sat_state reads_only any_error).
  unfold UniterForClassification.forward. sat_auto ltac:(done).
Qed.

(** The fields the classification forward reads before it calls the encoder,
    in the order it reads them. *)
Definition encoder_fields : list string :=
  ["input_ids"; "position_ids"; "image_feat"; "img_pos_feat"; "attention_mask";
   "image_mask"].

(** X6. A batch that lacks one of the fields the classification forward passes
    to the encoder is refused with the [KeyError] of
    the first one missing, before anything is computed: the state is left as
    it was, no encoder call, the table of [mask_embedding] untouched. *)
Theorem classification_forward_missing_field (self : UniterForClassification.t F) st
    pre k post :
  encoder_fields = pre ++ k :: post →
  Forall (λ k', is_Some (batch st !! k')) pre →
  batch st !! k = None →
  UniterForClassification.forward self st = (Raise (KeyError k), st).
Proof.
  intros Hsplit Hpre Hk. unfold UniterForClassification.forward, encoder_fields in *.
  assert (getitem k st = (Raise (KeyError k), st)) as Hraise
    by (unfold getitem; by rewrite Hk).
  repeat match goal with
         | H : _ = ?pre ++ _ :: _ |- _ =>
             let k' := fresh "k" in
             let Hv := fresh "Hv" in
             destruct pre as [| k' pre]; simpl in H;
               [injection H as <- _; by apply bind_raise
               | injection H as <- H; apply Forall_cons in Hpre as [[? Hv] Hpre];
                 erewrite bind_ok; [| by apply getitem_run]]
         end.
  by destruct pre.
Qed.

End wrappers.

(** * Edge cases of the mask embedding and of the drawn masks *)

Section edges.
Context {F : Type} {FO : FloatOps F} {G : Type} {RG : PyRandom F G}.
Implicit Types st : state F G.

Lemma embedding_rows_index_error (table : list (list F)) ids e :
  embedding_rows table ids = Raise e → e = IndexError.
Proof.
  unfold embedding_rows. induction ids as [| j ids IH]; [done |]. cbn [foldr].
  destruct (foldr _ _ ids) as [rows | e']; cbn [rbind]; [| intros [= <-]; by apply IH].
  destruct (0 <=? j)%Z; [| by intros [= <-]].
  destruct (table !! Z.to_nat j); [done | by intros [= <-]].
Qed.

(** One index outside the table makes the whole lookup fail. *)
Lemma embedding_rows_out_of_range (table : list (list F)) ids (i : Z) :
  i ∈ ids → (i < 0 ∨ Z.of_nat (length table) ≤ i)%Z →
  embedding_rows table ids = Raise IndexError.
Proof.
  intros Hin Hi. induction ids as [| j ids IH]; [by apply elem_of_nil in Hin |].
  unfold embedding_rows in *. cbn [foldr].
  apply elem_of_cons in Hin as [<- | Hin].
  - destruct (foldr _ _ ids) as [rows | e'] eqn:Hrest; cbn [rbind].
    + destruct (Z.leb_spec 0 i) as [Hpos | _]; [| done].
      rewrite lookup_ge_None_2; [done | lia].
    + by rewrite (embedding_rows_index_error table ids e' Hrest).
  - by rewrite IH.
Qed.

Lemma chunks_length {A} k n (l : list A) : length (chunks k n l) = n.
Proof. revert l. induction n as [| n IH]; intros l; simpl; [done | by rewrite IH]. Qed.

(** The first two sizes of a tensor. *)
Lemma size_0 (x : tensor F) a rest : shape x = a :: rest → size x 0 = Ok a.
Proof.
  intros Hx. unfold size, dim, norm_index. rewrite Hx. cbn [length Z.leb Z.compare].
  destruct (Z.ltb_spec 0 (Z.of_nat (S (length rest)))); [done | lia].
Qed.

Lemma size_1 (x : tensor F) a b rest : shape x = a :: b :: rest → size x 1 = Ok b.
Proof.
  intros Hx. unfold size, dim, norm_index. rewrite Hx. cbn [length Z.leb Z.compare].
  destruct (Z.ltb_spec 1 (Z.of_nat (S (S (length rest))))); [done | lia].
Qed.

(** X7. A mask with an entry that, cast to an integer, is neither 0 nor 1 makes
    the image embedding unit fail with [IndexError] in the lookup; row 0 of
    the table of [mask_embedding] has been overwritten with zeros by then,
    and stays so. *)
Theorem image_embeddings_bad_mask_index (self : UniterImageEmbeddings.t F)
    img_feat img_pos_feat type_embeddings (mask : tensor F) st d (w : list F) ids i :
  mask_embedding_weight st = Tensor [2; d] (DFloat w) →
  data (to_long mask) = DLong ids →
  i ∈ ids → (i < 0 ∨ 2 ≤ i)%Z →
  UniterImageEmbeddings.forward self img_feat img_pos_feat type_embeddings (Some mask) st
  = (Raise IndexError,
     set_weight (Tensor [2; d] (DFloat (replicate d (of_Z 0) ++ drop d w))) st).
Proof.
  intros Hw Hids Hin Hi. unfold UniterImageEmbeddings.forward.
  apply bind_raise.
  erewrite bind_ok; [| done].
  erewrite bind_ok; last first.
  { unfold lift, fill_row0. rewrite Hw. cbn [shape data drop numel foldr].
    rewrite Nat.mul_1_r. reflexivity. }
  erewrite bind_ok; [| done].
  apply bind_raise. unfold lift, embedding. cbn [shape data]. rewrite Hids.
  rewrite (embedding_rows_out_of_range _ ids i); [done | done |].
  rewrite chunks_length. lia.
Qed.

(** X8. With no region to choose from, [_get_img_mask] fails in
    [random.choice]: a batch of at least one example whose examples have no
    region makes [_add_image_feat_masked] raise [IndexError], the batch and
    the generator untouched. *)
Theorem add_image_feat_masked_no_regions (self : UniterForPretraining.t F) st l x b rest :
  batch st !! "image_feat" = Some (FTensor l) → store st !! l = Some x →
  shape x = S b :: 0 :: rest →
  UniterForPretraining._get_img_mask self (default (of_Z 0)
    (UniterForPretraining.mask_probability self)) 0 st = (Raise IndexError, st)
  ∧ UniterForPretraining._add_image_feat_masked self st = (Raise IndexError, st).
Proof.
  intros Hfeat Hl Hx.
  assert (∀ p, UniterForPretraining._get_img_mask self p 0 st = (Raise IndexError, st))
    as Hmask.
  { intros p. unfold UniterForPretraining._get_img_mask.
    erewrite bind_ok; [| done]. done. }
  split; [apply Hmask |].
  unfold UniterForPretraining._add_image_feat_masked.
  erewrite bind_ok; [| by apply getitem_run].
  erewrite bind_ok; [| by apply deref_run].
  erewrite bind_ok; [| unfold lift; by rewrite (size_1 x _ _ _ Hx)].
  erewrite bind_ok; [| unfold lift; by rewrite (size_0 x _ _ Hx)].
  apply bind_raise. cbn [repeatM]. unfold bind. by rewrite Hmask.
Qed.

End edges.

(** * The drawn mask and the masked copy, row by row *)

Section rows_lemmas.
Context {A : Type}.
Implicit Types l : list A.

Lemma chunks_exact k n l : length l = n * k → Forall (λ c, length c = k) (chunks k n l).
Proof.
  revert l. induction n as [| n IH]; intros l Hl; simpl; constructor.
  - rewrite length_take. simpl in Hl. lia.
  - apply IH. rewrite length_drop. simpl in Hl. lia.
Qed.

(** A block of shape [s ++ [1]] read at shape [s ++ [d]]: every entry [d]
    times. *)
Lemma expand_data_last (s : list nat) d l :
  length l = numel s →
  expand_data (s ++ [1]) (s ++ [d]) l = concat (map (replicate d) l).
Proof.
  revert l. induction s as [| k s IH]; intros l Hl.
  - destruct l as [| a [| ? ?]]; try done. cbn [app expand_data map list_fmap fmap concat].
    destruct (Nat.eqb_spec 1 d) as [<- | _]; [done |].
    rewrite app_nil_r. clear. induction d as [| d IHd]; [done |]. simpl. by rewrite IHd.
  - cbn [app expand_data]. rewrite Nat.eqb_refl.
    assert (numel (s ++ [1]) = numel s) as ->.
    { unfold numel. rewrite foldr_app. simpl. done. }
    assert (map (expand_data (s ++ [1]) (s ++ [d])) (chunks (numel s) k l)
            = map (λ c, concat (map (replicate d) c)) (chunks (numel s) k l)) as ->.
    { apply Forall_fmap_ext_1. eapply Forall_impl; [by apply chunks_exact |].
      intros c Hc. by apply IH. }
    rewrite <- (concat_chunks (numel s) k l) at 2 by (simpl in Hl; lia).
    generalize (chunks (numel s) k l). intros cs.
    induction cs as [| c cs IHcs]; [done |]. simpl. by rewrite map_app, concat_app, IHcs.
Qed.

(** [masked_fill] by a mask whose every bit stands for a row of [d]
    entries. *)
Lemma fill0_rows (zero : A) d (bits : list bool) l :
  length l = length bits * d →
  fill0 zero (concat (map (replicate d) bits)) l
  = concat (zip_with (λ (bit : bool) row, if bit then replicate d zero else row)
              bits (chunks d (length bits) l)).
Proof.
  unfold fill0. revert l. induction bits as [| bit bits IH]; intros l Hl; [done |].
  simpl in *. rewrite <- (take_drop d l) at 1.
  rewrite zip_with_app by (rewrite length_replicate, length_take; lia).
  rewrite IH by (rewrite length_drop; lia). f_equal.
  assert (length (take d l) = d) as Hlen by (rewrite length_take; lia).
  revert Hlen. generalize (take d l). clear. intros row <-.
  induction row as [| a row IHrow]; [by destruct bit |]. simpl. destruct bit; by rewrite IHrow.
Qed.

End rows_lemmas.

Section drawn_masks.
Context {F : Type} {FO : FloatOps F} {G : Type} {RG : PyRandom F G}.
Implicit Types st : state F G.

(** [expand] to the tensor's own shape, for any dtype. *)
Lemma expand_own_shape (x : tensor F) :
  data_length (data x) ≤ numel (shape x) → expand x (shape x) = Ok x.
Proof.
  intros Hl. unfold expand. rewrite pad_shape_same by done. rewrite expandable_refl.
  destruct x as [s [xs | xs | xs]]; simpl in *; by rewrite expand_data_same.
Qed.

(** When no draw falls below the mask probability, the mask of
    [_get_img_mask] is false everywhere but at the one position
    [random.choice] picked. *)
Lemma get_img_mask_forced (self : UniterForPretraining.t F) p n st mask st' :
  (∀ g, flt (random g).1 p = false) →
  UniterForPretraining._get_img_mask self p n st = (Ok mask, st') →
  ∃ i, i < n ∧ mask = <[i:=true]> (replicate n false).
Proof.
  intros Hdraws. unfold UniterForPretraining._get_img_mask. intros H.
  step_ok H as img_mask Hdraw.
  apply (repeatM_ok (λ b, b = false)) in Hdraw as [Hlen Hfalse]; last first.
  { intros s a s' Ha. unfold mbind, M_bind, bind, py_random in Ha.
    specialize (Hdraws (rng s)). destruct (random (rng s)) as [x g].
    injection Ha as <- _. exact Hdraws. }
  assert (img_mask = replicate n false) as ->.
  { rewrite <- Hlen. clear -Hfalse.
    induction Hfalse as [| b l -> _ IH]; [done |]. simpl. by rewrite <- IH. }
  assert (existsb id (replicate n false) = false) as Hnone.
  { clear. induction n; [done |]. done. }
  rewrite Hnone in H. simpl in H. step_ok H as i Hi.
  case_bool_decide as Hlt; [| done]. apply ret_inv in H as [-> ->].
  rewrite length_replicate in Hlt. by exists i.
Qed.

(** X9. With the default mask probability 0 (no draw of [random.random()] is
    below it), and more generally whenever no draw falls below the mask
    probability, [_add_image_feat_masked] masks exactly one region in every
    example: the mask it stores has, in each row, a single true position. *)
Theorem add_image_feat_masked_single (self : UniterForPretraining.t F) st l x b n d :
  (∀ g, flt (random g).1 (default (of_Z 0) (UniterForPretraining.mask_probability self))
        = false) →
  (∀ k g, 0 < k → (randbelow k g).1 < k) →
  batch st !! "image_feat" = Some (FTensor l) → store st !! l = Some x →
  shape x = [b; n; d] → 0 < b → 0 < n →
  ∃ rows st1,
    UniterForPretraining._add_image_feat_masked self st = (Ok (), st1)
    ∧ tensor_at st1 "image_mask" = Some (Tensor [b; n] (DBool (concat rows)))
    ∧ length rows = b
    ∧ Forall (λ row, ∃ i, i < n ∧ row = <[i:=true]> (replicate n false)) rows.
Proof.
  intros Hdraws Hrand Hfeat Hl Hx Hb Hn.
  destruct (add_image_feat_masked_total self st l x b n d) as (st1 & Hrun); try done.
  pose proof Hrun as H. unfold UniterForPretraining._add_image_feat_masked in H.
  step_ok H as v Hv. step_ok H as x' Hx'. apply tensor_of_inv in Hx' as (l' & -> & Hl' & ->).
  assert (l' = l) as -> by congruence. assert (x' = x) as -> by congruence.
  step_ok H as n' Hn'. step_ok H as b' Hb'.
  assert (b' = b ∧ n' = n) as [-> ->].
  { unfold size, dim in Hb', Hn'. rewrite Hx in Hb', Hn'. simpl in Hb', Hn'.
    split; congruence. }
  step_ok H as rows Hrows.
  apply (repeatM_ok (λ row, ∃ i, i < n ∧ row = <[i:=true]> (replicate n false))) in Hrows
    as [Hlen Hrows]; [| intros ? ? ?; by apply get_img_mask_forced].
  step_ok H as mask Hmask.
  erewrite tensor_of_bool_rows_ok in Hmask; [| done | done |]; last first.
  { eapply Forall_impl; [done |]. intros ? (i & _ & ->).
    by rewrite length_insert, length_replicate. }
  injection Hmask as <-.
  step_ok H as um Hu. step_ok H as mext Hext. step_ok H as filled Hfill.
  step_ok H as u' Hset. apply set_tensor_inv in H as ->.
  exists rows. eexists. split; [exact Hrun |]. split; [apply tensor_at_put | done].
Qed.

(** X10. What [_add_image_feat_masked] stores under [image_feat_masked], for
    well-formed floating-point features of shape [[b; n; d]]: the feature
    vector of every region the mask flags is replaced by zeros, the feature
    vector of every other region is kept. *)
Theorem add_image_feat_masked_rows (self : UniterForPretraining.t F) st l b n d
    (xs : list F) :
  (∀ k g, 0 < k → (randbelow k g).1 < k) →
  batch st !! "image_feat" = Some (FTensor l) →
  store st !! l = Some (Tensor [b; n; d] (DFloat xs)) →
  length xs = b * n * d → 0 < b → 0 < n →
  ∃ bits st1,
    UniterForPretraining._add_image_feat_masked self st = (Ok (), st1)
    ∧ length bits = b * n
    ∧ tensor_at st1 "image_mask" = Some (Tensor [b; n] (DBool bits))
    ∧ tensor_at st1 "image_feat_masked"
      = Some (Tensor [b; n; d]
                (DFloat (concat (zip_with
                                   (λ (bit : bool) row,
                                      if bit then replicate d (of_Z 0) else row)
                                   bits (chunks d (b * n) xs))))).
Proof.
  intros Hrand Hfeat Hl Hxs Hb Hn.
  destruct (add_image_feat_masked_total self st l (Tensor [b; n; d] (DFloat xs)) b n d)
    as (st1 & Hrun); try done.
  destruct (add_image_feat_masked_ok self st () st1 Hrun)
    as (l' & x' & b' & n' & mask & filled & g & Hfeat' & Hl' & Hb' & Hn' & Hmask & Hcopy & ->).
  assert (l' = l) as -> by congruence.
  assert (x' = Tensor [b; n; d] (DFloat xs)) as -> by congruence.
  assert (b' = b ∧ n' = n) as [-> ->].
  { unfold size, dim in Hb', Hn'. simpl in Hb', Hn'. split; congruence. }
  destruct Hmask as (rows & Hlen & Hrows & Hmask).
  erewrite tensor_of_bool_rows_ok in Hmask; [| done | done |]; last first.
  { eapply Forall_impl; [done |]. by intros ? [? ?]. }
  injection Hmask as <-.
  assert (length (concat rows) = b * n) as Hbits.
  { rewrite length_concat, (sum_list_fmap_same n); [by rewrite Hlen |].
    eapply Forall_impl; [done |]. by intros ? [? ?]. }
  exists (concat rows). eexists. split; [exact Hrun |]. split; [done |].
  split; [apply tensor_at_put |].
  assert (filled = Tensor [b; n; d]
            (DFloat (concat (zip_with
                               (λ (bit : bool) row, if bit then replicate d (of_Z 0) else row)
                               (concat rows) (chunks d (b * n) xs))))) as ->.
  { destruct Hcopy as (u & mext & Hu & Hext & Hfill).
    unfold unsqueeze in Hu. cbn in Hu. injection Hu as <-.
    unfold expand_as, expand in Hext. cbn [shape data] in Hext.
    rewrite (pad_shape_same _ [b; n; 1]) in Hext by done.
    change [b; n; 1] with ([b; n] ++ [1]) in Hext.
    change [b; n; d] with ([b; n] ++ [d]) in Hext.
    rewrite expandable_last in Hext. cbn [lift_data] in Hext.
    rewrite expand_data_last in Hext by (unfold numel; simpl; lia).
    injection Hext as <-.
    unfold masked_fill0 in Hfill. cbn [mask_bits data rbind shape] in Hfill.
    rewrite (expand_own_shape (Tensor ([b; n] ++ [d]) _)) in Hfill; last first.
    { cbn [data data_length shape]. rewrite length_concat, (sum_list_fmap_same d).
      - rewrite length_map, Hbits. unfold numel. simpl. lia.
      - apply Forall_map, Forall_forall. intros ? _. apply length_replicate. }
    cbn [mask_bits data rbind] in Hfill. injection Hfill as <-.
    rewrite fill0_rows by lia. by rewrite Hbits. }
  unfold with_masked. by repeat tensor_at_step.
Qed.

End drawn_masks.

(** * What the task-specific preprocessing stores *)

Section select_lemmas.
Context {A : Type}.
Implicit Types l : list A.

Lemma select_app_same {B} (m1 m2 : list bool) (l1 l2 : list B) :
  length m1 = length l1 → select (m1 ++ m2) (l1 ++ l2) = select m1 l1 ++ select m2 l2.
Proof.
  revert l1. induction m1 as [| b m1 IH]; intros [| x l1] Hlen; try done.
  simpl in *. destruct b; simpl; [f_equal |]; apply IH; lia.
Qed.

Lemma select_replicate {B} (bit : bool) (l : list B) :
  select (replicate (length l) bit) l = if bit then l else [].
Proof. induction l as [| x l IH]; [by destruct bit |]. simpl. destruct bit; by rewrite IH. Qed.

(** Entries kept one by one. *)
Lemma select_singletons (m : list bool) l :
  concat (select m (chunks 1 (length l) l)) = select m l.
Proof.
  revert m. induction l as [| x l IH]; intros m; [by destruct m |].
  destruct m as [| b m]; [done |]. cbn [length chunks take drop select].
  destruct b; simpl; by rewrite IH.
Qed.

(** Keeping entries by a mask whose every bit stands for a row of [d]
    entries keeps the rows the bits flag. *)
Lemma select_rows d (bits : list bool) l :
  length l = length bits * d →
  select (concat (map (replicate d) bits)) l
  = concat (select bits (chunks d (length bits) l)).
Proof.
  revert l. induction bits as [| bit bits IH]; intros l Hl; [done |].
  simpl in *. rewrite <- (take_drop d l) at 1.
  assert (length (take d l) = d) as Hlen by (rewrite length_take; lia).
  rewrite select_app_same by (by rewrite length_replicate).
  rewrite IH by (rewrite length_drop; lia).
  rewrite <- Hlen at 1. rewrite select_replicate. by destruct bit.
Qed.

Lemma select_length {B} (m : list bool) (l : list B) :
  length m = length l → length (select m l) = length (select m m).
Proof.
  revert l. induction m as [| b m IH]; intros [| x l] Hlen; try done.
  simpl in *. destruct b; simpl; rewrite (IH l); lia.
Qed.

Lemma chunks_replicate (a : A) k n : chunks k n (replicate (n * k) a) = replicate n (replicate k a).
Proof.
  induction n as [| n IH]; [done |]. simpl.
  rewrite replicate_add, take_app_length', drop_app_length' by (by rewrite length_replicate).
  by rewrite IH.
Qed.

Lemma zip_with_app_replicate_l (z : list A) (cs : list (list A)) :
  zip_with app (replicate (length cs) z) cs = map (λ row, z ++ row) cs.
Proof. induction cs as [| c cs IH]; [done |]. simpl. by rewrite IH. Qed.

Lemma zip_with_app_replicate_r (z : list A) (cs : list (list A)) :
  zip_with app cs (replicate (length cs) z) = map (λ row, row ++ z) cs.
Proof. induction cs as [| c cs IH]; [done |]. simpl. by rewrite IH. Qed.

Lemma foldl_fixed {B} (f : A → B → A) (a : A) (l : list B) :
  Forall (λ b, f a b = a) l → foldl f a l = a.
Proof. induction 1 as [| b l Hb _ IH]; [done |]. simpl. by rewrite Hb. Qed.

End select_lemmas.

Section preprocessing.
Context {F : Type} {FO : FloatOps F} {G : Type} {RG : PyRandom F G}.
Implicit Types st : state F G.

Lemma module_get_run {A} (d : gmap string A) k a st :
  d !! k = Some a → module_get d k st = (Ok a, st).
Proof. intros H. unfold module_get. by rewrite H. Qed.

(** [torch.cat] along the last dimension of two tensors of two dimensions. *)
Lemma cat_last_2d (b t n : nat) (da db d : tdata F) :
  lift_data2 (λ A, cat_data b t n) da db = Some d →
  cat (Tensor [b; t] da) (Tensor [b; n] db) (-1) = Ok (Tensor [b; t + n] d).
Proof.
  intros Hd. unfold cat. cbn [shape data].
  rewrite (bool_decide_false ([b; t] = [0])) by done.
  rewrite (bool_decide_false ([b; n] = [0])) by done.
  change (norm_index (dim (Tensor [b; t] da)) (-1)) with (Some 1).
  cbn [lookup list_lookup insert list_insert].
  rewrite bool_decide_true by done.
  unfold numel. cbn [take drop foldr]. rewrite !Nat.mul_1_r. by rewrite Hd.
Qed.

(** X11. [_preprocess_mlm] on a batch with long text labels of shape [[b; t]] and
    region features of [b] examples with [n] regions, for an [ignore_index]
    that is a 64-bit signed integer, as [torch.full] asks: the labels stored
    under [mlm_labels] are the text labels as they are, a block of
    [ignore_index] for the regions, and the combined labels of shape
    [[b; t + n]], which hold for every example its text labels followed by
    [n] times [ignore_index]; and [input_ids] names what [input_ids_masked]
    names. *)
Theorem preprocess_mlm_labels (self : UniterForPretraining.t F) st h ig l1 ls l2 x v b t n rest :
  UniterForPretraining.heads self !! "mlm" = Some h → ignore_index (config h) = Some ig →
  (- 2 ^ 63 ≤ ig < 2 ^ 63)%Z →
  batch st !! "lm_label_ids" = Some (FTensor l1) →
  store st !! l1 = Some (Tensor [b; t] (DLong ls)) →
  batch st !! "image_feat" = Some (FTensor l2) → store st !! l2 = Some x →
  shape x = b :: n :: rest →
  batch st !! "input_ids_masked" = Some v →
  ∃ st' li lc,
    UniterForPretraining._preprocess_mlm self st = (Ok (), st')
    ∧ batch st' !! "input_ids" = Some v
    ∧ batch st' !! "mlm_labels"
      = Some (FDict (<["text" := FTensor l1]>
                    (<["image" := FTensor li]> {[ "combined_labels" := FTensor lc ]})))
    ∧ store st' !! l1 = Some (Tensor [b; t] (DLong ls))
    ∧ store st' !! li = Some (Tensor [b; n] (DLong (replicate (b * n) ig)))
    ∧ store st' !! lc
      = Some (Tensor [b; t + n]
                (DLong (concat (map (λ row, row ++ replicate n ig) (chunks t b ls))))).
Proof.
  intros Hh Hig Hrange Hlab Hl1 Hfeat Hl2 Hx Hv.
  assert (int64_range ig = true) as Hfull.
  { unfold int64_range. apply andb_true_intro.
    split; [apply Z.leb_le | apply Z.ltb_lt]; lia. }
  unfold UniterForPretraining._preprocess_mlm.
  erewrite bind_ok; [| done].
  erewrite bind_ok; [| apply contains_run].
  cbn [batch add_call]. rewrite bool_decide_true by (by rewrite Hlab).
  erewrite bind_ok; [| done].
  erewrite bind_ok; [| apply contains_run].
  cbn [batch add_call]. rewrite bool_decide_true by (by rewrite Hv).
  erewrite bind_ok; [| done].
  erewrite bind_ok; [| by apply module_get_run].
  erewrite bind_ok; [| by rewrite Hig].
  erewrite bind_ok; [| by apply getitem_run].
  erewrite bind_ok; [| by eapply get_tensor_run].
  erewrite bind_ok; [| by apply deref_run].
  rewrite Hx. change (take 2 (b :: n :: rest)) with [b; n].
  erewrite bind_ok; [| unfold lift, full_long; by rewrite Hfull].
  erewrite bind_ok; [| done].
  erewrite bind_ok; last first.
  { unfold lift, const_long. erewrite (cat_last_2d b t n); [done |].
    reflexivity. }
  erewrite bind_ok; [| done].
  erewrite bind_ok; [| done].
  erewrite bind_ok; [| by apply getitem_run; cbn; rewrite lookup_insert_ne].
  eexists _, _, _. split; [reflexivity |].
  cbn [batch store set_batch set_store add_call].
  split; [by rewrite lookup_insert_eq |].
  split; [by rewrite lookup_insert_ne, lookup_insert_eq |].
  assert (l1 < length (store st)) as Hlt by (by eapply lookup_lt_Some).
  split; [by rewrite !lookup_app_l by (rewrite ?length_app; lia) |].
  split.
  - rewrite lookup_app_l by (rewrite length_app; simpl; lia).
    rewrite lookup_app_r, Nat.sub_diag by done. cbn. do 4 f_equal.
    unfold numel. simpl. lia.
  - rewrite lookup_app_r by (by rewrite length_app; simpl; lia).
    rewrite length_app. cbn [length]. replace (_ - _) with 0 by lia. cbn. do 3 f_equal.
    unfold cat_data, numel. cbn [foldr].
    replace (b * (n * 1)) with (b * n) by lia. rewrite chunks_replicate.
    rewrite <- (chunks_length t b ls) at 2. by rewrite zip_with_app_replicate_r.
Qed.

(** A row of [pad] filled from a position that is the row's length is the
    row as it was. *)
Lemma fill_row_from_end k m (xs : list F) i :
  UniterForPretraining.fill_row_from (Tensor [k; m] (DFloat xs)) i m = Tensor [k; m] (DFloat xs).
Proof.
  unfold UniterForPretraining.fill_row_from. cbn [shape data]. rewrite Nat.min_id, Nat.sub_diag. cbn [replicate app].
  replace (i * m + m) with (S i * m) by lia. by rewrite take_drop.
Qed.

(** [_compute_pad] on lengths that are all the same: no padding. *)
Lemma compute_pad_same k t st :
  UniterForPretraining._compute_pad (replicate (S k) t) st = (Ok (zeros [S k; t]), st).
Proof.
  unfold UniterForPretraining._compute_pad. cbn [replicate]. cbv zeta.
  change (t :: replicate k t) with (replicate (S k) t).
  assert (max_list (replicate (S k) t) = t) as ->.
  { clear. induction k as [| k IH]; simpl in *; lia. }
  rewrite length_replicate. unfold mret, M_ret, ret. do 2 f_equal.
  apply foldl_fixed, Forall_forall. intros [i l] Hin.
  apply elem_of_lookup_imap in Hin as (i' & l' & [= -> ->] & Hl').
  apply lookup_replicate in Hl' as [-> _]. cbn [fst snd]. apply fill_row_from_end.
Qed.

(** X12. [_preprocess_wra] on a batch whose [input_ids] and [image_feat] are
    tensors of at least one example (and at least two dimensions): every row
    of a tensor has the same length, so the two padding masks it stores are
    false everywhere, whatever the batch holds; the label key names what
    [is_correct] names. *)
Theorem preprocess_wra_pads (self : UniterForPretraining.t F) st h ok wk v li ids lf x
    b t r1 b' n r2 :
  fnonzero (of_Z 0) = false →
  batch st !! "is_correct" = Some v →
  UniterForPretraining.heads self !! "wra" = Some h →
  ot_inputs_key (config h) = Some ok → wra_label_key (config h) = Some wk →
  batch st !! "input_ids" = Some (FTensor li) → store st !! li = Some ids →
  shape ids = S b :: t :: r1 →
  batch st !! "image_feat" = Some (FTensor lf) → store st !! lf = Some x →
  shape x = S b' :: n :: r2 →
  ∃ st' lt lp,
    UniterForPretraining._preprocess_wra self st = (Ok (), st')
    ∧ store st' !! lt = Some (Tensor [S b; t] (DBool (replicate (S b * t) false)))
    ∧ store st' !! lp = Some (Tensor [S b'; n] (DBool (replicate (S b' * n) false)))
    ∧ (ok ≠ wk →
       batch st' !! ok
       = Some (FDict (<["txt_pad" := FTensor lt]> {[ "img_pad" := FTensor lp ]})))
    ∧ (ok ≠ "is_correct" → batch st' !! wk = Some v).
Proof.
  intros Hzero Hv Hh Hok Hwk Hids Hli Hsi Hfeat Hlf Hsx.
  unfold UniterForPretraining._preprocess_wra.
  erewrite bind_ok; [| done].
  erewrite bind_ok; [| apply contains_run].
  cbn [batch add_call]. rewrite bool_decide_true by (by rewrite Hv).
  erewrite bind_ok; [| done].
  erewrite bind_ok; [| by apply module_get_run].
  erewrite bind_ok; [| by rewrite Hok].
  erewrite bind_ok; [| by apply module_get_run].
  erewrite bind_ok; [| by rewrite Hwk].
  erewrite bind_ok; [| by eapply get_tensor_run].
  erewrite bind_ok; [| unfold lift, UniterForPretraining.row_sizes; by rewrite Hsi].
  erewrite bind_ok; [| by eapply get_tensor_run].
  erewrite bind_ok; [| unfold lift, UniterForPretraining.row_sizes; by rewrite Hsx].
  erewrite bind_ok; [| apply compute_pad_same].
  cbv zeta.
  erewrite bind_ok; [| apply compute_pad_same].
  erewrite bind_ok; [| done].
  erewrite bind_ok; [| done].
  erewrite bind_ok; [| done].
  assert (∀ k m, to_bool (zeros (F:=F) [k; m]) = Tensor [k; m] (DBool (replicate (k * m) false)))
    as Hpad.
  { intros k m. unfold to_bool, zeros. cbn [shape data nonzero_bits]. f_equal. f_equal.
    unfold numel. cbn [foldr]. rewrite Nat.mul_1_r.
    generalize (k * m). intros j. induction j as [| j IH]; [done |]. simpl.
    by rewrite Hzero, <- IH. }
  rewrite !Hpad.
  assert (∀ (s : list (tensor F)) y z, (s ++ [y]) ++ [z] = s ++ [y; z]) as Happ
    by (intros; by rewrite <- app_assoc).
  destruct (decide (ok = "is_correct")) as [-> | Hne].
  - erewrite bind_ok;
      [| apply getitem_run; cbn [batch set_batch set_store add_call];
         by rewrite lookup_insert_eq].
    eexists _, (length (store st)), (S (length (store st))). split; [reflexivity |].
    cbn [batch store set_batch set_store add_call].
    rewrite length_app, Nat.add_1_r, Happ. cbn [length].
    split; [by rewrite lookup_app_r, Nat.sub_diag |].
    split; [rewrite lookup_app_r by lia; by replace (_ - _) with 1 by lia |].
    split; [| done]. intros Hne. by rewrite lookup_insert_ne, lookup_insert_eq.
  - erewrite bind_ok;
      [| apply getitem_run; cbn [batch set_batch set_store add_call];
         by rewrite lookup_insert_ne].
    eexists _, (length (store st)), (S (length (store st))). split; [reflexivity |].
    cbn [batch store set_batch set_store add_call].
    rewrite length_app, Nat.add_1_r, Happ. cbn [length].
    split; [by rewrite lookup_app_r, Nat.sub_diag |].
    split; [rewrite lookup_app_r by lia; by replace (_ - _) with 1 by lia |].
    split; [intros Hne'; by rewrite lookup_insert_ne, lookup_insert_eq |].
    intros _. by rewrite lookup_insert_eq.
Qed.

(** X13. The pretraining forward on an itm batch (heads and loss modules being
    given the batch to read), however it ends: the batch has
    gained [itm_labels], a mapping whose [is_correct] entry names the very
    object the field [is_correct] names; every other field and every tensor
    object is as it was. Nothing is masked and nothing is filtered. *)
Theorem forward_itm_frame (self : UniterForPretraining.t F) st v r st' :
  batch st !! "task" = Some (FStr "itm") →
  batch st !! "is_correct" = Some v →
  UniterForPretraining.forward self st = (r, st') →
  batch st' = <["itm_labels" := FDict {[ "is_correct" := v ]}]> (batch st)
  ∧ store st' = store st.
Proof.
  intros Htask Hv H. unfold UniterForPretraining.forward in H.
  erewrite bind_ok in H; [| apply contains_run].
  rewrite bool_decide_true in H by (by rewrite Hv).
  erewrite bind_ok in H; [| done].
  erewrite bind_ok in H; last first.
  { unfold UniterForPretraining._process_sample_list_for_pretraining.
    erewrite bind_ok; [| done].
    erewrite bind_ok; [| by apply getitem_run].
    assert (field_is (FStr "itm") "mrc" || field_is (FStr "itm") "mrfr" = false) as ->
      by reflexivity.
    erewrite bind_ok; [| done].
    assert (negb (field_is (FStr "itm") "itm") && negb (field_is (FStr "itm") "wra") = false)
      as -> by reflexivity.
    reflexivity. }
  erewrite bind_ok in H; [| by apply getitem_run].
  dispatch_task H.
  erewrite bind_ok in H; last first.
  { unfold UniterForPretraining._preprocess_itm.
    erewrite bind_ok; [| done].
    erewrite bind_ok; [| apply contains_run].
    cbn [batch add_call]. rewrite bool_decide_true by (by rewrite Hv).
    erewrite bind_ok; [| done].
    erewrite bind_ok; [| by apply getitem_run].
    reflexivity. }
  tail_frame H. by rewrite Hbatch, Hstore.
Qed.

Lemma to_bool_zeros k m :
  fnonzero (of_Z 0) = false →
  to_bool (zeros (F:=F) [k; m]) = Tensor [k; m] (DBool (replicate (k * m) false)).
Proof.
  intros Hzero. unfold to_bool, zeros. cbn [shape data nonzero_bits]. f_equal. f_equal.
  unfold numel. cbn [foldr]. rewrite Nat.mul_1_r.
  generalize (k * m). intros j. induction j as [| j IH]; [done |]. simpl.
  by rewrite Hzero, <- IH.
Qed.

(** The combined mask of [_preprocess_mrc] and [_preprocess_mrfr]: for every
    example, false over the [t] text positions, then the image mask. *)
Lemma concat_mask_of_rows st b n (bits : list bool) li ids b0 t r1 :
  fnonzero (of_Z 0) = false →
  batch st !! "input_ids" = Some (FTensor li) → store st !! li = Some ids →
  shape ids = b0 :: t :: r1 →
  UniterForPretraining.concat_mask_of (Tensor [b; n] (DBool bits)) st
  = (Ok (Tensor [b; t + n]
           (DBool (concat (map (λ row, replicate t false ++ row) (chunks n b bits))))), st).
Proof.
  intros Hzero Hids Hli Hsi. unfold UniterForPretraining.concat_mask_of.
  erewrite bind_ok; [| done].
  erewrite bind_ok; [| by eapply get_tensor_run].
  erewrite bind_ok; [| unfold lift; by rewrite (size_1 ids _ _ _ Hsi)].
  cbv zeta. unfold to_like. cbn [data]. rewrite to_bool_zeros by done.
  unfold lift. erewrite (cat_last_2d b t n); [| reflexivity].
  do 4 f_equal. unfold cat_data. rewrite chunks_replicate.
  rewrite <- (chunks_length n b bits) at 1. by rewrite zip_with_app_replicate_l.
Qed.

Lemma select_Forall {A} (P : A → Prop) (m : list bool) (l : list A) :
  Forall P l → Forall P (select m l).
Proof.
  intros Hl. revert m. induction Hl as [| x l Hx _ IH]; intros [| [] m]; simpl; auto.
Qed.

(** [x[mask.unsqueeze(-1).expand_as(x)].contiguous().view(-1, x.size(2))] for
    [x] of shape [[b; n; d]] and a boolean [mask] of shape [[b; n]]: the
    vectors of [x] at the positions the mask flags, one per row. *)
Lemma gather_rows (b n d : nat) (bits : list bool) (xs : list F) :
  length bits = b * n → length xs = b * n * d → 0 < d →
  let rows := select bits (chunks d (b * n) xs) in
  ∃ um mext t0,
    unsqueeze (Tensor [b; n] (DBool bits)) (-1) = Ok um
    ∧ expand_as um (Tensor [b; n; d] (DFloat xs)) = Ok mext
    ∧ size (Tensor [b; n; d] (DFloat xs)) 2 = Ok d
    ∧ index_mask (Tensor [b; n; d] (DFloat xs)) mext = Ok t0
    ∧ view_rows t0 d = Ok (Tensor [length rows; d] (DFloat (concat rows))).
Proof.
  intros Hbits Hxs Hd rows.
  exists (Tensor [b; n; 1] (DBool bits)),
    (Tensor [b; n; d] (DBool (concat (map (replicate d) bits)))).
  eexists. split; [reflexivity |]. split.
  { unfold expand_as, expand. cbn [shape data].
    rewrite (pad_shape_same _ [b; n; 1]) by done.
    change [b; n; 1] with ([b; n] ++ [1]). change [b; n; d] with ([b; n] ++ [d]).
    rewrite expandable_last. cbn [lift_data].
    by rewrite expand_data_last by (unfold numel; simpl; lia). }
  split; [reflexivity |].
  assert (length (concat (map (replicate d) bits)) = length xs) as Hlen.
  { rewrite length_concat, (sum_list_fmap_same d).
    - rewrite length_map. lia.
    - apply Forall_map, Forall_forall. intros ? _. apply length_replicate. }
  assert (concat rows = select (concat (map (replicate d) bits)) xs) as Hrows.
  { unfold rows. rewrite select_rows by lia. by rewrite Hbits. }
  assert (length (concat rows) = length rows * d) as Hcount.
  { rewrite length_concat, (sum_list_fmap_same d); [done |].
    apply select_Forall, chunks_exact. lia. }
  split.
  { unfold index_mask. cbn [mask_bits data rbind dim shape length].
    rewrite bool_decide_true by (split; [done | lia]).
    cbn [drop lift_data]. reflexivity. }
  unfold view_rows. cbn [shape data].
  assert (numel [length (select (concat (map (replicate d) bits))
                           (concat (map (replicate d) bits)))] = length rows * d) as ->.
  { unfold numel. cbn [foldr]. rewrite Nat.mul_1_r.
    rewrite <- (select_length _ xs) by done. by rewrite <- Hrows. }
  destruct (Nat.eqb_spec d 0) as [? | _]; [lia |].
  rewrite Nat.Div0.mod_mul, Nat.eqb_refl, Nat.div_mul by lia.
  do 3 f_equal. unfold numel. cbn [foldr].
  replace (b * (n * (d * 1))) with (length xs) by lia.
  by rewrite select_singletons.
Qed.

(** X14. [_preprocess_mrfr] on a batch whose [image_feat] is a well-formed
    floating-point tensor of shape [[b; n; d]] ([d] not 0) and whose
    [image_mask] is a boolean tensor of shape [[b; n]], for a head whose keys
    are not fields the routine reads or writes: it returns; the targets it
    stores have one row for every region the mask flags, the feature vector
    of that region, in order; the mask it stores has shape [[b; t + n]] and
    holds, for every example, false over the [t] text positions and then the
    image mask; and [image_feat] names what [image_feat_masked] names. *)
Theorem preprocess_mrfr_targets (self : UniterForPretraining.t F) st h tk mk lm bits lf xs
    b n d li ids b0 t r1 v :
  fnonzero (of_Z 0) = false →
  UniterForPretraining.heads self !! "mrfr" = Some h →
  mrfr_target_key (config h) = Some tk → mrfr_mask_key (config h) = Some mk →
  tk ∉ reserved_keys → mk ∉ reserved_keys → tk ≠ "input_ids" → tk ≠ mk →
  batch st !! "image_mask" = Some (FTensor lm) →
  store st !! lm = Some (Tensor [b; n] (DBool bits)) → length bits = b * n →
  batch st !! "image_feat" = Some (FTensor lf) →
  store st !! lf = Some (Tensor [b; n; d] (DFloat xs)) → length xs = b * n * d → 0 < d →
  batch st !! "input_ids" = Some (FTensor li) → store st !! li = Some ids →
  shape ids = b0 :: t :: r1 →
  batch st !! "image_feat_masked" = Some v →
  let rows := select bits (chunks d (b * n) xs) in
  ∃ st',
    UniterForPretraining._preprocess_mrfr self st = (Ok (), st')
    ∧ tensor_at st' tk = Some (Tensor [length rows; d] (DFloat (concat rows)))
    ∧ tensor_at st' mk
      = Some (Tensor [b; t + n]
                (DBool (concat (map (λ row, replicate t false ++ row) (chunks n b bits)))))
    ∧ batch st' !! "image_feat" = Some v.
Proof.
  intros Hzero Hh Htk Hmk Htk_res Hmk_res Htk_ids Hne Hmask Hlm Hbits Hfeat Hlf Hxs Hd
    Hids Hli Hsi Hv rows. keys_ne.
  destruct (gather_rows b n d bits xs Hbits Hxs Hd) as (um & mext & t0 & Hu & He & Hs & Hi & Hr).
  fold rows in Hr.
  unfold UniterForPretraining._preprocess_mrfr.
  erewrite bind_ok; [| done].
  erewrite bind_ok; [| apply contains_run].
  cbn [batch add_call]. rewrite bool_decide_true by (by rewrite Hmask).
  erewrite bind_ok; [| done].
  erewrite bind_ok; [| apply contains_run].
  cbn [batch add_call]. rewrite bool_decide_true by (by rewrite Hv).
  erewrite bind_ok; [| done].
  erewrite bind_ok; [| by apply module_get_run].
  erewrite bind_ok; [| by rewrite Htk].
  erewrite bind_ok; [| by apply module_get_run].
  erewrite bind_ok; [| by rewrite Hmk].
  erewrite bind_ok; [| by eapply get_tensor_run].
  erewrite bind_ok; [| by eapply get_tensor_run].
  erewrite bind_ok; [| unfold lift; by rewrite Hu].
  erewrite bind_ok; [| unfold lift; by rewrite He].
  erewrite bind_ok; [| unfold lift; by rewrite Hs].
  erewrite bind_ok; [| unfold lift; by rewrite Hi].
  erewrite bind_ok; [| unfold lift; by rewrite Hr].
  erewrite bind_ok; [| apply set_tensor_run].
  erewrite bind_ok; last first.
  { eapply concat_mask_of_rows; [done | | by apply store_put, Hli | done].
    by rewrite batch_put_ne. }
  erewrite bind_ok; [| apply set_tensor_run].
  erewrite bind_ok; last first.
  { apply getitem_run. rewrite !batch_put_ne by done. exact Hv. }
  eexists. split; [reflexivity |].
  split; [| split].
  - rewrite tensor_at_setitem_ne by done. apply tensor_at_put_ne; [done |]. apply tensor_at_put.
  - rewrite tensor_at_setitem_ne by done. apply tensor_at_put.
  - cbn [batch set_batch]. by rewrite lookup_insert_eq.
Qed.

(** X15. [_preprocess_mrc] likewise, on the classifier probabilities [cls_prob]
    of shape [[b; n; c]]: the labels it stores are the probability vectors of
    the regions the mask flags, one per row, in order; the mask it stores is
    the combined text and image mask; and [image_feat] names what
    [image_feat_masked] names. *)
Theorem preprocess_mrc_labels (self : UniterForPretraining.t F) st h lk mk lm bits lc ps
    b n c li ids b0 t r1 v :
  fnonzero (of_Z 0) = false →
  UniterForPretraining.heads self !! "mrc" = Some h →
  mrc_label_key (config h) = Some lk → mrc_mask_key (config h) = Some mk →
  lk ∉ reserved_keys → mk ∉ reserved_keys → lk ≠ "input_ids" → lk ≠ mk →
  batch st !! "image_mask" = Some (FTensor lm) →
  store st !! lm = Some (Tensor [b; n] (DBool bits)) → length bits = b * n →
  batch st !! "cls_prob" = Some (FTensor lc) →
  store st !! lc = Some (Tensor [b; n; c] (DFloat ps)) → length ps = b * n * c → 0 < c →
  batch st !! "input_ids" = Some (FTensor li) → store st !! li = Some ids →
  shape ids = b0 :: t :: r1 →
  batch st !! "image_feat_masked" = Some v →
  let rows := select bits (chunks c (b * n) ps) in
  ∃ st',
    UniterForPretraining._preprocess_mrc self st = (Ok (), st')
    ∧ tensor_at st' lk = Some (Tensor [length rows; c] (DFloat (concat rows)))
    ∧ tensor_at st' mk
      = Some (Tensor [b; t + n]
                (DBool (concat (map (λ row, replicate t false ++ row) (chunks n b bits)))))
    ∧ batch st' !! "image_feat" = Some v.
Proof.
  intros Hzero Hh Hlk Hmk Hlk_res Hmk_res Hlk_ids Hne Hmask Hlm Hbits Hcls Hlc Hps Hc
    Hids Hli Hsi Hv rows. keys_ne.
  destruct (gather_rows b n c bits ps Hbits Hps Hc) as (um & mext & t0 & Hu & He & Hs & Hi & Hr).
  fold rows in Hr.
  unfold UniterForPretraining._preprocess_mrc.
  erewrite bind_ok; [| done].
  erewrite bind_ok; [| apply contains_run].
  cbn [batch add_call]. rewrite bool_decide_true by (by rewrite Hcls).
  erewrite bind_ok; [| done].
  erewrite bind_ok; [| apply contains_run].
  cbn [batch add_call]. rewrite bool_decide_true by (by rewrite Hmask).
  erewrite bind_ok; [| done].
  erewrite bind_ok; [| apply contains_run].
  cbn [batch add_call]. rewrite bool_decide_true by (by rewrite Hv).
  erewrite bind_ok; [| done].
  erewrite bind_ok; [| by apply module_get_run].
  erewrite bind_ok; [| by rewrite Hlk].
  erewrite bind_ok; [| by apply module_get_run].
  erewrite bind_ok; [| by rewrite Hmk].
  erewrite bind_ok; [| by apply getitem_run].
  erewrite bind_ok; [| by eapply get_tensor_run].
  erewrite bind_ok; [| by apply deref_run].
  erewrite bind_ok; [| unfold lift; by rewrite Hu].
  erewrite bind_ok; [| unfold lift; by rewrite He].
  erewrite bind_ok; [| unfold lift; by rewrite Hs].
  erewrite bind_ok; [| unfold lift; by rewrite Hi].
  erewrite bind_ok; [| unfold lift; by rewrite Hr].
  erewrite bind_ok; [| apply set_tensor_run].
  erewrite bind_ok; last first.
  { eapply concat_mask_of_rows; [done | | by apply store_put, Hli | done].
    by rewrite batch_put_ne. }
  erewrite bind_ok; [| apply set_tensor_run].
  erewrite bind_ok; last first.
  { apply getitem_run. rewrite !batch_put_ne by done. exact Hv. }
  eexists. split; [reflexivity |].
  split; [| split].
  - rewrite tensor_at_setitem_ne by done. apply tensor_at_put_ne; [done |]. apply tensor_at_put.
  - rewrite tensor_at_setitem_ne by done. apply tensor_at_put.
  - cbn [batch set_batch]. by rewrite lookup_insert_eq.
Qed.

End preprocessing.

(** * What the filter of mismatched captions checks, and what a failure leaves *)

Section checks.
Context {F : Type} {FO : FloatOps F} {G : Type} {RG : PyRandom F G}.
Implicit Types st : state F G.

(** The mask of positive pairs has the shape of [is_correct], whether some
    pair is positive or none is. *)
Lemma pos_pairs_mask_shape (c : tensor F) m :
  shape c = [m] →
  ∃ bs, where_ (any (ne0 c)) (ne0 c) (new_true (ne0 c)) = Ok (Tensor [m] (DBool bs)).
Proof.
  intros Hc. unfold where_, new_true, ne0, to_like, to_bool. cbn [shape data nonzero_bits].
  rewrite Hc.
  assert (broadcast_shapes [m] [1] = Some [m]) as ->.
  { unfold broadcast_shapes, pad_shape. cbn [length Nat.max Nat.sub replicate app broadcast_dims].
    cbn. destruct (Nat.eqb_spec m 1) as [-> | _]; [done |]. done. }
  destruct (any _).
  - unfold expand. cbn [shape data length]. rewrite pad_shape_same by done.
    rewrite expandable_refl. by eexists.
  - unfold expand. cbn [shape data length]. rewrite pad_shape_same by done.
    assert (expandable [1] [m] = true) as ->.
    { unfold expandable. cbn. by rewrite orb_true_r. }
    by eexists.
Qed.

(** A listed field fits [m] examples when it is missing or [None], or names
    a tensor object whose first dimension is [m]. *)
Definition fits (m : nat) (st : state F G) (name : string) : Prop :=
  match batch st !! name with
  | None | Some FNone => True
  | Some (FTensor l) => ∃ x, store st !! l = Some x ∧ take 1 (shape x) = [m]
  | Some _ => False
  end.

(** The body of the loop of [_remove_mismatched_captions], for the mask
    [pm]. *)
Definition check_field (pm : tensor F) (name : string) : M F G unit :=
  x ← get name;
  match x with
  | None | Some FNone => mret ()
  | Some x =>
      x ← tensor_of AttributeError x;
      if bool_decide (dim x = 1) then
        n ← lift (size x 0);
        m ← lift (size pm 0);
        assert_ (bool_decide (n = m))
          (UniterForPretraining.shape_msg name (shape x) m);;
        x ← lift (index_mask x pm);
        mret ()
      else
        x ← lift (index_mask_slice x pm);
        mret ()
  end.

Lemma remove_mismatched_captions_loop (self : UniterForPretraining.t F) st lc c m :
  batch st !! "is_correct" = Some (FTensor lc) → store st !! lc = Some c → shape c = [m] →
  ∃ bs, UniterForPretraining._remove_mismatched_captions self st
        = for_ UniterForPretraining.tensor_names (check_field (Tensor [m] (DBool bs))) st.
Proof.
  intros Hc Hlc Hs. destruct (pos_pairs_mask_shape c m Hs) as (bs & Hpm). exists bs.
  unfold UniterForPretraining._remove_mismatched_captions.
  erewrite bind_ok; [| apply contains_run].
  rewrite bool_decide_true by (by rewrite Hc).
  erewrite bind_ok; [| done].
  erewrite bind_ok; [| by eapply get_tensor_run].
  cbv zeta. erewrite bind_ok; [| unfold lift; by rewrite Hpm]. done.
Qed.

Lemma check_field_fits bs m st name :
  fits m st name → check_field (Tensor [m] (DBool bs)) name st = (Ok (), st).
Proof.
  unfold fits, check_field. intros Hfit.
  erewrite bind_ok; [| done]. cbn beta.
  destruct (batch st !! name) as [[| l | |] |]; try done.
  destruct Hfit as (x & Hl & Hx).
  erewrite bind_ok; [| by apply deref_run].
  destruct (shape x) as [| n rest] eqn:Hshape; [done |]. injection Hx as ->.
  case_bool_decide as Hdim.
  - erewrite bind_ok; [| unfold lift; by rewrite (size_0 x _ _ Hshape)].
    erewrite bind_ok; [| unfold lift; by rewrite (size_0 (Tensor [m] (DBool bs)) m [] eq_refl)].
    rewrite bool_decide_true by done.
    erewrite bind_ok; [| done].
    unfold index_mask. cbn [mask_bits data rbind dim shape length]. rewrite Hshape.
    rewrite bool_decide_true; [done |]. split; [done |]. simpl. lia.
  - unfold index_mask_slice, index_mask, dim in *. cbn [mask_bits data rbind shape length].
    rewrite Hshape in *. simpl in Hdim.
    rewrite bool_decide_true by (simpl; destruct rest; [done | simpl; lia]).
    rewrite bool_decide_true; [done |]. split; [done |]. simpl. lia.
Qed.

Lemma for_skip {A} (body : A → M F G unit) pre (a : A) post st r :
  Forall (λ x, body x st = (Ok (), st)) pre →
  body a st = (Raise r, st) →
  for_ (pre ++ a :: post) body st = (Raise r, st).
Proof.
  intros Hpre Ha. induction Hpre as [| x pre Hx _ IH]; simpl; unfold bind.
  - by rewrite Ha.
  - by rewrite Hx.
Qed.

Lemma for_all_ok {A} (body : A → M F G unit) l st :
  Forall (λ x, body x st = (Ok (), st)) l → for_ l body st = (Ok (), st).
Proof. induction 1 as [| x l Hx _ IH]; simpl; unfold bind; [done | by rewrite Hx]. Qed.

(** X16. Let [is_correct] be a tensor of [m] entries. [_remove_mismatched_captions]
    goes through the listed fields in order and checks each against [m]:
    - if every listed field is missing, [None], or a tensor whose first
      dimension is [m], it returns;
    - the first listed field that is a tensor of one dimension and of
      another length makes it fail the assertion, with the message that
      names the field, its shape and [m];
    - the first listed field that is a tensor of no or several dimensions
      whose first dimension is not [m] makes the indexing fail with
      [IndexError].
    In each case the state is left as it was. *)
Theorem remove_mismatched_captions_checks (self : UniterForPretraining.t F) st lc c m :
  batch st !! "is_correct" = Some (FTensor lc) → store st !! lc = Some c → shape c = [m] →
  (Forall (fits m st) UniterForPretraining.tensor_names →
     UniterForPretraining._remove_mismatched_captions self st = (Ok (), st))
  ∧ (∀ pre name post l x,
       UniterForPretraining.tensor_names = pre ++ name :: post →
       Forall (fits m st) pre →
       batch st !! name = Some (FTensor l) → store st !! l = Some x →
       (∀ n, shape x = [n] → n ≠ m →
          UniterForPretraining._remove_mismatched_captions self st
          = (Raise (AssertionError (UniterForPretraining.shape_msg name [n] m)), st))
       ∧ (dim x ≠ 1 → take 1 (shape x) ≠ [m] →
            UniterForPretraining._remove_mismatched_captions self st
            = (Raise IndexError, st))).
Proof.
  intros Hc Hlc Hs.
  destruct (remove_mismatched_captions_loop self st lc c m Hc Hlc Hs) as (bs & ->).
  split.
  - intros Hfits. apply for_all_ok. eapply Forall_impl; [exact Hfits |].
    intros name. apply check_field_fits.
  - intros pre name post l x -> Hpre Hname Hl.
    assert (Forall (λ k, check_field (Tensor [m] (DBool bs)) k st = (Ok (), st)) pre) as Hok.
    { eapply Forall_impl; [exact Hpre |]. intros k. apply check_field_fits. }
    split.
    + intros n Hx Hne. apply for_skip; [done |]. unfold check_field.
      erewrite bind_ok; [| done]. cbn beta. rewrite Hname.
      erewrite bind_ok; [| by apply deref_run].
      rewrite bool_decide_true by (unfold dim; by rewrite Hx).
      erewrite bind_ok; [| unfold lift; by rewrite (size_0 x _ _ Hx)].
      erewrite bind_ok; [| unfold lift; by rewrite (size_0 (Tensor [m] (DBool bs)) m [] eq_refl)].
      rewrite bool_decide_false by done. by rewrite Hx.
    + intros Hdim Hx. apply for_skip; [done |]. unfold check_field.
      erewrite bind_ok; [| done]. cbn beta. rewrite Hname.
      erewrite bind_ok; [| by apply deref_run].
      rewrite bool_decide_false by done.
      apply bind_raise. unfold lift, index_mask_slice, index_mask.
      cbn [mask_bits data rbind dim shape length].
      case_bool_decide; [| done]. rewrite bool_decide_false; [done |]. by intros [? _].
Qed.

(** X17. An mrc or mrfr batch needs [image_info_0], although mrfr never uses the
    classifier probabilities: without it the pretraining forward raises
    [KeyError], and by then the batch has been changed. The mask drawn by
    [_add_image_feat_masked] has replaced [image_mask] and the masked copy is
    under [image_feat_masked]. *)
Theorem forward_masked_needs_image_info (self : UniterForPretraining.t F) st task v l x
    b n d :
  (∀ k g, 0 < k → (randbelow k g).1 < k) →
  batch st !! "is_correct" = Some v →
  batch st !! "task" = Some task →
  field_is task "mrc" || field_is task "mrfr" = true →
  batch st !! "image_feat" = Some (FTensor l) → store st !! l = Some x →
  shape x = [b; n; d] → 0 < b → 0 < n →
  batch st !! "image_info_0" = None →
  ∃ st1 mask filled,
    UniterForPretraining.forward self st = (Raise (KeyError "image_info_0"), st1)
    ∧ drawn_mask b n mask ∧ masked_copy x mask filled
    ∧ tensor_at st1 "image_mask" = Some mask
    ∧ tensor_at st1 "image_feat_masked" = Some filled.
Proof.
  intros Hrand Hv Htask Hkind Hfeat Hl Hx Hb Hn Hinfo.
  set (st0 := add_call (Enter "_process_sample_list_for_pretraining") st).
  destruct (add_image_feat_masked_total self st0 l x b n d) as (st1 & Hrun); try done.
  destruct (add_image_feat_masked_ok self st0 () st1 Hrun)
    as (l' & x' & b' & n' & mask & filled & g & Hfeat' & Hl' & Hb' & Hn' & Hmask & Hcopy & ->).
  assert (x' = x) as -> by (simpl in Hfeat', Hl'; congruence).
  assert (b' = b ∧ n' = n) as [-> ->].
  { unfold size, dim in Hb', Hn'. rewrite Hx in Hb', Hn'. simpl in Hb', Hn'.
    split; congruence. }
  exists (with_masked st0 g filled mask), mask, filled.
  split; [| split_and!; try done].
  - unfold UniterForPretraining.forward.
    erewrite bind_ok; [| apply contains_run].
    rewrite bool_decide_true by (by rewrite Hv).
    erewrite bind_ok; [| done].
    apply bind_raise. unfold UniterForPretraining._process_sample_list_for_pretraining.
    erewrite bind_ok; [| done].
    erewrite bind_ok; [| by apply getitem_run].
    rewrite Hkind. apply bind_raise.
    erewrite bind_ok; [| exact Hrun].
    apply bind_raise. unfold getitem, with_masked.
    rewrite !batch_put_ne by done. change (batch (set_rng g st0)) with (batch st).
    by rewrite Hinfo.
  - apply tensor_at_put.
  - unfold with_masked. by repeat tensor_at_step.
Qed.

End checks.

(** * The loss modules [init_losses] registers *)

Section losses_registered.
Context {F : Type} {FO : FloatOps F} {G : Type} {RG : PyRandom F G} {C : Type}.
Implicit Types st : state F G.

(** The warning for a task, if it has no loss configuration. *)
Definition warning_of (loss_configs : gmap string C) (task : string) : option string :=
  match loss_configs !! task with
  | None => Some (no_loss_msg task)
  | Some _ => None
  end.

Lemma init_losses_loop_ok (MMFLoss : C → result (loss F)) loss_configs tasks losses0 ws0
    losses ws :
  init_losses_loop MMFLoss loss_configs tasks losses0 ws0 = (Ok losses, ws) →
  (∀ t l, losses !! t = Some l ↔
            (t ∈ tasks ∧ ∃ c, loss_configs !! t = Some c ∧ MMFLoss c = Ok l)
            ∨ (losses0 !! t = Some l
               ∧ ¬ (t ∈ tasks ∧ is_Some (loss_configs !! t))))
  ∧ ws = ws0 ++ omap (warning_of loss_configs) tasks.
Proof.
  revert losses0 ws0. induction tasks as [| task tasks IH]; intros losses0 ws0; simpl.
  - intros [= <- <-]. split; [| by rewrite app_nil_r].
    intros t l. split; [| by intros [[[]%elem_of_nil _] | [? _]]].
    intros Hl. right. split; [done |]. by intros [[]%elem_of_nil _].
  - unfold warning_of at 1. destruct (loss_configs !! task) as [c |] eqn:Hc.
    + destruct (MMFLoss c) as [l0 |] eqn:Hl0; [| done]. intros H.
      apply IH in H as [Hdom ->]. split; [| done].
      intros t l. rewrite Hdom. split.
      * intros [[Hin Hcfg] | [Hl Hnot]]; [left; split; [by right | done] |].
        destruct (decide (t = task)) as [-> | Hne].
        -- rewrite lookup_insert_eq in Hl. injection Hl as <-. left.
           split; [by left | by exists c].
        -- rewrite lookup_insert_ne in Hl by done. right. split; [done |].
           intros [[-> | Hin]%elem_of_cons Hcfg]; [done | by apply Hnot].
      * intros [[[-> | Hin]%elem_of_cons (c' & Hc' & Hl')] | [Hl Hnot]].
        -- assert (c' = c) as -> by congruence.
           destruct (decide (task ∈ tasks)) as [Hin | Hnin];
             [left; split; [done | by exists c] |].
           right. split; [| by intros [? _]].
           rewrite lookup_insert_eq. congruence.
        -- left. split; [done | by exists c'].
        -- right. split.
           ++ rewrite lookup_insert_ne; [done |]. intros <-. apply Hnot.
              split; [by left | by rewrite Hc].
           ++ intros [Hin Hcfg]. apply Hnot. split; [by right | done].
    + intros H. apply IH in H as [Hdom ->]. split; [| by rewrite <- app_assoc].
      intros t l. rewrite Hdom. split.
      * intros [[Hin Hcfg] | [Hl Hnot]]; [left; split; [by right | done] |].
        right. split; [done |].
        intros [[-> | Hin]%elem_of_cons Hcfg]; [| by apply Hnot].
        rewrite Hc in Hcfg. by destruct Hcfg.
      * intros [[[-> | Hin]%elem_of_cons (c' & Hc' & Hl')] | [Hl Hnot]].
        -- congruence.
        -- left. split; [done | by exists c'].
        -- right. split; [done |]. intros [Hin Hcfg]. apply Hnot. split; [by right | done].
Qed.

(** X18. When [init_losses] returns, the loss modules it registered are those of
    the tasks that have a loss configuration, each built from the
    configuration of its task; a loss configuration for a name that is no
    task is ignored. One warning was logged for every task without a loss
    configuration, in the order of the tasks. *)
Theorem init_losses_registered (MMFLoss : C → result (loss F)) tasks losses_config
    losses ws :
  init_losses MMFLoss tasks losses_config = (Ok losses, ws) →
  (∀ t l, losses !! t = Some l ↔
            t ∈ tasks ∧ ∃ c, default ∅ losses_config !! t = Some c ∧ MMFLoss c = Ok l)
  ∧ ws = omap (warning_of (default ∅ losses_config)) tasks.
Proof.
  unfold init_losses. intros [Hdom ->]%init_losses_loop_ok. split; [| done].
  intros t l. rewrite Hdom. split; [| by left].
  intros [? | [Hl _]]; [done |]. by rewrite lookup_empty in Hl.
Qed.

(** X19. A task without a loss configuration gets no loss module, only a warning:
    if its head then returns bare scores (of shape [s ++ [d]], [d] not 0),
    [_process_head_outputs] raises [KeyError] with the dataset name, and no
    loss module is called. If the head returns a mapping with [losses], the
    missing loss module is never looked up. *)
Theorem scores_need_loss_config (MMFLoss : C → result (loss F)) tasks losses_config
    losses ws name st :
  init_losses MMFLoss tasks losses_config = (Ok losses, ws) →
  default ∅ losses_config !! name = None →
  (name ∈ tasks → no_loss_msg name ∈ ws)
  ∧ (∀ x s d, shape x = s ++ [d] → d ≠ 0 →
       _process_head_outputs (FStr name) losses (OutTensor x) st
       = (Raise (KeyError name), st))
  ∧ (∀ m, is_Some (m !! "losses") →
       _process_head_outputs (FStr name) losses (OutMapping m) st
       = (Ok (OutMapping m), st)).
Proof.
  unfold init_losses. intros [Hdom ->]%init_losses_loop_ok Hname. split_and!.
  - intros Hin. rewrite app_nil_l. apply list_elem_of_omap. exists name.
    split; [done |]. unfold warning_of. by rewrite Hname.
  - intros x s d Hs Hd.
    assert (losses !! name = None) as Hnone.
    { destruct (losses !! name) as [l |] eqn:Hl; [| done].
      apply Hdom in Hl as [(_ & c & Hc & _) | [Hl _]]; [congruence |].
      by rewrite lookup_empty in Hl. }
    unfold _process_head_outputs. cbn [is_mapping_with].
    erewrite bind_ok; [| done].
    erewrite bind_ok; [| unfold lift; by rewrite (size_last x s d Hs)].
    erewrite bind_ok; [| unfold lift; by rewrite (view_rows_last x s d Hs Hd)].
    apply bind_raise. unfold module_getitem, module_get.
    assert (∀ o : option (loss F), o = None →
              (match o with Some a => ret a | None => raise (KeyError name) end
                 : M F G (loss F)) st = (Raise (KeyError name), st)) as Hraise
      by (by intros ? ->).
    by apply Hraise.
  - intros m Hm. unfold _process_head_outputs, is_mapping_with.
    by rewrite bool_decide_true.
Qed.

End losses_registered.

(** * The further properties on the small batch *)

Section more_examples.
#[local] Existing Instance Demo.Q_float.
#[local] Existing Instance Demo.counter_random.

(** A classifier on the layers of [Demo], for the dataset [test]. *)
Definition demo_classifier : UniterForClassification.t Q :=
  {| UniterForClassification.uniter := Demo.base;
     UniterForClassification.heads := {[ "test" := Demo.scores_head ]};
     UniterForClassification.losses := {[ "test" := Demo.zero_loss ]} |}.

Definition classifier_output : output Q :=
  match (UniterForClassification.forward demo_classifier (Demo.start "itm")).1 with
  | Ok out => out
  | Raise _ => OutMapping ∅
  end.

Lemma classification_forward_has_losses_witness :
  ∃ m, classifier_output = OutMapping m ∧ is_Some (m !! "losses").
Proof.
  apply (classification_forward_has_losses demo_classifier (Demo.start "itm")
           classifier_output
           (UniterForClassification.forward demo_classifier (Demo.start "itm")).2).
  vm_compute. reflexivity.
Defined.

Lemma pretraining_forward_has_losses_witness :
  ∃ m, demo_output "wra" = OutMapping m ∧ is_Some (m !! "losses").
Proof.
  apply (pretraining_forward_has_losses (Demo.model (Some (1 # 2)%Q)) (Demo.start "wra")
           (demo_output "wra") (after_forward "wra")).
  vm_compute. reflexivity.
Defined.

(** What [_process_head_outputs] makes of the scores [demo_feat]. *)
Definition demo_losses_scores : output Q :=
  OutMapping (<["losses" := VLosses {[ "test/test/loss" := Tensor [] (DFloat [0%Q]) ]}]>
                {[ "scores" := VTensor (Tensor [4; 2] (data demo_feat)) ]}).

Lemma process_head_outputs_idempotent_witness :
  _process_head_outputs (FStr "other") ∅ demo_losses_scores (Demo.start "mlm")
  = (Ok demo_losses_scores, Demo.start "mlm").
Proof.
  apply (process_head_outputs_idempotent (FStr "test") {[ "test" := Demo.zero_loss ]}
           (OutTensor demo_feat) demo_losses_scores (Demo.start "itm")
           (add_call (CallLoss (FStr "test") (Tensor [4; 2] (data demo_feat)))
              (Demo.start "itm"))).
  vm_compute. reflexivity.
Defined.

Lemma process_head_outputs_errors_witness :
  _process_head_outputs (FStr "test") {[ "test" := Demo.zero_loss ]}
    (OutMapping {[ "logits" := VTensor demo_feat ]}) (Demo.start "itm")
  = (Raise AttributeError, Demo.start "itm")
  ∧ _process_head_outputs (FStr "test") {[ "test" := Demo.zero_loss ]}
      (OutTensor (Tensor [] (DFloat [1%Q]))) (Demo.start "itm")
    = (Raise IndexError, Demo.start "itm")
  ∧ _process_head_outputs (FStr "test") {[ "test" := Demo.zero_loss ]}
      (OutTensor (Tensor [2; 0] (DFloat []))) (Demo.start "itm")
    = (Raise RuntimeError, Demo.start "itm")
  ∧ _process_head_outputs (FStr "vqa") {[ "test" := Demo.zero_loss ]}
      (OutTensor demo_feat) (Demo.start "itm")
    = (Raise (KeyError "vqa"), Demo.start "itm").
Proof.
  assert (∀ o : output Q, (∃ x, o = OutTensor x ∨ o = OutMapping {[ "logits" := VTensor x ]}) →
            is_mapping_with "losses" o = false) as Hno.
  { intros o [x [-> | ->]]; [reflexivity | vm_compute; reflexivity]. }
  split_and!.
  - apply (proj1 (process_head_outputs_errors (FStr "test") {[ "test" := Demo.zero_loss ]}
                    (OutMapping {[ "logits" := VTensor demo_feat ]}) (Demo.start "itm")
                    (Hno _ (ex_intro _ demo_feat (or_intror eq_refl))))
             {[ "logits" := VTensor demo_feat ]}); [reflexivity |].
    intros x. vm_compute. discriminate.
  - apply (proj2 (process_head_outputs_errors (FStr "test") {[ "test" := Demo.zero_loss ]}
                    (OutTensor (Tensor [] (DFloat [1%Q]))) (Demo.start "itm")
                    (Hno _ (ex_intro _ _ (or_introl eq_refl))))
             (Tensor [] (DFloat [1%Q]))); [by left | reflexivity].
  - destruct (proj2 (process_head_outputs_errors (FStr "test") {[ "test" := Demo.zero_loss ]}
                       (OutTensor (Tensor [2; 0] (DFloat []))) (Demo.start "itm")
                       (Hno _ (ex_intro _ _ (or_introl eq_refl))))
                (Tensor [2; 0] (DFloat [])) (or_introl eq_refl)) as (_ & Hzero & _).
    apply (Hzero [2]). reflexivity.
  - destruct (proj2 (process_head_outputs_errors (FStr "vqa") {[ "test" := Demo.zero_loss ]}
                       (OutTensor demo_feat) (Demo.start "itm")
                       (Hno _ (ex_intro _ _ (or_introl eq_refl))))
                demo_feat (or_introl eq_refl)) as (_ & _ & Hkey).
    apply (Hkey [2; 2] 2 "vqa"); [reflexivity | lia | reflexivity |].
    vm_compute. reflexivity.
Defined.

(** The batch of [Demo] without its position features. *)
Definition no_pos_feat : state Q nat := set_batch (delete "img_pos_feat") (Demo.start "itm").

Lemma classification_forward_missing_field_witness :
  UniterForClassification.forward demo_classifier no_pos_feat
  = (Raise (KeyError "img_pos_feat"), no_pos_feat).
Proof.
  apply (classification_forward_missing_field demo_classifier no_pos_feat
           ["input_ids"; "position_ids"; "image_feat"] "img_pos_feat"
           ["attention_mask"; "image_mask"]).
  - reflexivity.
  - repeat constructor; vm_compute; by eexists.
  - vm_compute. reflexivity.
Defined.

Lemma image_embeddings_bad_mask_index_witness :
  UniterImageEmbeddings.forward Demo.layers (Some demo_feat) (Some demo_pos_feat)
    demo_pos_feat (Some (Tensor [2; 2] (DLong [0; 2; 0; 1]%Z))) (Demo.start "itm")
  = (Raise IndexError,
     set_weight (Tensor [2; 2] (DFloat [0; 0; 10; 20]%Q)) (Demo.start "itm")).
Proof.
  assert (2%Z ∈ [0; 2; 0; 1]%Z) as Hin by (apply list_elem_of_In; simpl; tauto).
  assert (2 < 0 ∨ 2 ≤ 2)%Z as Hi by lia.
  exact (image_embeddings_bad_mask_index Demo.layers (Some demo_feat) (Some demo_pos_feat)
           demo_pos_feat (Tensor [2; 2] (DLong [0; 2; 0; 1]%Z)) (Demo.start "itm")
           2 [5; 5; 10; 20]%Q [0; 2; 0; 1]%Z 2%Z eq_refl eq_refl Hin Hi).
Defined.

(** The mrc batch of [Demo] with features of two examples without regions. *)
Definition no_regions : state Q nat :=
  set_store (<[2 := Tensor [2; 0; 2] (DFloat [])]>) (Demo.start "mrc").

Lemma add_image_feat_masked_no_regions_witness :
  UniterForPretraining._get_img_mask (Demo.model None) 0%Q 0 no_regions
  = (Raise IndexError, no_regions)
  ∧ UniterForPretraining._add_image_feat_masked (Demo.model None) no_regions
    = (Raise IndexError, no_regions).
Proof.
  apply (add_image_feat_masked_no_regions (Demo.model None) no_regions 2
           (Tensor [2; 0; 2] (DFloat [])) 1 [2]).
  - vm_compute. reflexivity.
  - reflexivity.
  - reflexivity.
Defined.

(** No draw of the counter generator is below 0. *)
Lemma demo_draws_not_below_zero (g : nat) : flt (random g).1 (of_Z 0) = false.
Proof.
  unfold flt, random, of_Z, Demo.Q_float, Demo.counter_random. cbn [fst].
  apply negb_false_iff. unfold Qle_bool, inject_Z. cbn [Qnum Qden].
  apply Z.leb_le. lia.
Qed.

Lemma add_image_feat_masked_single_witness :
  ∃ rows st1,
    UniterForPretraining._add_image_feat_masked (Demo.model None) (Demo.start "mrc")
    = (Ok (), st1)
    ∧ tensor_at st1 "image_mask" = Some (Tensor [2; 2] (DBool (concat rows)))
    ∧ length rows = 2
    ∧ Forall (λ row, ∃ i, i < 2 ∧ row = <[i:=true]> (replicate 2 false)) rows.
Proof.
  apply (add_image_feat_masked_single (Demo.model None) (Demo.start "mrc") 2 demo_feat
           2 2 2).
  - exact demo_draws_not_below_zero.
  - intros k g Hk. simpl. apply Nat.mod_upper_bound. lia.
  - vm_compute. reflexivity.
  - reflexivity.
  - reflexivity.
  - lia.
  - lia.
Defined.

Lemma add_image_feat_masked_rows_witness :
  ∃ bits st1,
    UniterForPretraining._add_image_feat_masked (Demo.model (Some (1 # 2)%Q))
      (Demo.start "mrc") = (Ok (), st1)
    ∧ length bits = 2 * 2
    ∧ tensor_at st1 "image_mask" = Some (Tensor [2; 2] (DBool bits))
    ∧ tensor_at st1 "image_feat_masked"
      = Some (Tensor [2; 2; 2]
                (DFloat (concat (zip_with
                                   (λ (bit : bool) row,
                                      if bit then replicate 2 (of_Z 0) else row)
                                   bits
                                   (chunks 2 (2 * 2) [1; 2; 3; 4; 5; 6; 7; 8]%Q))))).
Proof.
  apply (add_image_feat_masked_rows (Demo.model (Some (1 # 2)%Q)) (Demo.start "mrc") 2
           2 2 2 [1; 2; 3; 4; 5; 6; 7; 8]%Q).
  - intros k g Hk. simpl. apply Nat.mod_upper_bound. lia.
  - vm_compute. reflexivity.
  - reflexivity.
  - reflexivity.
  - lia.
  - lia.
Defined.

Lemma preprocess_mlm_labels_witness :
  ∃ st' li lc,
    UniterForPretraining._preprocess_mlm (Demo.model None) (Demo.start "mlm") = (Ok (), st')
    ∧ batch st' !! "input_ids" = Some (FTensor 8)
    ∧ batch st' !! "mlm_labels"
      = Some (FDict (<["text" := FTensor 7]>
                    (<["image" := FTensor li]> {[ "combined_labels" := FTensor lc ]})))
    ∧ store st' !! 7 = Some (Tensor [2; 2] (DLong [0; 2; 0; 4]%Z))
    ∧ store st' !! li = Some (Tensor [2; 2] (DLong (replicate (2 * 2) (-1)%Z)))
    ∧ store st' !! lc
      = Some (Tensor [2; 2 + 2]
                (DLong (concat (map (λ row, row ++ replicate 2 (-1)%Z)
                                  (chunks 2 2 [0; 2; 0; 4]%Z))))).
Proof.
  apply (preprocess_mlm_labels (Demo.model None) (Demo.start "mlm") Demo.scores_head
           (-1)%Z 7 [0; 2; 0; 4]%Z 2 demo_feat (FTensor 8) 2 2 2 [2]).
  - vm_compute. reflexivity.
  - reflexivity.
  - lia.
  - vm_compute. reflexivity.
  - reflexivity.
  - vm_compute. reflexivity.
  - reflexivity.
  - reflexivity.
  - vm_compute. reflexivity.
Defined.

Lemma preprocess_wra_pads_witness :
  ∃ st' lt lp,
    UniterForPretraining._preprocess_wra (Demo.model None) (Demo.start "wra") = (Ok (), st')
    ∧ store st' !! lt = Some (Tensor [2; 2] (DBool (replicate (2 * 2) false)))
    ∧ store st' !! lp = Some (Tensor [2; 2] (DBool (replicate (2 * 2) false)))
    ∧ ("wra_info" ≠ "is_correct" →
       batch st' !! "wra_info"
       = Some (FDict (<["txt_pad" := FTensor lt]> {[ "img_pad" := FTensor lp ]})))
    ∧ ("wra_info" ≠ "is_correct" → batch st' !! "is_correct" = Some (FTensor 6)).
Proof.
  apply (preprocess_wra_pads (Demo.model None) (Demo.start "wra") Demo.scores_head
           "wra_info" "is_correct" (FTensor 6) 0 demo_ids 2 demo_feat 1 2 [] 1 2 [2]).
  - reflexivity.
  - vm_compute. reflexivity.
  - vm_compute. reflexivity.
  - reflexivity.
  - reflexivity.
  - vm_compute. reflexivity.
  - reflexivity.
  - reflexivity.
  - vm_compute. reflexivity.
  - reflexivity.
  - reflexivity.
Defined.

Lemma forward_itm_frame_witness :
  batch (after_forward "itm")
  = <["itm_labels" := FDict {[ "is_correct" := FTensor 6 ]}]> (batch (Demo.start "itm"))
  ∧ store (after_forward "itm") = store (Demo.start "itm").
Proof.
  apply (forward_itm_frame (Demo.model (Some (1 # 2)%Q)) (Demo.start "itm") (FTensor 6)
           (UniterForPretraining.forward (Demo.model (Some (1 # 2)%Q)) (Demo.start "itm")).1
           (after_forward "itm")).
  - vm_compute. reflexivity.
  - vm_compute. reflexivity.
  - apply surjective_pairing.
Defined.

(** The batch of [Demo] after common preprocessing, with mask probability
    1/2: the mask drawn is true at the first three positions. *)
Definition after_common (task : string) : state Q nat :=
  (UniterForPretraining._process_sample_list_for_pretraining (Demo.model (Some (1 # 2)%Q))
     (Demo.start task)).2.

Lemma reserved_keys_clear (k : string) :
  k ≠ "image_feat" → k ≠ "image_mask" → k ≠ "image_feat_masked" → k ∉ reserved_keys.
Proof.
  intros H1 H2 H3. unfold reserved_keys. rewrite !elem_of_cons, elem_of_nil. tauto.
Qed.

Lemma preprocess_mrfr_targets_witness :
  let rows := select [true; true; true; false] (chunks 2 (2 * 2) [1; 2; 3; 4; 5; 6; 7; 8]%Q) in
  ∃ st',
    UniterForPretraining._preprocess_mrfr (Demo.model (Some (1 # 2)%Q)) (after_common "mrfr")
    = (Ok (), st')
    ∧ tensor_at st' "mrfr_region_target"
      = Some (Tensor [length rows; 2] (DFloat (concat rows)))
    ∧ tensor_at st' "mrfr_region_mask"
      = Some (Tensor [2; 2 + 2]
                (DBool (concat (map (λ row, replicate 2 false ++ row)
                                  (chunks 2 2 [true; true; true; false])))))
    ∧ batch st' !! "image_feat" = Some (FTensor 10).
Proof.
  apply (preprocess_mrfr_targets (Demo.model (Some (1 # 2)%Q)) (after_common "mrfr")
           Demo.scores_head "mrfr_region_target" "mrfr_region_mask"
           11 [true; true; true; false] 2 [1; 2; 3; 4; 5; 6; 7; 8]%Q 2 2 2
           0 demo_ids 2 2 [] (FTensor 10)).
  - reflexivity.
  - vm_compute. reflexivity.
  - reflexivity.
  - reflexivity.
  - by apply reserved_keys_clear.
  - by apply reserved_keys_clear.
  - done.
  - done.
  - vm_compute. reflexivity.
  - vm_compute. reflexivity.
  - reflexivity.
  - vm_compute. reflexivity.
  - vm_compute. reflexivity.
  - reflexivity.
  - lia.
  - vm_compute. reflexivity.
  - vm_compute. reflexivity.
  - reflexivity.
  - vm_compute. reflexivity.
Defined.

Lemma preprocess_mrc_labels_witness :
  let rows := select [true; true; true; false] (chunks 1 (2 * 2) [1; 1; 1; 1]%Q) in
  ∃ st',
    UniterForPretraining._preprocess_mrc (Demo.model (Some (1 # 2)%Q)) (after_common "mrc")
    = (Ok (), st')
    ∧ tensor_at st' "region_class" = Some (Tensor [length rows; 1] (DFloat (concat rows)))
    ∧ tensor_at st' "image_region_mask"
      = Some (Tensor [2; 2 + 2]
                (DBool (concat (map (λ row, replicate 2 false ++ row)
                                  (chunks 2 2 [true; true; true; false])))))
    ∧ batch st' !! "image_feat" = Some (FTensor 10).
Proof.
  apply (preprocess_mrc_labels (Demo.model (Some (1 # 2)%Q)) (after_common "mrc")
           Demo.scores_head "region_class" "image_region_mask"
           11 [true; true; true; false] 12 [1; 1; 1; 1]%Q 2 2 1
           0 demo_ids 2 2 [] (FTensor 10)).
  - reflexivity.
  - vm_compute. reflexivity.
  - reflexivity.
  - reflexivity.
  - by apply reserved_keys_clear.
  - by apply reserved_keys_clear.
  - done.
  - done.
  - vm_compute. reflexivity.
  - vm_compute. reflexivity.
  - reflexivity.
  - vm_compute. reflexivity.
  - vm_compute. reflexivity.
  - reflexivity.
  - lia.
  - vm_compute. reflexivity.
  - vm_compute. reflexivity.
  - reflexivity.
  - vm_compute. reflexivity.
Defined.

(** Two batches on which the filter fails: [is_correct] of three entries
    with [input_ids] of one dimension and two entries, and the mlm batch of
    [Demo] with an [is_correct] of three entries. *)
Definition short_input_ids : state Q nat :=
  State {[ "is_correct" := FTensor 0; "input_ids" := FTensor 1 ]}
    [Tensor [3] (DLong [1; 0; 1]%Z); Tensor [2] (DLong [5; 6]%Z)] 0 Demo.weight [].

Definition long_is_correct : state Q nat :=
  set_store (<[6 := Tensor [3] (DLong [1; 0; 1]%Z)]>) (Demo.start "mlm").

Lemma remove_mismatched_captions_checks_witness :
  UniterForPretraining._remove_mismatched_captions (Demo.model None) (Demo.start "mlm")
  = (Ok (), Demo.start "mlm")
  ∧ UniterForPretraining._remove_mismatched_captions (Demo.model None) short_input_ids
    = (Raise (AssertionError (UniterForPretraining.shape_msg "input_ids" [2] 3)),
       short_input_ids)
  ∧ UniterForPretraining._remove_mismatched_captions (Demo.model None) long_is_correct
    = (Raise IndexError, long_is_correct).
Proof.
  split_and!.
  - apply (proj1 (remove_mismatched_captions_checks (Demo.model None) (Demo.start "mlm")
                    6 (Tensor [2] (DLong [1; 0]%Z)) 2
                    ltac:(vm_compute; reflexivity) eq_refl eq_refl)).
    repeat constructor; vm_compute; first [exact I | by eexists].
  - destruct (proj2 (remove_mismatched_captions_checks (Demo.model None) short_input_ids
                       0 (Tensor [3] (DLong [1; 0; 1]%Z)) 3
                       ltac:(vm_compute; reflexivity) eq_refl eq_refl)
                [] "input_ids"
                ["input_mask"; "image_feat"; "img_pos_feat"; "attention_mask"; "image_mask";
                 "image_feat_masked"; "lm_label_ids"; "cls_prob"]
                1 (Tensor [2] (DLong [5; 6]%Z))
                eq_refl (Forall_nil_2 _) ltac:(vm_compute; reflexivity) eq_refl)
      as [Hassert _].
    apply (Hassert 2); [reflexivity | lia].
  - destruct (proj2 (remove_mismatched_captions_checks (Demo.model None) long_is_correct
                       6 (Tensor [3] (DLong [1; 0; 1]%Z)) 3
                       ltac:(vm_compute; reflexivity) eq_refl eq_refl)
                [] "input_ids"
                ["input_mask"; "image_feat"; "img_pos_feat"; "attention_mask"; "image_mask";
                 "image_feat_masked"; "lm_label_ids"; "cls_prob"]
                0 (Tensor [2; 2] (DLong [1; 2; 3; 4]%Z))
                eq_refl (Forall_nil_2 _) ltac:(vm_compute; reflexivity) eq_refl)
      as [_ Hindex].
    apply Hindex; [vm_compute; lia | vm_compute; by intros [=]].
Defined.

(** The mrfr batch of [Demo] without [image_info_0]. *)
Definition no_image_info : state Q nat :=
  set_batch (delete "image_info_0") (Demo.start "mrfr").

Lemma forward_masked_needs_image_info_witness :
  ∃ st1 mask filled,
    UniterForPretraining.forward (Demo.model (Some (1 # 2)%Q)) no_image_info
    = (Raise (KeyError "image_info_0"), st1)
    ∧ drawn_mask 2 2 mask ∧ masked_copy demo_feat mask filled
    ∧ tensor_at st1 "image_mask" = Some mask
    ∧ tensor_at st1 "image_feat_masked" = Some filled.
Proof.
  apply (forward_masked_needs_image_info (Demo.model (Some (1 # 2)%Q)) no_image_info
           (FStr "mrfr") (FTensor 6) 2 demo_feat 2 2 2).
  - intros k g Hk. simpl. apply Nat.mod_upper_bound. lia.
  - vm_compute. reflexivity.
  - vm_compute. reflexivity.
  - reflexivity.
  - vm_compute. reflexivity.
  - reflexivity.
  - reflexivity.
  - lia.
  - lia.
  - vm_compute. reflexivity.
Defined.

(** Two tasks, of which [test] has a loss configuration, and a loss
    configuration for a name that is no task. *)
Definition demo_loss_configs : gmap string string :=
  {[ "test" := "logit_bce"; "unused" := "cross_entropy" ]}.

Lemma init_losses_registered_witness :
  (∀ t l, ({[ "test" := Demo.zero_loss ]} : gmap string (loss Q)) !! t = Some l ↔
            t ∈ ["test"; "vqa"]
            ∧ ∃ c, default ∅ (Some demo_loss_configs) !! t = Some c ∧ Ok Demo.zero_loss = Ok l)
  ∧ [no_loss_msg "vqa"]
    = omap (warning_of (default ∅ (Some demo_loss_configs))) ["test"; "vqa"].
Proof.
  apply (init_losses_registered (λ _ : string, Ok Demo.zero_loss) ["test"; "vqa"]
           (Some demo_loss_configs) {[ "test" := Demo.zero_loss ]} [no_loss_msg "vqa"]).
  vm_compute. reflexivity.
Defined.

Lemma scores_need_loss_config_witness :
  (("vqa" : string) ∈ ["test"; "vqa"] → no_loss_msg "vqa" ∈ [no_loss_msg "vqa"])
  ∧ (∀ (x : tensor Q) s d, shape x = s ++ [d] → d ≠ 0 →
       _process_head_outputs (FStr "vqa") {[ "test" := Demo.zero_loss ]} (OutTensor x)
         (Demo.start "itm")
       = (Raise (KeyError "vqa"), Demo.start "itm"))
  ∧ (∀ m : gmap string (oval Q), is_Some (m !! "losses") →
       _process_head_outputs (FStr "vqa") {[ "test" := Demo.zero_loss ]} (OutMapping m)
         (Demo.start "itm")
       = (Ok (OutMapping m), Demo.start "itm")).
Proof.
  apply (scores_need_loss_config (λ _ : string, Ok Demo.zero_loss) ["test"; "vqa"]
           (Some demo_loss_configs) {[ "test" := Demo.zero_loss ]} [no_loss_msg "vqa"]
           "vqa" (Demo.start "itm")).
  - vm_compute. reflexivity.
  - vm_compute. reflexivity.
Defined.

End more_examples.
